(** * Deepfake detection pipeline: frame sampling, label resolution,
      pair augmentation, dataset assembly, the two-branch model and the
      inference driver.

    The Python sources [pipeline/dataset.py], [modules.py] and
    [inference.py] are embedded as Rocq functions.  Python exceptions are
    values of [exn] carried by the [result] monad; Python integers are [Z];
    strings are [string]; dictionaries are [gmap]; numpy arrays and torch
    tensors are a shape together with an indexing function. *)

From Stdlib Require Import ZArith QArith Ascii String Decimal DecimalString DecimalZ.
From stdpp Require Import gmap strings list sorting.

Set Default Proof Using "Type".
Local Open Scope Z_scope.

(* ===================================================================== *)
(** * Part I: definitions                                                 *)
(* ===================================================================== *)

(** ** Python runtime: exceptions, integers, sequences, strings *)

Module Py.

(** The exception classes that the embedded code can raise. *)
Inductive exn : Set :=
  | ValueError
  | ZeroDivisionError
  | IndexError
  | KeyError
  | FileNotFoundError
  | RuntimeError
  | Cv2Error.

(** A computation either returns a value or raises. *)
Inductive result (A : Type) : Type :=
  | Ok (a : A)
  | Raise (e : exn).
Global Arguments Ok {A} a.
Global Arguments Raise {A} e.

Global Instance result_ret : MRet result := λ A a, Ok a.
Global Instance result_bind : MBind result := λ A B f m,
  match m with
  | Ok a => f a
  | Raise e => Raise e
  end.

Global Instance result_fmap : FMap result := λ A B f m,
  match m with
  | Ok a => Ok (f a)
  | Raise e => Raise e
  end.

Global Instance exn_eq_dec : EqDecision exn.
Proof. solve_decision. Defined.

(** [a // b] on Python integers: floor division, raising on a zero divisor.
    [Z.div] rounds towards minus infinity like Python does. *)
Definition floordiv (a b : Z) : result Z :=
  if decide (b = 0) then Raise ZeroDivisionError else Ok (a `div` b).

(** [range(n)]: empty when [n <= 0]. *)
Definition range (n : Z) : list Z := Z.of_nat <$> seq 0 (Z.to_nat n).

(** [l[idx]] on a Python list: a negative index counts from the end, and an
    index outside [-len, len) raises IndexError. *)
Definition index {A} (l : list A) (idx : Z) : result A :=
  let len := Z.of_nat (length l) in
  let pos := if decide (idx < 0) then idx + len else idx in
  if decide (0 ≤ pos < len) then
    match l !! Z.to_nat pos with
    | Some x => Ok x
    | None => Raise IndexError
    end
  else Raise IndexError.

(** [d[k]] on a dictionary. *)
Definition getitem `{Countable K} {V} (d : gmap K V) (k : K) : result V :=
  match d !! k with
  | Some v => Ok v
  | None => Raise KeyError
  end.

(** [s.split(sep)] for a one-character separator: always at least one
    piece. *)
Fixpoint split (sep : ascii) (s : string) : list string :=
  match s with
  | EmptyString => [EmptyString]
  | String c rest =>
      if Ascii.eqb c sep then EmptyString :: split sep rest
      else match split sep rest with
           | piece :: pieces => String c piece :: pieces
           | [] => [String c EmptyString]
           end
  end.

(** White space that [int()] strips from an ASCII string: TAB..CR and
    SPACE. *)
Definition is_space (c : ascii) : bool :=
  let n := nat_of_ascii c in
  ((9 <=? n)%nat && (n <=? 13)%nat) || (n =? 32)%nat.

Fixpoint lstrip (s : string) : string :=
  match s with
  | String c rest => if is_space c then lstrip rest else s
  | EmptyString => EmptyString
  end.

Fixpoint rstrip (s : string) : string :=
  match s with
  | String c rest =>
      match rstrip rest with
      | EmptyString => if is_space c then EmptyString else String c EmptyString
      | kept => String c kept
      end
  | EmptyString => EmptyString
  end.

Definition strip (s : string) : string := rstrip (lstrip s).

(** Underscores in an integer literal are digit separators: one at a time,
    and only between two digits. *)
Fixpoint underscores_ok (prev_digit : bool) (s : string) : bool :=
  match s with
  | EmptyString => prev_digit
  | String c rest =>
      if Ascii.eqb c "_" then prev_digit && underscores_ok false rest
      else underscores_ok true rest
  end.

Fixpoint drop_underscores (s : string) : string :=
  match s with
  | EmptyString => EmptyString
  | String c rest =>
      if Ascii.eqb c "_" then drop_underscores rest
      else String c (drop_underscores rest)
  end.

(** The digits of an unsigned literal, after the sign. *)
Definition int_digits (body : string) : result Z :=
  if underscores_ok false body then
    match NilZero.uint_of_string (drop_underscores body) with
    | Some d => Ok (Z.of_uint d)
    | None => Raise ValueError
    end
  else Raise ValueError.

(** [int(s)] in base ten on an ASCII string: surrounding white space, an
    optional sign, then decimal digits (leading zeros allowed).  Anything
    else raises ValueError. *)
Definition int (s : string) : result Z :=
  match strip s with
  | String "+" body => int_digits body
  | String "-" body => Z.opp <$> int_digits body
  | body => int_digits body
  end.

(** [str(n)] on an integer. *)
Definition str (n : Z) : string := NilZero.string_of_int (Z.to_int n).

End Py.

Import Py.

(** ** Frame sampler: [get_frame_names] and [sort_files] *)

Module Sampler.

(** [config['sampling']]: the two integers the sampler reads. *)
Record sampling_config : Set := {
  num_groups : Z;
  group_size : Z
}.

(** The integer a frame file name starts with: [int(x.split('.')[0])]. *)
Definition stem (x : string) : result Z :=
  Py.int (hd EmptyString (Py.split "." x)).

(** [str(x) + '.png'] *)
Definition png_name (x : Z) : string := Py.str x +:+ ".png".

(** [sort_files]: parse every stem, sort the integers, print them back
    with the [.png] suffix. *)
Definition sort_files (file_names : list string) : result (list string) :=
  to_int ← mapM stem file_names;
  let to_int := merge_sort Z.le to_int in
  mret (png_name <$> to_int).

(** [get_frame_names], with the result of [os.listdir(folder_path)] as
    its argument. *)
Definition get_frame_names (sampling : sampling_config)
    (listing : list string) : result (list (list string)) :=
  let num_groups := num_groups sampling in
  let num_frames_per_group := group_size sampling in
  file_names ← sort_files listing;
  let total_frames := Z.of_nat (length file_names) in
  interval ← Py.floordiv (total_frames - num_frames_per_group) num_groups;
  mapM (λ i,
    mapM (λ j,
      let idx := i * interval + j in
      Py.index file_names idx) (Py.range num_frames_per_group))
    (Py.range num_groups).

End Sampler.

(** ** Arrays: numpy [ndarray] and torch [Tensor] *)

Module Array.

(** An n-dimensional array is its shape and the element at each
    multi-index.  Images are arrays of shape [(height, width, channels)]
    holding integers (uint8 samples). *)
Record ndarray (A : Type) : Type := mk_ndarray {
  shape : list nat;
  item : list nat → A
}.
Global Arguments mk_ndarray {A} shape item.
Global Arguments shape {A} _.
Global Arguments item {A} _ _.

Definition numel (s : list nat) : nat := foldr Nat.mul 1%nat s.

Definition same_shape (s1 s2 : list nat) : bool := bool_decide (s1 = s2).

(** [np.stack(arrays)]: a new leading axis; the arrays must all have one
    shape, and there must be one at least, or ValueError is raised. *)
Definition stack {A} (arrays : list (ndarray A)) : result (ndarray A) :=
  match arrays with
  | [] => Raise ValueError
  | first :: others =>
      if forallb (λ a, same_shape (shape a) (shape first)) others then
        Ok (mk_ndarray (length arrays :: shape first)
              (λ idx, match idx with
                      | i :: rest => item (nth i arrays first) rest
                      | [] => item first []
                      end))
      else Raise ValueError
  end.

(** [torch.stack(tensors, dim=0)]: the same array, with RuntimeError
    where [np.stack] raises ValueError. *)
Definition torch_stack {A} (tensors : list (ndarray A)) : result (ndarray A) :=
  match stack tensors with
  | Ok stacked => Ok stacked
  | Raise _ => Raise RuntimeError
  end.

(** Iterating over an array yields its slices along the first axis. *)
Definition iter {A} (a : ndarray A) : list (ndarray A) :=
  match shape a with
  | n :: rest =>
      (λ i, mk_ndarray rest (λ idx, item a (i :: idx))) <$> seq 0 n
  | [] => []
  end.

(** Row-major position of a multi-index, and back. *)
Definition ravel (s idx : list nat) : nat :=
  foldl (λ acc di, (acc * di.1 + di.2)%nat) 0%nat (zip s idx).

Definition unravel (s : list nat) (k : nat) : list nat :=
  (foldr (λ d kacc, ((kacc.1 / d)%nat, (kacc.1 mod d)%nat :: kacc.2))
         (k, []) s).2.

End Array.

Import Array.

Abbreviation image := (ndarray Z).

(** ** OpenCV calls of the dataset *)

Module Cv2.

(** [cv2.cvtColor(image, cv2.COLOR_BGR2RGB)] on what [cv2.imread]
    returned: [None] (an unreadable file) or an array that is not a
    three-channel image raises; otherwise the first and last channel
    swap. *)
Definition cvtColor_BGR2RGB (img : option image) : result image :=
  match img with
  | None => Raise Cv2Error
  | Some a =>
      match shape a with
      | [h; w; 3%nat] =>
          Ok (mk_ndarray [h; w; 3%nat]
                (λ idx, match idx with
                        | [r; c; k] => item a [r; c; (2 - k)%nat]
                        | _ => item a idx
                        end))
      | _ => Raise Cv2Error
      end
  end.

End Cv2.

(** ** Pair augmentor: the albumentations pipeline *)

Module Albu.

(** Modelled from the spec: Python's global random source, which
    albumentations (third-party, absent from the sources) draws from.  A
    state is the sequence of numbers still to come and a cursor into it. *)
Record rng : Type := mk_rng {
  draws : nat → Q;
  cursor : nat
}.

Definition random (r : rng) : Q * rng :=
  (draws r (cursor r), mk_rng (draws r) (S (cursor r))).

(** Modelled from the spec: an albumentations transform, the missing
    library class.  It is applied with probability [p] unless
    [always_apply]; its parameters are drawn once per application, may
    depend on the ['image'] target, and are shared by all targets. *)
Record transform : Type := mk_transform {
  always_apply : bool;
  p : Q;
  params : Type;
  get_params : rng → image → params * rng;
  apply : params → image → image
}.

(** Modelled from the spec: one transform called on the two targets
    ['image'] and ['image0'] of the missing library's [Compose]
    ("shared-target semantics, not independent calls"). *)
Definition call (t : transform) (r : rng) (pair : image * image)
    : rng * (image * image) :=
  let (u, r) := random r in
  if always_apply t || negb (Qle_bool (p t) u) then
    let (ps, r) := get_params t r pair.1 in
    (r, (apply t ps pair.1, apply t ps pair.2))
  else (r, pair).

(** Modelled from the spec: [albu.Compose(transforms,
    additional_targets={'image0': 'image'})] of the missing library, called
    as [aug(image=..., image0=...)]: the stages run in list order. *)
Definition Compose (transforms : list transform) (r : rng)
    (pair : image * image) : rng * (image * image) :=
  foldl (λ st t, call t st.1 st.2) (r, pair) transforms.

Definition height (img : image) : nat := nth 0 (shape img) 0%nat.
Definition width (img : image) : nat := nth 1 (shape img) 0%nat.

(** Rounding of the fraction [a / b] to the nearest integer, ties to the
    even one. *)
Definition round_half_even (a b : Z) : Z :=
  let q := a `div` b in
  let r := a `mod` b in
  if decide (2 * r < b) then q
  else if decide (b < 2 * r) then q + 1
  else if Z.even q then q else q + 1.

Section stages.

(** The interpolation kernel of OpenCV's [resize]: the sample at an index
    of the resized image, given the interpolation flag, the source and the
    new height and width. *)
Variable resample : nat → image → nat → nat → list nat → Z.

(** Modelled from the spec: resizing an image ("final resize") of the
    missing library; the result has the requested height and width and
    the channels of the source, and an image that already has the
    requested size is returned as it is. *)
Definition resize (img : image) (h w : nat) (interpolation : nat) : image :=
  if decide (height img = h ∧ width img = w) then img
  else mk_ndarray (h :: w :: drop 2 (shape img))
                  (resample interpolation img h w).

(** Modelled from the spec: the size computed by [albu.LongestMaxSize]
    of the missing library ("resize-to-fit-longest-side"): the longest
    side becomes [max_size], the other one is scaled by the same factor
    and rounded. *)
Definition fitted_size (max_size h w : nat) : nat * nat :=
  let longest := Nat.max h w in
  let scaled (dim : nat) : nat :=
    Z.to_nat (round_half_even (Z.of_nat dim * Z.of_nat max_size)
                              (Z.of_nat longest)) in
  if decide (longest = max_size) then (h, w) else (scaled h, scaled w).

(** Modelled from the spec: [albu.LongestMaxSize] of the missing library,
    resizing to the fitted size. *)
Definition LongestMaxSize (max_size : nat) (interpolation : nat)
    (always_apply : bool) : transform :=
  mk_transform always_apply 1 unit (λ r _, ((), r))
    (λ _ img,
       let size := fitted_size max_size (height img) (width img) in
       resize img size.1 size.2 interpolation).

(** The only border mode the dataset asks for. *)
Inductive border_mode : Set := BORDER_CONSTANT.

(** Modelled from the spec: [albu.PadIfNeeded] of the missing library
    ("pad-to-square ... with zero (black) border"): a side shorter than
    the minimum is padded on both ends, the content centred; the new
    samples hold [value], one entry per channel. *)
Definition PadIfNeeded (min_height min_width : nat) (mode : border_mode)
    (value : list Z) (always_apply : bool) : transform :=
  mk_transform always_apply 1 (nat * nat * nat * nat)
    (λ r img,
       let rows := height img in
       let cols := width img in
       let h_pad_top := ((min_height - rows) / 2)%nat in
       let h_pad_bottom := (min_height - rows - h_pad_top)%nat in
       let w_pad_left := ((min_width - cols) / 2)%nat in
       let w_pad_right := (min_width - cols - w_pad_left)%nat in
       ((h_pad_top, h_pad_bottom, w_pad_left, w_pad_right), r))
    (λ '(top, bottom, lpad, rpad) img,
       mk_ndarray
         ((top + height img + bottom)%nat
            :: (lpad + width img + rpad)%nat :: drop 2 (shape img))
         (λ idx,
            match idx with
            | [row; col; k] =>
                if decide ((top ≤ row < top + height img)%nat
                           ∧ (lpad ≤ col < lpad + width img)%nat)
                then item img [(row - top)%nat; (col - lpad)%nat; k]
                else nth k value 0
            | _ => 0
            end)).

(** Modelled from the spec: [albu.Resize] of the missing library ("final
    resize"). *)
Definition Resize (height width : nat) (interpolation : nat)
    (always_apply : bool) : transform :=
  mk_transform always_apply 1 unit (λ r _, ((), r))
    (λ _ img, resize img height width interpolation).

(** Modelled from the spec: a stochastic photometric or geometric stage
    of the missing library ("each independently probabilistic"): applied
    with probability [p], it keeps the shape and computes each sample by
    the library's kernel from one random parameter. *)
Definition stochastic_stage (p : Q) (kernel : Q → image → list nat → Z)
    : transform :=
  mk_transform false p Q (λ r _, random r)
    (λ u img, mk_ndarray (shape img) (kernel u img)).

(** Modelled from the spec: [albu.HorizontalFlip()] of the missing
    library, applied with the default probability one half. *)
Definition HorizontalFlip : transform :=
  mk_transform false (1 # 2) unit (λ r _, ((), r))
    (λ _ img,
       mk_ndarray (shape img)
         (λ idx, match idx with
                 | [row; col; k] => item img [row; (width img - 1 - col)%nat; k]
                 | _ => item img idx
                 end)).

End stages.

End Albu.

(** ** Label resolver and dataset assembler: [CustomDataset] *)

Module Dataset.

Import Sampler Albu.

(** [float(n)] on the integers of a label store; the rational stands for
    the float of the same value. *)
Definition float_of_int (n : Z) : Q := inject_Z n.

(** The detail object of one label record: its [is_fake] field, an
    integer in the label store. *)
Record details : Set := { is_fake : Z }.

(** What the dataset sees of the disk: directory listings in iteration
    order, decoded images ([None] where [cv2.imread] cannot read), and
    parsed label files as their [items()] in order. *)
Record filesystem : Type := {
  listdir : string → result (list string);
  imread : string → option image;
  json_load : string → result (list (string * details))
}.

(** [os.path.join] on POSIX paths. *)
Definition path_join (path : string) (parts : list string) : string :=
  foldl (λ path b,
           if String.prefix "/" b then b
           else if bool_decide (path = EmptyString) then b
           else if bool_decide (String.get (String.length path - 1) path
                                = Some "/"%char) then path +:+ b
           else path +:+ "/" +:+ b)
        path parts.

(** A loop whose body may raise. *)
Fixpoint foldM {A B} (f : B → A → result B) (b : B) (l : list A)
    : result B :=
  match l with
  | [] => Ok b
  | x :: rest => b' ← f b x; foldM f b' rest
  end.

(** [name.split('.')[0]]: the lookup key of a record name. *)
Definition record_key (name : string) : string :=
  hd EmptyString (Py.split "." name).

(** The inner loop of [get_labels]: the records of one file, in order. *)
Definition add_records (labels : gmap string Q)
    (file_data : list (string * details)) : gmap string Q :=
  foldl (λ labels record,
           let id := record_key record.1 in
           <[id := float_of_int (is_fake record.2)]> labels)
        labels file_data.

(** [get_labels] *)
Definition get_labels (fs : filesystem) (labels_path : string)
    : result (gmap string Q) :=
  json_files ← listdir fs labels_path;
  foldM (λ labels json_file,
           file_data ← json_load fs (path_join labels_path [json_file]);
           mret (add_records labels file_data))
        ∅ json_files.

Section assembler.

(** Tensor elements (float32), and the scaling of a uint8 sample into
    [0, 1] that torchvision's [ToTensor] applies. *)
Context {scalar : Type}.
Variable to_float : Z → scalar.

(** OpenCV's interpolation kernel and the kernels of the stochastic
    stages, by class name. *)
Variable resample : nat → image → nat → nat → list nat → Z.
Variable kernels : string → Q → image → list nat → Z.

Record CustomDataset : Type := mk_CustomDataset {
  ids : list string;
  frames_path : string;
  labels_path : string;
  sampling : sampling_config;
  img_size : nat;
  labels : gmap string Q;
  aug : list transform
}.

(** The [albu.Compose] of the [else] branch of [__init__]. *)
Definition inference_aug (img_size : nat) : list transform :=
  [ LongestMaxSize resample img_size 1 true;
    PadIfNeeded img_size img_size BORDER_CONSTANT [0; 0; 0] true;
    Resize resample img_size img_size 1 true ].

(** The [albu.Compose] of the [if augmentation] branch of [__init__]. *)
Definition training_aug (img_size : nat) : list transform :=
  [ stochastic_stage (1 # 2) (kernels "ImageCompression");
    LongestMaxSize resample img_size 1 true;
    PadIfNeeded img_size img_size BORDER_CONSTANT [0; 0; 0] true;
    Resize resample img_size img_size 1 true;
    stochastic_stage (1 # 10) (kernels "GaussNoise");
    stochastic_stage (1 # 20) (kernels "GaussianBlur");
    stochastic_stage (7 # 10) (kernels "RandomBrightnessContrast");
    stochastic_stage (1 # 5) (kernels "ToGray");
    HorizontalFlip;
    stochastic_stage (1 # 2) (kernels "ShiftScaleRotate") ].

(** [__init__] *)
Definition init (fs : filesystem) (ids : list string)
    (frames_path labels_path : string) (augmentation : bool)
    (sampling : sampling_config) (img_size : nat) : result CustomDataset :=
  labels ← get_labels fs labels_path;
  mret (mk_CustomDataset ids frames_path labels_path sampling img_size labels
          (if augmentation then training_aug img_size
           else inference_aug img_size)).

(** [__len__] *)
Definition len (self : CustomDataset) : nat := length (ids self).

(** torchvision's [ToTensor()] on a uint8 array: height-width-channel
    becomes channel-height-width, samples are scaled. *)
Definition ToTensor (frame : ndarray Z) : result (ndarray scalar) :=
  match shape frame with
  | [h; w; c] =>
      Ok (mk_ndarray [c; h; w]
            (λ idx, match idx with
                    | [k; row; col] => to_float (item frame [row; col; k])
                    | _ => to_float (item frame idx)
                    end))
  | [h; w] =>
      Ok (mk_ndarray [1%nat; h; w]
            (λ idx, to_float (item frame (drop 1 idx))))
  | _ => Raise ValueError
  end.

(** [to_tensor] *)
Definition to_tensor (sample : ndarray Z) : result (ndarray scalar) :=
  video_tensor ← mapM (λ group,
    group_tensor ← mapM (λ frame, ToTensor frame) (iter group);
    torch_stack group_tensor) (iter sample);
  torch_stack video_tensor.

(** [video, face = id.split('_')] *)
Definition unpack2 (pieces : list string) : result (string * string) :=
  match pieces with
  | [video; face] => Ok (video, face)
  | _ => Raise ValueError
  end.

(** The two lines that read one frame of a group. *)
Definition read_frame (fs : filesystem) (folder_path frame_name : string)
    : result image :=
  Cv2.cvtColor_BGR2RGB (imread fs (path_join folder_path [frame_name])).

(** The loop [for group in frame_names] of [__getitem__]; the random
    source is threaded through the calls of [self.aug]. *)
Fixpoint load_groups (fs : filesystem) (aug : list transform)
    (folder_path : string) (r : rng) (frame_names : list (list string))
    : result (rng * list (ndarray Z)) :=
  match frame_names with
  | [] => Ok (r, [])
  | group :: rest =>
      volume ← mapM (read_frame fs folder_path) group;
      image ← Py.index volume 0;
      image0 ← Py.index volume 1;
      let transformed := Compose aug r (image, image0) in
      stacked ← stack [transformed.2.1; transformed.2.2];
      more ← load_groups fs aug folder_path transformed.1 rest;
      mret (more.1, stacked :: more.2)
  end.

(** [__getitem__] *)
Definition getitem (fs : filesystem) (self : CustomDataset) (r : rng)
    (index : Z) : result (rng * (ndarray scalar * Q * string)) :=
  id ← Py.index (ids self) index;
  vf ← unpack2 (Py.split "_" id);
  let video := vf.1 in
  let face := vf.2 in
  let folder_path := path_join (frames_path self) [video; face] in
  listing ← listdir fs folder_path;
  frame_names ← get_frame_names (sampling self) listing;
  item ← load_groups fs (aug self) folder_path r frame_names;
  sample ← stack item.2;
  x ← to_tensor sample;
  y ← Py.getitem (labels self) video;
  mret (item.1, (x, y, id)).

End assembler.

End Dataset.

(** ** The model: [modules.py] *)

Module Model.

Section modules.

(** Tensor elements (float32). *)
Context {scalar : Type}.

Abbreviation tensor := (ndarray scalar).

(** [x.view(sizes)], one size possibly [-1].  The tensors viewed here are
    contiguous, so only the element count matters. *)
Definition reshape (x : tensor) (s : list nat) : tensor :=
  mk_ndarray s (λ idx, item x (unravel (shape x) (ravel s idx))).

Definition view (x : tensor) (sizes : list Z) : result tensor :=
  let total := Z.of_nat (numel (shape x)) in
  let known := foldr (λ d acc, if decide (d = -1) then acc else acc * d) 1 sizes in
  if decide (Exists (λ d, d < -1) sizes) then Raise RuntimeError
  else
    match length (filter (λ d, d = -1) sizes) with
    | 0%nat =>
        if decide (known = total) then Ok (reshape x (Z.to_nat <$> sizes))
        else Raise RuntimeError
    | 1%nat =>
        if decide (known ≠ 0 ∧ total `mod` known = 0) then
          Ok (reshape x ((λ d, Z.to_nat (if decide (d = -1)
                                         then total `div` known else d))
                           <$> sizes))
        else Raise RuntimeError
    | _ => Raise RuntimeError
    end.

(** Position of an axis in a permutation. *)
Fixpoint position (a : nat) (dims : list nat) : nat :=
  match dims with
  | [] => 0%nat
  | b :: rest => if decide (a = b) then 0%nat else S (position a rest)
  end.

(** [x.permute(dims)] *)
Definition permute (x : tensor) (dims : list nat) : result tensor :=
  let rank := length (shape x) in
  if decide (merge_sort Nat.le dims = seq 0 rank) then
    Ok (mk_ndarray ((λ a, nth a (shape x) 0%nat) <$> dims)
          (λ idx, item x ((λ a, nth (position a dims) idx 0%nat)
                            <$> seq 0 rank)))
  else Raise RuntimeError.

(** The index into the source of [squeeze] for an index into its result. *)
Fixpoint unsqueezed (s idx : list nat) : list nat :=
  match s with
  | [] => []
  | d :: rest =>
      if decide (d = 1%nat) then 0%nat :: unsqueezed rest idx
      else match idx with
           | i :: more => i :: unsqueezed rest more
           | [] => 0%nat :: unsqueezed rest []
           end
  end.

(** [x.squeeze()] without an axis: every axis of size one goes. *)
Definition squeeze (x : tensor) : tensor :=
  mk_ndarray (filter (λ d, d ≠ 1%nat) (shape x))
             (λ idx, item x (unsqueezed (shape x) idx)).

(** [torch.cat([a, b], dim)] *)
Definition cat (a b : tensor) (dim : nat) : result tensor :=
  let da := nth dim (shape a) 0%nat in
  let db := nth dim (shape b) 0%nat in
  if decide ((dim < length (shape a))%nat
             ∧ <[dim := 0%nat]> (shape a) = <[dim := 0%nat]> (shape b)) then
    Ok (mk_ndarray (<[dim := (da + db)%nat]> (shape a))
          (λ idx, let i := nth dim idx 0%nat in
                  if decide (i < da)%nat then item a idx
                  else item b (<[dim := (i - da)%nat]> idx)))
  else Raise RuntimeError.

(** [nn.Sigmoid]: the logistic function on every element. *)
Record Sigmoid : Type := { sigmoid : scalar → scalar }.

Definition Sigmoid_forward (self : Sigmoid) (x : tensor) : tensor :=
  mk_ndarray (shape x) (λ idx, sigmoid self (item x idx)).

(** [nn.Linear]: the learned affine map on the last axis. *)
Record Linear : Type := {
  in_features : nat;
  out_features : nat;
  linear_map : tensor → list nat → scalar
}.

Definition Linear_forward (self : Linear) (x : tensor) : result tensor :=
  match reverse (shape x) with
  | d :: lead =>
      if decide (d = in_features self) then
        Ok (mk_ndarray (reverse (out_features self :: lead))
                       (linear_map self x))
      else Raise RuntimeError
  | [] => Raise RuntimeError
  end.

(** [nn.Conv3d] on a batched input [(n, c, d, h, w)]; the learned kernel
    gives the elements, the sizes follow the convolution arithmetic. *)
Record Conv3d : Type := {
  in_channels : nat;
  out_channels : nat;
  kernel_size : nat * nat * nat;
  stride : nat;
  padding : nat * nat * nat;
  conv_map : tensor → list nat → scalar
}.

Definition conv_out (size kernel pad stride : nat) : nat :=
  ((size + 2 * pad - kernel) / stride + 1)%nat.

Definition Conv3d_forward (self : Conv3d) (x : tensor) : result tensor :=
  let '(kd, kh, kw) := kernel_size self in
  let '(pd, ph, pw) := padding self in
  match shape x with
  | [n; c; d; h; w] =>
      if decide (c = in_channels self ∧ (kd ≤ d + 2 * pd)%nat
                 ∧ (kh ≤ h + 2 * ph)%nat ∧ (kw ≤ w + 2 * pw)%nat) then
        Ok (mk_ndarray [n; out_channels self;
                        conv_out d kd pd (stride self);
                        conv_out h kh ph (stride self);
                        conv_out w kw pw (stride self)]
                       (conv_map self x))
      else Raise RuntimeError
  | _ => Raise RuntimeError
  end.

(** [EfficientNetBlock]: the pretrained network is the function it
    computes. *)
Record EfficientNetBlock : Type := {
  efficient_net : tensor → result tensor
}.

Definition EfficientNetBlock_forward (self : EfficientNetBlock) (x : tensor)
    : result tensor :=
  x ← efficient_net self x;
  mret x.

(** [Spatial] *)
Record Spatial : Type := { spa_eff : EfficientNetBlock }.

Definition Spatial_forward (self : Spatial) (x : tensor) : result tensor :=
  x_ ← EfficientNetBlock_forward (spa_eff self) x;
  mret x.

(** [Spatiotemporal] *)
Record Spatiotemporal : Type := {
  conv3d_1 : Conv3d;
  spt_eff : EfficientNetBlock
}.

(** [Spatiotemporal.__init__]: [d] is [frames-per-group] of the input
    shape, [features] is [config["motion-diff"]["features"]]. *)
Definition Spatiotemporal_init (d features : nat)
    (conv_map : tensor → list nat → scalar) (eff : EfficientNetBlock)
    : Spatiotemporal :=
  {| conv3d_1 := {| in_channels := 3;
                    out_channels := features;
                    kernel_size := (d, 3%nat, 3%nat);
                    stride := 1;
                    padding := (0%nat, 1%nat, 1%nat);
                    conv_map := conv_map |};
     spt_eff := eff |}.

Definition Spatiotemporal_forward (self : Spatiotemporal) (x : tensor)
    : result tensor :=
  x ← permute x [0; 2; 1; 3; 4]%nat;
  x ← Conv3d_forward (conv3d_1 self) x;
  let x := squeeze x in
  x ← EfficientNetBlock_forward (spt_eff self) x;
  mret x.

(** [TheModel]; [input_shape] is the dictionary [self.shape]. *)
Record input_shape : Set := {
  n : nat; g : nat; f : nat; c : nat; h : nat; w : nat
}.

Record TheModel : Type := {
  model_shape : input_shape;
  spa : Spatial;
  spt : Spatiotemporal;
  sig_1 : Sigmoid;
  ln_1 : Linear;
  sig_2 : Sigmoid;
  ln_2 : Linear;
  sig_3 : Sigmoid
}.

(** [TheModel.__init__], given the two branches and the learned maps. *)
Definition TheModel_init (s : input_shape) (spa : Spatial)
    (spt : Spatiotemporal) (logistic : scalar → scalar)
    (map_1 map_2 : tensor → list nat → scalar) : TheModel :=
  {| model_shape := s;
     spa := spa;
     spt := spt;
     sig_1 := {| sigmoid := logistic |};
     ln_1 := {| in_features := g s * f s + g s;
                out_features := g s;
                linear_map := map_1 |};
     sig_2 := {| sigmoid := logistic |};
     ln_2 := {| in_features := g s;
                out_features := 1;
                linear_map := map_2 |};
     sig_3 := {| sigmoid := logistic |} |}.

Definition TheModel_forward (self : TheModel) (x : tensor) : result tensor :=
  let s := model_shape self in
  let dims (l : list nat) : list Z := Z.of_nat <$> l in
  (* Spatial branch *)
  x_spa ← view x (dims [n s * g s * f s; c s; h s; w s])%nat;
  x_spa ← Spatial_forward (spa self) x_spa;
  x_spa ← view x_spa (dims [n s; g s * f s])%nat;
  (* Spatiotemporal branch *)
  x_spt ← view x (dims [n s * g s; f s; c s; h s; w s])%nat;
  x_spt ← Spatiotemporal_forward (spt self) x_spt;
  x_spt ← view x_spt (dims [n s; g s]);
  (* Make decision (merge two branches) *)
  x ← cat x_spa x_spt 1;
  x ← view x [Z.of_nat (n s); -1];
  let x := Sigmoid_forward (sig_1 self) x in
  x ← Linear_forward (ln_1 self) x;
  let x := Sigmoid_forward (sig_2 self) x in
  x ← Linear_forward (ln_2 self) x;
  let x := Sigmoid_forward (sig_3 self) x in
  mret x.

End modules.

End Model.

(** ** The inference driver: [infer] of [inference.py] *)

Module Inference.

Import Sampler Albu Dataset.

Section driver.

Context {scalar : Type}.
Variable to_float : Z → scalar.
Variable resample : nat → image → nat → nat → list nat → Z.
Variable kernels : string → Q → image → list nat → Z.

(** The command line and the configuration document, as far as [infer]
    reads them. *)
Record options : Set := {
  data_path : string;
  metadata_path : string;
  model_path : string
}.

Record config : Set := {
  cfg_sampling : sampling_config;
  input_size : nat
}.

(** One row of the result table. *)
Record outcome : Type := { pred : scalar; tar : Q }.

(** [DataLoader(batch_size=1)] puts a batch axis of size one in front. *)
Definition batch_of_one (x : ndarray scalar) : ndarray scalar :=
  mk_ndarray (1%nat :: shape x) (λ idx, item x (drop 1 idx)).

(** [t.item()]: the single element of a tensor. *)
Definition tensor_item (t : ndarray scalar) : result scalar :=
  if decide (numel (shape t) = 1%nat) then
    Ok (item t (replicate (length (shape t)) 0%nat))
  else Raise RuntimeError.

(** The body of the loop of [infer]: one track is loaded, scored and
    entered in the table.  [pipeline.modules.TheModel] with the loaded
    weights is not among the sources; it is the function [model] that it
    computes. *)
Definition infer_step (fs : filesystem)
    (model : ndarray scalar → result (ndarray scalar))
    (test_dataset : CustomDataset)
    (st : rng * gmap string outcome) (index : Z)
    : result (rng * gmap string outcome) :=
  item ← getitem to_float fs test_dataset st.1 index;
  let '(x, y, id) := item.2 in
  let x := batch_of_one x in
  pred ← model x;
  p ← tensor_item pred;
  mret (item.1, <[id := {| pred := p; tar := y |}]> st.2).

(** [infer].  [pipeline.utils.get_ids] is not among the sources either;
    it is the function [get_ids].  The loader visits the indices in
    order (no shuffling, batches of one). *)
Definition infer (fs : filesystem)
    (model : ndarray scalar → result (ndarray scalar))
    (get_ids : string → result (list string))
    (opt : options) (cfg : config) (r : rng)
    : result (gmap string outcome) :=
  ids ← get_ids (data_path opt);
  test_dataset ← init resample kernels fs ids (data_path opt)
                   (metadata_path opt) false (cfg_sampling cfg)
                   (input_size cfg);
  st ← foldM (infer_step fs model test_dataset) (r, ∅)
             (Py.range (Z.of_nat (len test_dataset)));
  mret st.2.

End driver.

End Inference.

(** ** Predicates used in the statements *)

(** Strings made of decimal digits only. *)
Definition is_digit (ch : ascii) : bool :=
  match uint_of_char ch (Some Nil) with Some _ => true | None => false end.

Fixpoint all_digits (s : string) : bool :=
  match s with
  | EmptyString => true
  | String ch rest => is_digit ch && all_digits rest
  end.

(** A decoded frame: three channels, not empty. *)
Definition decoded (frame : image) : Prop :=
  ∃ hz wz, shape frame = [hz; wz; 3%nat] ∧ (1 ≤ hz)%nat ∧ (1 ≤ wz)%nat.

(** The shape contract of a pair augmentor for output size [size]. *)
Definition pair_contract (aug : list Albu.transform) (size : nat) : Prop :=
  ∀ r a b, decoded a → decoded b →
    let out := (Albu.Compose aug r (a, b)).2 in
    shape out.1 = [size; size; 3%nat] ∧ shape out.2 = [size; size; 3%nat].

(** A frame file that [cv2.imread] decodes. *)
Definition readable (fs : Dataset.filesystem) (folder_path name : string)
    : Prop :=
  ∃ frame, Dataset.imread fs (Dataset.path_join folder_path [name]) = Some frame
           ∧ decoded frame.

(** ** Example data *)

(** A label store of one file holding [{"abc.mp4": {"is_fake": 1}}]. *)
Definition label_store_example : Dataset.filesystem :=
  {| Dataset.listdir := λ path,
       if bool_decide (path = "metadata") then Ok ["part0.json"]
       else Raise FileNotFoundError;
     Dataset.imread := λ _, None;
     Dataset.json_load := λ path,
       if bool_decide (path = "metadata/part0.json")
       then Ok [("abc.mp4", {| Dataset.is_fake := 1 |})]
       else Raise FileNotFoundError |}.

(** An interpolation kernel to run the stages with: nearest neighbour. *)
Definition nearest (interpolation : nat) (src : image) (h w : nat)
    (idx : list nat) : Z :=
  match idx with
  | [row; col; k] =>
      item src [(row * Albu.height src / h)%nat;
                (col * Albu.width src / w)%nat; k]
  | _ => 0
  end.

(** Frames of 4000 by 100 and of 50 by 50. *)
Definition wide_frame : image := mk_ndarray [4000; 100; 3]%nat (λ _, 255).

Definition small_frame : image := mk_ndarray [50; 50; 3]%nat (λ _, 128).

(** Two random sources: one that only draws 0, one that only draws 1. *)
Definition quiet : Albu.rng := Albu.mk_rng (λ _, 0%Q) 0.

Definition loud : Albu.rng := Albu.mk_rng (λ _, 1%Q) 0.

(** A 2 by 2 frame whose samples are their column number. *)
Definition ramp : image :=
  mk_ndarray [2; 2; 3]%nat
    (λ idx, match idx with [row; col; k] => Z.of_nat col | _ => 0 end).

(** A 2 by 2 frame with distinct samples. *)
Definition demo_frame : image :=
  mk_ndarray [2; 2; 3]%nat
    (λ idx, match idx with
            | [row; col; k] => Z.of_nat (row + 2 * col + 4 * k)
            | _ => 0
            end).

(** A disk with a track [long_0] of six frames, a track [short_0] of one
    frame, and one label file. *)
Definition demo_fs : Dataset.filesystem :=
  {| Dataset.listdir := λ path,
       if bool_decide (path = "data/long/0")
       then Ok ["3.png"; "0.png"; "5.png"; "1.png"; "4.png"; "2.png"]
       else if bool_decide (path = "data/short/0") then Ok ["0.png"]
       else if bool_decide (path = "metadata") then Ok ["labels.json"]
       else Raise FileNotFoundError;
     Dataset.imread := λ path,
       if String.prefix "data/" path then Some demo_frame else None;
     Dataset.json_load := λ path,
       if bool_decide (path = "metadata/labels.json")
       then Ok [("long.mp4", {| Dataset.is_fake := 1 |});
                ("short.mp4", {| Dataset.is_fake := 0 |})]
       else Raise FileNotFoundError |}.

(** Rational tensor elements, kernels that copy, and a model that scores
    every video one half. *)
Definition demo_to_float (sample : Z) : Q := sample # 255.

Definition demo_kernels (name : string) (u : Q) (img : image)
    (idx : list nat) : Z := item img idx.

Definition demo_model (x : ndarray Q) : result (ndarray Q) :=
  Ok (mk_ndarray [1; 1]%nat (λ _, 1 # 2)).

Definition demo_options : Inference.options :=
  {| Inference.data_path := "data";
     Inference.metadata_path := "metadata";
     Inference.model_path := "model.pth" |}.

Definition demo_config : Inference.config :=
  {| Inference.cfg_sampling :=
       {| Sampler.num_groups := 1; Sampler.group_size := 2 |};
     Inference.input_size := 2 |}.

(** The dataset that [__init__] builds on that disk for the inference
    profile and image size 2. *)
Definition demo_labels : gmap string Q :=
  <["short" := 0%Q]> (<["long" := 1%Q]> ∅).

Definition demo_dataset (sampling : Sampler.sampling_config)
    : Dataset.CustomDataset :=
  Dataset.mk_CustomDataset ["long_0"; "short_0"] "data" "metadata" sampling 2
    demo_labels (Dataset.inference_aug nearest 2).

(** A batch of four 8 by 8 frames, an extractor that gives one score per
    image of its batch, and one group of two 224 by 224 frames. *)
Definition four_frames : ndarray Q :=
  mk_ndarray [4; 3; 8; 8]%nat (λ _, 0%Q).

Definition one_score_each : Model.EfficientNetBlock (scalar := Q) :=
  {| Model.efficient_net := λ x,
       Ok (mk_ndarray [nth 0 (shape x) 0%nat; 1%nat] (λ _, 1 # 2)) |}.

Definition one_group : ndarray Q :=
  mk_ndarray [1; 2; 3; 224; 224]%nat (λ _, 0%Q).

(** ** The cross-validation dataset: [CrossValidationDataset] *)

Module CrossValidation.

Import Sampler Albu Dataset.

(** [os.path.basename] on POSIX paths: what follows the last slash. *)
Definition basename (path : string) : string :=
  default EmptyString (last (Py.split "/" path)).

(** The two directories that both walks go through, in this order. *)
Definition splits (path : string) : list string :=
  [path_join path ["training"]; path_join path ["validation"]].

(** [get_full_paths]: the folders of face ['0'] that hold at least 24
    entries.  The folder of a face is listed only when the face is
    ['0']. *)
Definition get_full_paths (fs : filesystem) (root_path : string)
    : result (list string) :=
  let dirs := splits root_path in
  foldM (λ ids dir,
    videos ← listdir fs dir;
    foldM (λ ids video,
      faces ← listdir fs (path_join dir [video]);
      foldM (λ ids face,
        if bool_decide (face = "0") then
          frames ← listdir fs (path_join dir [video; face]);
          if decide (24 ≤ length frames)%nat
          then mret (ids ++ [path_join dir [video; face]])
          else mret ids
        else mret ids) ids faces) ids videos) [] dirs.

(** [get_labels]: the label files of the training directory, then those
    of the validation directory. *)
Definition get_labels (fs : filesystem) (labels_path : string)
    : result (gmap string Q) :=
  let dirs := splits labels_path in
  foldM (λ labels dir,
    json_files ← listdir fs dir;
    foldM (λ labels json_file,
      file_data ← json_load fs (path_join dir [json_file]);
      mret (add_records labels file_data)) labels json_files) ∅ dirs.

Section cross_validation.

Context {scalar : Type}.
Variable to_float : Z → scalar.
Variable resample : nat → image → nat → nat → list nat → Z.
Variable kernels : string → Q → image → list nat → Z.

Record CrossValidationDataset : Type := mk_CrossValidationDataset {
  root_path : string;
  labels_path : string;
  ids : list string;
  labels : gmap string Q;
  img_size : nat;
  sampling : sampling_config;
  aug : list transform
}.

(** [__init__]: the ids are collected first, then the labels. *)
Definition init (fs : filesystem) (frames_path labels_path : string)
    (augmentation : bool) (sampling : sampling_config) (img_size : nat)
    : result CrossValidationDataset :=
  ids ← get_full_paths fs frames_path;
  labels ← get_labels fs labels_path;
  mret (mk_CrossValidationDataset frames_path labels_path ids labels img_size
          sampling
          (if augmentation then training_aug resample kernels img_size
           else inference_aug resample img_size)).

(** [__len__] and [get_ids] *)
Definition len (self : CrossValidationDataset) : nat := length (ids self).

Definition get_ids (self : CrossValidationDataset) : list string := ids self.

(** [__getitem__]: an id is the path of the folder itself; the sampler,
    the loop over the groups and [to_tensor] have the text of their
    namesakes in [CustomDataset]. *)
Definition getitem (fs : filesystem) (self : CrossValidationDataset)
    (r : rng) (idx : Z) : result (rng * (ndarray scalar * Q * string)) :=
  id ← Py.index (ids self) idx;
  listing ← listdir fs id;
  frame_names ← get_frame_names (sampling self) listing;
  item ← load_groups fs (aug self) id r frame_names;
  sample ← stack item.2;
  x ← to_tensor to_float sample;
  y ← Py.getitem (labels self) (basename id);
  mret (item.1, (x, y, id)).

End cross_validation.

End CrossValidation.

(** ** More predicates and example data *)

(** How often a character occurs in a string. *)
Fixpoint count_char (ch : ascii) (s : string) : nat :=
  match s with
  | EmptyString => 0
  | String c rest =>
      ((if Ascii.eqb c ch then 1 else 0) + count_char ch rest)%nat
  end.

(** In the words of the specification: [id] is the part of the record
    name [name] before its first dot, all of it when it holds no dot. *)
Definition before_first_dot (name id : string) : Prop :=
  count_char "." id = 0%nat
  ∧ (name = id ∨ ∃ rest, name = id +:+ String "." rest).

(** A label store of two files in which the id [abc] occurs twice: 0.0
    in the first file, 1.0 in the second. *)
Definition colliding_store : Dataset.filesystem :=
  {| Dataset.listdir := λ path,
       if bool_decide (path = "metadata") then Ok ["part0.json"; "part1.json"]
       else Raise FileNotFoundError;
     Dataset.imread := λ _, None;
     Dataset.json_load := λ path,
       if bool_decide (path = "metadata/part0.json")
       then Ok [("abc.mp4", {| Dataset.is_fake := 0 |});
                ("xyz.mp4", {| Dataset.is_fake := 1 |})]
       else if bool_decide (path = "metadata/part1.json")
       then Ok [("abc.avi", {| Dataset.is_fake := 1 |});
                ("def", {| Dataset.is_fake := 0 |})]
       else Raise FileNotFoundError |}.

(** A frame file name made of an index and any extension. *)
Definition indexed_name (entry : Z * string) : string :=
  Py.str entry.1 +:+ "." +:+ entry.2.

(** A disk with the track [long_0] of six frames and a track [other_0]
    of two frames; only [long] has a label.  The dataset on it also
    lists an id with two underscores. *)
Definition unlabelled_fs : Dataset.filesystem :=
  {| Dataset.listdir := λ path,
       if bool_decide (path = "data/long/0")
       then Ok ["3.png"; "0.png"; "5.png"; "1.png"; "4.png"; "2.png"]
       else if bool_decide (path = "data/other/0") then Ok ["1.png"; "0.png"]
       else if bool_decide (path = "metadata") then Ok ["labels.json"]
       else Raise FileNotFoundError;
     Dataset.imread := λ path,
       if String.prefix "data/" path then Some demo_frame else None;
     Dataset.json_load := λ path,
       if bool_decide (path = "metadata/labels.json")
       then Ok [("long.mp4", {| Dataset.is_fake := 1 |})]
       else Raise FileNotFoundError |}.

Definition unlabelled_dataset (sampling : Sampler.sampling_config)
    : Dataset.CustomDataset :=
  Dataset.mk_CustomDataset ["long_0"; "other_0"; "my_video_0"] "data"
    "metadata" sampling 2 {["long" := 1%Q]} (Dataset.inference_aug nearest 2).

(** A label store whose second file does not parse. *)
Definition broken_store_fs : Dataset.filesystem :=
  {| Dataset.listdir := λ path,
       if bool_decide (path = "metadata")
       then Ok ["part0.json"; "part1.json"; "part2.json"]
       else Raise FileNotFoundError;
     Dataset.imread := λ _, None;
     Dataset.json_load := λ path,
       if bool_decide (path = "metadata/part0.json")
       then Ok [("abc.mp4", {| Dataset.is_fake := 1 |})]
       else if bool_decide (path = "metadata/part1.json")
       then Raise ValueError
       else Ok [] |}.

(** A sample of two groups of two 2 by 2 frames. *)
Definition small_sample : ndarray Z :=
  mk_ndarray [2; 2; 2; 2; 3]%nat
    (λ idx, match idx with
            | [g; f; row; col; k] =>
                Z.of_nat (g + 2 * f + 4 * row + 8 * col + 16 * k)
            | _ => 0
            end).

(** A model for one video of one group of two 2 by 2 frames, with
    branches that score, and a batch of its input shape; two groups of
    grey frames. *)
Definition tiny_model : Model.TheModel (scalar := Q) :=
  Model.TheModel_init
    {| Model.n := 1; Model.g := 1; Model.f := 2;
       Model.c := 3; Model.h := 2; Model.w := 2 |}
    {| Model.spa_eff := one_score_each |}
    (Model.Spatiotemporal_init 2 3 (λ _ _, 0%Q) one_score_each)
    (λ v, v) (λ _ _, 0%Q) (λ _ _, 0%Q).

Definition tiny_batch : ndarray Q :=
  mk_ndarray [1; 1; 2; 3; 2; 2]%nat (λ _, 0%Q).

Definition grey_groups : ndarray Q :=
  mk_ndarray [2; 2; 1; 8; 8]%nat (λ _, 0%Q).

Definition four_groups : ndarray Q :=
  mk_ndarray [4; 2; 3; 8; 8]%nat (λ _, 0%Q).

(** A cross-validation tree: one training video with a face folder ['0']
    of 24 frames and a face folder ['1'], no validation video; the label
    of the video is 1 in the training store and 0 in the validation
    store. *)
Definition cv_fs : Dataset.filesystem :=
  {| Dataset.listdir := λ path,
       if bool_decide (path = "frames/training") then Ok ["vidA"]
       else if bool_decide (path = "frames/validation") then Ok []
       else if bool_decide (path = "frames/training/vidA") then Ok ["1"; "0"]
       else if bool_decide (path = "frames/training/vidA/0")
       then Ok (Sampler.png_name <$> Py.range 24)
       else if bool_decide (path = "meta/training") then Ok ["t.json"]
       else if bool_decide (path = "meta/validation") then Ok ["v.json"]
       else Raise FileNotFoundError;
     Dataset.imread := λ path,
       if String.prefix "frames/" path then Some demo_frame else None;
     Dataset.json_load := λ path,
       if bool_decide (path = "meta/training/t.json")
       then Ok [("vidA.mp4", {| Dataset.is_fake := 1 |})]
       else if bool_decide (path = "meta/validation/v.json")
       then Ok [("vidA.mp4", {| Dataset.is_fake := 0 |})]
       else Raise FileNotFoundError |}.

Definition cv_dataset : CrossValidation.CrossValidationDataset :=
  CrossValidation.mk_CrossValidationDataset "frames" "meta"
    ["frames/training/vidA/0"] {["vidA" := 0%Q]} 2
    {| Sampler.num_groups := 2; Sampler.group_size := 2 |}
    (Dataset.inference_aug nearest 2).

(** What [get_full_paths] asks of a track before it lists it: the
    folder of face ['0'] of a video of one of the two directories, with
    at least 24 entries. *)
Definition eligible (fs : Dataset.filesystem) (root_path id : string) : Prop :=
  ∃ dir videos video frames,
    dir ∈ CrossValidation.splits root_path
    ∧ Dataset.listdir fs dir = Ok videos ∧ video ∈ videos
    ∧ id = Dataset.path_join dir [video; "0"]
    ∧ Dataset.listdir fs id = Ok frames ∧ (24 ≤ length frames)%nat.

(** Some record of the files is stored under [key]. *)
Definition written (files : list (list (string * Dataset.details)))
    (key : string) : Prop :=
  ∃ file_data record,
    file_data ∈ files ∧ record ∈ file_data
    ∧ Dataset.record_key record.1 = key.

(** In the words of claim C10: group by group, the first two names are
    read and converted to RGB and that pair is augmented, the random
    source passing from one group to the next; the names after the
    second play no part. *)
Fixpoint augmented_pairs (fs : Dataset.filesystem)
    (aug : list Albu.transform) (folder_path : string) (r : Albu.rng)
    (frame_names : list (list string)) (pairs : list (image * image))
    (r' : Albu.rng) : Prop :=
  match frame_names, pairs with
  | [], [] => r' = r
  | group :: rest, out :: more =>
      ∃ name name0 rgb rgb0,
        group !! 0%nat = Some name ∧ group !! 1%nat = Some name0
        ∧ Cv2.cvtColor_BGR2RGB
            (Dataset.imread fs (Dataset.path_join folder_path [name]))
          = Ok rgb
        ∧ Cv2.cvtColor_BGR2RGB
            (Dataset.imread fs (Dataset.path_join folder_path [name0]))
          = Ok rgb0
        ∧ out = (Albu.Compose aug r (rgb, rgb0)).2
        ∧ augmented_pairs fs aug folder_path
            (Albu.Compose aug r (rgb, rgb0)).1 rest more r'
  | _, _ => False
  end.

(** The disk of [demo_fs] with a track [other_0] of two frames, on which
    the third frame of [long_0] and the second frame of [other_0] do not
    decode. *)
Definition damaged_fs : Dataset.filesystem :=
  {| Dataset.listdir := λ path,
       if bool_decide (path = "data/long/0")
       then Ok ["3.png"; "0.png"; "5.png"; "1.png"; "4.png"; "2.png"]
       else if bool_decide (path = "data/other/0") then Ok ["1.png"; "0.png"]
       else if bool_decide (path = "metadata") then Ok ["labels.json"]
       else Raise FileNotFoundError;
     Dataset.imread := λ path,
       if bool_decide (path = "data/long/0/2.png") then None
       else if bool_decide (path = "data/other/0/1.png") then None
       else if String.prefix "data/" path then Some demo_frame else None;
     Dataset.json_load := λ path,
       if bool_decide (path = "metadata/labels.json")
       then Ok [("long.mp4", {| Dataset.is_fake := 1 |});
                ("short.mp4", {| Dataset.is_fake := 0 |})]
       else Raise FileNotFoundError |}.

(* ===================================================================== *)
(** * Part II: properties                                                 *)
(* ===================================================================== *)

(** Run the binds whose first computation is known. *)
Ltac run := cbn [mbind result_bind mret result_ret].

(** ** Facts about the Python runtime *)

Section py_facts.

Lemma length_range n : length (Py.range n) = Z.to_nat n.
Proof. unfold Py.range. by rewrite length_fmap, length_seq. Qed.

Lemma lookup_range n (i : nat) :
  (i < Z.to_nat n)%nat → Py.range n !! i = Some (Z.of_nat i).
Proof.
  intros Hi. unfold Py.range.
  rewrite list_lookup_fmap, lookup_seq_lt by done. done.
Qed.

Lemma elem_of_range n i : i ∈ Py.range n ↔ 0 ≤ i < n.
Proof.
  unfold Py.range. rewrite list_elem_of_fmap. split.
  - intros (k & -> & Hk). apply elem_of_seq in Hk. lia.
  - intros Hi. exists (Z.to_nat i). split; [lia|]. apply elem_of_seq. lia.
Qed.

Lemma range_pos n : 0 < n → ∃ rest, Py.range n = 0 :: rest.
Proof.
  intros Hn. unfold Py.range.
  destruct (Z.to_nat n) as [|k] eqn:Hk; [lia|]. simpl. eauto.
Qed.

(** In range, indexing is a lookup. *)
Lemma index_in_range {A} (l : list A) idx :
  0 ≤ idx < Z.of_nat (length l) →
  ∃ x, Py.index l idx = Ok x ∧ l !! Z.to_nat idx = Some x.
Proof.
  intros Hidx. unfold Py.index.
  destruct (decide (idx < 0)) as [?|_]; [lia|].
  destruct (decide (0 ≤ idx < Z.of_nat (length l))) as [_|?]; [|lia].
  destruct (lookup_lt_is_Some_2 l (Z.to_nat idx)) as [x Hx]; [lia|].
  rewrite Hx. eauto.
Qed.

(** At or beyond the length, indexing raises. *)
Lemma index_beyond {A} (l : list A) idx :
  Z.of_nat (length l) ≤ idx → Py.index l idx = Raise IndexError.
Proof.
  intros Hidx. unfold Py.index.
  destruct (decide (idx < 0)) as [?|_]; [lia|].
  destruct (decide (0 ≤ idx < Z.of_nat (length l))) as [?|_]; [lia|done].
Qed.

(** [mapM] returns exactly when every call returns. *)
Lemma mapM_Ok {A B} (fn : A → result B) l k :
  mapM fn l = Ok k ↔ Forall2 (λ x y, fn x = Ok y) l k.
Proof.
  revert k. induction l as [|x l IH]; intros k; simpl.
  - split; [intros [= <-]; constructor | by inversion 1].
  - split.
    + destruct (fn x) as [y|e] eqn:Hx; simpl; [|done].
      destruct (mapM fn l) as [ys|e] eqn:Hl; simpl; [|done].
      intros [= <-]. constructor; [done|]. by apply IH.
    + inversion 1 as [|? y ? ys Hx Hl]; subst.
      rewrite Hx. simpl. apply IH in Hl. rewrite Hl. done.
Qed.

(** [mapM] raises what the first failing call raises. *)
Lemma mapM_Raise {A B} (fn : A → result B) l1 x l2 k e :
  mapM fn l1 = Ok k → fn x = Raise e → mapM fn (l1 ++ x :: l2) = Raise e.
Proof.
  revert k. induction l1 as [|y l1 IH]; intros k; simpl.
  - intros _ ->. done.
  - destruct (fn y) as [b|e'] eqn:Hy; simpl; [|done].
    destruct (mapM fn l1) as [bs|e'] eqn:Hl; simpl; [|done].
    intros _ Hx. by rewrite (IH bs eq_refl Hx).
Qed.

End py_facts.

(** ** Printing an integer and parsing it back *)

Section int_str.

Local Open Scope string_scope.

Lemma all_digits_string_of_uint d :
  all_digits (NilEmpty.string_of_uint d) = true.
Proof. induction d; simpl; auto. Qed.

Lemma digit_not_space ch : is_digit ch = true → Py.is_space ch = false.
Proof.
  destruct ch as [[|] [|] [|] [|] [|] [|] [|] [|]]; vm_compute; done.
Qed.

Lemma digit_not_underscore ch :
  is_digit ch = true → Ascii.eqb ch "_" = false.
Proof.
  destruct ch as [[|] [|] [|] [|] [|] [|] [|] [|]]; vm_compute; done.
Qed.

Lemma all_digits_cons ch s :
  all_digits (String ch s) = true →
  is_digit ch = true ∧ all_digits s = true.
Proof. cbn [all_digits]. by intros ?%andb_true_iff. Qed.

Lemma rstrip_digits s : all_digits s = true → Py.rstrip s = s.
Proof.
  induction s as [|ch s IH]; [done|].
  intros [Hch Hs]%all_digits_cons. simpl. rewrite (IH Hs).
  destruct s; [|done]. by rewrite digit_not_space.
Qed.

Lemma lstrip_digits s : all_digits s = true → Py.lstrip s = s.
Proof.
  destruct s as [|ch s]; [done|].
  intros [Hch Hs]%all_digits_cons. simpl. by rewrite digit_not_space.
Qed.

Lemma underscores_ok_digits s :
  all_digits s = true → Py.underscores_ok true s = true.
Proof.
  induction s as [|ch s IH]; [done|].
  intros [Hch Hs]%all_digits_cons. simpl.
  rewrite digit_not_underscore by done. auto.
Qed.

Lemma drop_underscores_digits s :
  all_digits s = true → Py.drop_underscores s = s.
Proof.
  induction s as [|ch s IH]; [done|].
  intros [Hch Hs]%all_digits_cons. simpl.
  rewrite digit_not_underscore by done. by rewrite IH.
Qed.

(** A numeral without sign parses to its value. *)
Lemma int_digits_string_of_uint d :
  d ≠ Nil →
  Py.int_digits (NilEmpty.string_of_uint d) = Ok (Z.of_uint d).
Proof.
  intros Hd. unfold Py.int_digits.
  pose proof (all_digits_string_of_uint d) as Hall.
  rewrite drop_underscores_digits by done.
  assert (Py.underscores_ok false (NilEmpty.string_of_uint d) = true) as ->.
  { destruct (NilEmpty.string_of_uint d) as [|ch s] eqn:Hs.
    - by destruct d.
    - apply all_digits_cons in Hall as [Hch Hall]. simpl.
      rewrite digit_not_underscore by done.
      by apply underscores_ok_digits. }
  assert (NilZero.uint_of_string (NilEmpty.string_of_uint d) = Some d) as ->.
  { unfold NilZero.uint_of_string.
    destruct (NilEmpty.string_of_uint d) eqn:Hs.
    - by destruct d.
    - rewrite <- Hs. apply NilEmpty.usu. }
  done.
Qed.

Lemma strip_digits s : all_digits s = true → Py.strip s = s.
Proof.
  intros Hs. unfold Py.strip. by rewrite lstrip_digits, rstrip_digits.
Qed.

Lemma pos_to_uint_not_Nil q : Pos.to_uint q ≠ Nil.
Proof.
  intros Hq. pose proof (DecimalPos.Unsigned.of_to q) as Hof.
  rewrite Hq in Hof. done.
Qed.

Lemma of_uint_pos_to_uint q : Z.of_uint (Pos.to_uint q) = Z.pos q.
Proof.
  unfold Z.of_uint. by rewrite DecimalPos.Unsigned.of_to.
Qed.

(** [int(str(n)) == n] *)
Lemma int_str n : Py.int (Py.str n) = Ok n.
Proof.
  unfold Py.str, Py.int. destruct n as [|q|q]; simpl.
  - done.
  - pose proof (pos_to_uint_not_Nil q) as Hq.
    pose proof (int_digits_string_of_uint _ Hq) as Hparse.
    pose proof (all_digits_string_of_uint (Pos.to_uint q)) as Hall.
    unfold NilZero.string_of_uint.
    destruct (Pos.to_uint q) as [|d|d|d|d|d|d|d|d|d|d] eqn:Hd; [done|..];
      rewrite strip_digits by done;
      simpl NilEmpty.string_of_uint in *; cbv iota beta;
      rewrite Hparse; by rewrite <- Hd, of_uint_pos_to_uint.
  - pose proof (pos_to_uint_not_Nil q) as Hq.
    pose proof (int_digits_string_of_uint _ Hq) as Hparse.
    pose proof (all_digits_string_of_uint (Pos.to_uint q)) as Hall.
    assert (NilZero.string_of_uint (Pos.to_uint q)
            = NilEmpty.string_of_uint (Pos.to_uint q)) as ->.
    { unfold NilZero.string_of_uint. by destruct (Pos.to_uint q). }
    unfold Py.strip. simpl Py.lstrip.
    assert (Py.rstrip (String "-" (NilEmpty.string_of_uint (Pos.to_uint q)))
            = String "-" (NilEmpty.string_of_uint (Pos.to_uint q))) as ->.
    { simpl. rewrite rstrip_digits by done.
      destruct (NilEmpty.string_of_uint (Pos.to_uint q)) eqn:Hs; [|done].
      by destruct (Pos.to_uint q). }
    cbv iota beta. rewrite Hparse. simpl. by rewrite of_uint_pos_to_uint.
Qed.

End int_str.

(** ** Facts about the frame sampler *)

Section sampler_facts.

Import Sampler.

Lemma digit_not_dot ch : is_digit ch = true → Ascii.eqb ch "." = false.
Proof.
  destruct ch as [[|] [|] [|] [|] [|] [|] [|] [|]]; vm_compute; done.
Qed.

Lemma split_digits s t :
  all_digits s = true →
  Py.split "." (s +:+ String "." t) = s :: Py.split "." t.
Proof.
  induction s as [|ch s IH]; [done|].
  intros [Hch Hs]%all_digits_cons.
  change (String ch s +:+ String "." t) with (String ch (s +:+ String "." t)).
  cbn [Py.split]. rewrite digit_not_dot by done. by rewrite IH.
Qed.

Lemma str_cases n :
  ∃ s, all_digits s = true ∧ (Py.str n = s ∨ Py.str n = String "-" s).
Proof.
  unfold Py.str. destruct n as [|q|q]; simpl.
  - exists "0". auto.
  - exists (NilEmpty.string_of_uint (Pos.to_uint q)).
    split; [apply all_digits_string_of_uint|]. left.
    unfold NilZero.string_of_uint. destruct (Pos.to_uint q) eqn:Hq; [|done..].
    by destruct (pos_to_uint_not_Nil q).
  - exists (NilEmpty.string_of_uint (Pos.to_uint q)).
    split; [apply all_digits_string_of_uint|]. right.
    unfold NilZero.string_of_uint. destruct (Pos.to_uint q) eqn:Hq; [|done..].
    by destruct (pos_to_uint_not_Nil q).
Qed.

(** The stem of a printed frame name is the integer printed. *)
Lemma stem_png_name n : stem (png_name n) = Ok n.
Proof.
  unfold stem, png_name.
  destruct (str_cases n) as (s & Hs & [Hn|Hn]).
  - rewrite Hn at 1. rewrite split_digits by done. simpl.
    rewrite <- Hn. apply int_str.
  - rewrite Hn at 1.
    change (String "-" s +:+ ".png") with (String "-" (s +:+ ".png")).
    cbn [Py.split]. replace (Ascii.eqb "-" ".") with false by done.
    rewrite split_digits by done. simpl.
    rewrite <- Hn. apply int_str.
Qed.

Lemma mapM_stem_png_name stems : mapM stem (png_name <$> stems) = Ok stems.
Proof.
  apply mapM_Ok. induction stems; constructor; auto using stem_png_name.
Qed.

Lemma merge_sort_sorted (stems : list Z) :
  Sorted Z.le stems → merge_sort Z.le stems = stems.
Proof.
  intros Hsorted. apply (Sorted_unique Z.le); [|done|].
  - apply (Sorted_merge_sort Z.le).
  - apply merge_sort_Permutation.
Qed.

(** What [sort_files] returns on printed names. *)
Lemma sort_files_png_names stems :
  sort_files (png_name <$> stems) = Ok (png_name <$> merge_sort Z.le stems).
Proof. unfold sort_files. by rewrite mapM_stem_png_name. Qed.

(** A loop that never raises is a map. *)
Lemma mapM_fmap_Ok {A B} (fn : A → result B) (gn : A → B) l :
  Forall (λ x, fn x = Ok (gn x)) l → mapM fn l = Ok (gn <$> l).
Proof.
  intros Hall. apply mapM_Ok. induction Hall; constructor; auto.
Qed.

(** The largest index the sampler computes is inside the list. *)
Lemma sampler_index_bound total groups size i j :
  1 ≤ groups → 0 ≤ size ≤ total → 0 ≤ i < groups → 0 ≤ j < size →
  0 ≤ i * ((total - size) `div` groups) + j < total.
Proof.
  intros Hg Hs Hi Hj.
  set (interval := (total - size) `div` groups).
  assert (0 ≤ interval) by (apply Z.div_pos; lia).
  assert (groups * interval ≤ total - size) by (apply Z.mul_div_le; lia).
  nia.
Qed.

End sampler_facts.

Section sampler_sorted.

Import Sampler.

Lemma StronglySorted_lookup_le (l : list Z) (i j : nat) x y :
  StronglySorted Z.le l → (i < j)%nat →
  l !! i = Some x → l !! j = Some y → x ≤ y.
Proof.
  intros Hsorted. revert i j.
  induction Hsorted as [|a l Hl IH Hall]; intros i j Hij Hi Hj; [done|].
  destruct j as [|j]; [lia|]. destruct i as [|i]; simpl in *.
  - injection Hi as <-. rewrite Forall_forall in Hall.
    apply Hall. by eapply list_elem_of_lookup_2.
  - eapply (IH i j); [lia|done..].
Qed.

(** On printed names in any order, with enough frames and at least one
    group, the sampler returns the names at the computed positions of the
    sorted stems. *)
Lemma get_frame_names_png_names stems groups size :
  1 ≤ groups → 0 ≤ size ≤ Z.of_nat (length stems) →
  get_frame_names {| num_groups := groups; group_size := size |}
                  (png_name <$> stems)
  = Ok ((λ i, (λ j,
          png_name (nth (Z.to_nat
            (i * ((Z.of_nat (length stems) - size) `div` groups) + j))
            (merge_sort Z.le stems) 0)) <$> Py.range size)
        <$> Py.range groups).
Proof.
  intros Hg Hs. unfold get_frame_names.
  rewrite sort_files_png_names.
  cbn [mbind result_bind mret result_ret num_groups group_size].
  assert (length (merge_sort Z.le stems) = length stems) as Hlen.
  { apply Permutation_length, merge_sort_Permutation. }
  rewrite length_fmap, Hlen.
  unfold Py.floordiv. destruct (decide (groups = 0)) as [?|_]; [lia|].
  run.
  apply mapM_fmap_Ok, Forall_forall. intros i Hi%elem_of_range.
  apply mapM_fmap_Ok, Forall_forall. intros j Hj%elem_of_range.
  pose proof (sampler_index_bound _ _ _ _ _ Hg Hs Hi Hj) as Hidx.
  destruct (index_in_range (png_name <$> merge_sort Z.le stems)
              (i * ((Z.of_nat (length stems) - size) `div` groups) + j))
    as (name & -> & Hname); [by rewrite length_fmap, Hlen|].
  rewrite list_lookup_fmap in Hname.
  destruct (merge_sort Z.le stems !! _) as [z|] eqn:Hz; [|done].
  injection Hname as <-. f_equal. f_equal.
  symmetry. by apply nth_lookup_Some with (d := 0) in Hz.
Qed.

(** The same on an ascending list, which sorting leaves as it is. *)
Lemma get_frame_names_sorted stems groups size :
  Sorted Z.le stems → 1 ≤ groups → 0 ≤ size ≤ Z.of_nat (length stems) →
  get_frame_names {| num_groups := groups; group_size := size |}
                  (png_name <$> stems)
  = Ok ((λ i, (λ j,
          png_name (nth (Z.to_nat
            (i * ((Z.of_nat (length stems) - size) `div` groups) + j))
            stems 0)) <$> Py.range size) <$> Py.range groups).
Proof.
  intros Hsorted Hg Hs. rewrite get_frame_names_png_names by done.
  by rewrite merge_sort_sorted.
Qed.

(** All that the sampler keeps of a listing is its stems. *)
Lemma sort_files_of_stems listing stems :
  mapM stem listing = Ok stems →
  sort_files listing = Ok (png_name <$> merge_sort Z.le stems).
Proof. intros Hstems. unfold sort_files. by rewrite Hstems. Qed.

Lemma get_frame_names_of_stems sampling listing stems :
  mapM stem listing = Ok stems →
  get_frame_names sampling listing
  = get_frame_names sampling (png_name <$> stems).
Proof.
  intros Hstems. unfold get_frame_names.
  by rewrite (sort_files_of_stems _ _ Hstems), sort_files_png_names.
Qed.

Lemma mapM_length {A B} (fn : A → result B) l k :
  mapM fn l = Ok k → length k = length l.
Proof. intros Hk%mapM_Ok. symmetry. by eapply Forall2_length. Qed.

End sampler_sorted.

(** ** The frame sampler on a track in the storage layout *)

(** Claim C2.  Take a listing of frame names with pairwise distinct
    integer stems, at least [group_size] of them, and at least one group.
    Then [get_frame_names] returns exactly [num_groups] groups; each
    group has exactly [group_size] names; the name at group [i], position
    [j], is [str(n) + '.png'] for the stem [n] at position
    [i * interval + j] of the stems in ascending order, with
    [interval = (total_frames - group_size) // num_groups]; and the stems
    strictly increase inside a group.  On the storage layout, where every
    name is [str(n) + '.png'], every returned name is a member of the
    listing, and when the listing is ascending the name at group [i],
    position [j], is the list element at position [i * interval + j]. *)
Theorem sampler_returns_groups (listing : list string) (stems : list Z)
    (groups size : Z) :
  mapM Sampler.stem listing = Ok stems →
  NoDup stems →
  0 ≤ size ≤ Z.of_nat (length listing) →
  1 ≤ groups →
  let interval := (Z.of_nat (length listing) - size) `div` groups in
  ∃ frame_names ascending,
    Sampler.get_frame_names
      {| Sampler.num_groups := groups; Sampler.group_size := size |}
      listing = Ok frame_names
    ∧ Sorted Z.le ascending ∧ ascending ≡ₚ stems
    ∧ length frame_names = Z.to_nat groups
    ∧ ∀ (i : nat) group, frame_names !! i = Some group →
        length group = Z.to_nat size
        ∧ (∀ (j : nat) name, group !! j = Some name →
             let pos := Z.to_nat (Z.of_nat i * interval + Z.of_nat j) in
             (∃ n, ascending !! pos = Some n
                   ∧ name = Py.str n +:+ ".png"
                   ∧ Sampler.stem name = Ok n)
             ∧ (listing = Sampler.png_name <$> stems →
                  name ∈ listing
                  ∧ (Sorted Z.le stems → listing !! pos = Some name)))
        ∧ (∀ (j1 j2 : nat) name1 name2,
             (j1 < j2)%nat →
             group !! j1 = Some name1 → group !! j2 = Some name2 →
             ∃ s1 s2, Sampler.stem name1 = Ok s1
                      ∧ Sampler.stem name2 = Ok s2 ∧ s1 < s2).
Proof.
  intros Hstems Hnodup Hs Hg interval.
  pose proof (mapM_length _ _ _ Hstems) as Hlen.
  set (ascending := merge_sort Z.le stems).
  assert (ascending ≡ₚ stems) as Hperm by apply merge_sort_Permutation.
  assert (Sorted Z.le ascending) as Hsorted by apply (Sorted_merge_sort Z.le).
  assert (NoDup ascending) as Hnodup' by (by rewrite Hperm).
  assert (length ascending = length listing) as Hlen'.
  { by rewrite (Permutation_length Hperm). }
  eexists _, ascending.
  split.
  { rewrite (get_frame_names_of_stems _ _ _ Hstems).
    apply get_frame_names_png_names; [done|lia]. }
  rewrite Hlen. fold interval ascending.
  do 2 (split; [done|]).
  split; [by rewrite length_fmap, length_range|].
  intros i group Hgroup.
  rewrite list_lookup_fmap in Hgroup.
  destruct (Py.range groups !! i) as [i'|] eqn:Hi; [|done].
  injection Hgroup as <-.
  assert (i < Z.to_nat groups)%nat as Hilt.
  { apply lookup_lt_Some in Hi. by rewrite length_range in Hi. }
  rewrite lookup_range in Hi by done. injection Hi as <-.
  (* every position of the group is a position of the ascending stems *)
  assert (∀ (j : nat) name,
    ((λ j0, Sampler.png_name
        (nth (Z.to_nat (Z.of_nat i * interval + j0)) ascending 0))
       <$> Py.range size) !! j = Some name →
    (j < Z.to_nat size)%nat
    ∧ ∃ z, ascending !! Z.to_nat (Z.of_nat i * interval + Z.of_nat j) = Some z
           ∧ name = Sampler.png_name z) as Hpos.
  { intros j name Hj. rewrite list_lookup_fmap in Hj.
    destruct (Py.range size !! j) as [j'|] eqn:Hj'; [|done].
    injection Hj as <-.
    assert (j < Z.to_nat size)%nat as Hjlt.
    { apply lookup_lt_Some in Hj'. by rewrite length_range in Hj'. }
    rewrite lookup_range in Hj' by done. injection Hj' as <-.
    split; [done|].
    assert (0 ≤ Z.of_nat i * interval + Z.of_nat j
            < Z.of_nat (length listing))
      as Hidx by (apply sampler_index_bound; lia).
    destruct (lookup_lt_is_Some_2 ascending
                (Z.to_nat (Z.of_nat i * interval + Z.of_nat j)))
      as [z Hz]; [lia|].
    exists z. split; [done|].
    by rewrite (nth_lookup_Some _ _ 0 _ Hz). }
  split; [by rewrite length_fmap, length_range|]. split.
  - intros j name Hj pos. destruct (Hpos j name Hj) as (_ & z & Hz & ->).
    fold pos in Hz. split.
    + exists z. split; [done|]. split; [done|]. apply stem_png_name.
    + intros Hlayout. split.
      * rewrite Hlayout. apply list_elem_of_fmap. exists z. split; [done|].
        rewrite <- Hperm. by eapply list_elem_of_lookup_2.
      * intros Hlisted. rewrite Hlayout, list_lookup_fmap.
        unfold ascending in Hz. rewrite merge_sort_sorted in Hz by done.
        by rewrite Hz.
  - intros j1 j2 name1 name2 Hlt Hj1 Hj2.
    destruct (Hpos j1 name1 Hj1) as (Hj1lt & z1 & Hz1 & ->).
    destruct (Hpos j2 name2 Hj2) as (Hj2lt & z2 & Hz2 & ->).
    exists z1, z2. rewrite !stem_png_name. do 2 (split; [done|]).
    assert (0 ≤ interval) by (apply Z.div_pos; lia).
    assert (Z.to_nat (Z.of_nat i * interval + Z.of_nat j1)
            < Z.to_nat (Z.of_nat i * interval + Z.of_nat j2))%nat
      as Hplt by nia.
    assert (z1 ≤ z2) as Hle.
    { eapply StronglySorted_lookup_le; [|exact Hplt|done..].
      by apply (Sorted_StronglySorted Z.le). }
    destruct (decide (z1 = z2)) as [->|?]; [|lia].
    exfalso.
    assert (Z.to_nat (Z.of_nat i * interval + Z.of_nat j1)
            = Z.to_nat (Z.of_nat i * interval + Z.of_nat j2)) as Heq.
    { by eapply (NoDup_lookup _ _ _ _ Hnodup'). }
    lia.
Qed.

(** The scenario of the specification: 30 frames, two groups of two. *)
Example sampler_thirty_frames :
  Sampler.get_frame_names
    {| Sampler.num_groups := 2; Sampler.group_size := 2 |}
    (Sampler.png_name <$> Py.range 30)
  = Ok [["0.png"; "1.png"]; ["14.png"; "15.png"]].
Proof. vm_compute. reflexivity. Qed.

(** The theorem on the thirty frames of that scenario: the first name of
    the second group is the list element at position 14. *)
Lemma sampler_returns_groups_witness :
  ∃ frame_names,
    Sampler.get_frame_names
      {| Sampler.num_groups := 2; Sampler.group_size := 2 |}
      (Sampler.png_name <$> Py.range 30) = Ok frame_names
    ∧ length frame_names = 2%nat
    ∧ ∀ group name,
        frame_names !! 1%nat = Some group → group !! 0%nat = Some name →
        (Sampler.png_name <$> Py.range 30) !! 14%nat = Some name
        ∧ name ∈ Sampler.png_name <$> Py.range 30.
Proof.
  destruct (sampler_returns_groups (Sampler.png_name <$> Py.range 30)
              (Py.range 30) 2 2)
    as (frame_names & ascending & Hrun & _ & _ & Hlen & Hgroups).
  - vm_compute. reflexivity.
  - apply (bool_decide_unpack _). vm_compute. reflexivity.
  - vm_compute. split; discriminate.
  - lia.
  - exists frame_names. split; [exact Hrun|]. split; [exact Hlen|].
    intros group name Hgroup Hname.
    destruct (Hgroups 1%nat group Hgroup) as (_ & Hnames & _).
    destruct (Hnames 0%nat name Hname) as (_ & Hlayout).
    destruct (Hlayout eq_refl) as [Hmember Hlisted].
    split; [|exact Hmember].
    apply Hlisted. apply (bool_decide_unpack _). vm_compute. reflexivity.
Defined.

(** Outside the storage layout the names are printed anew: on the
    zero-padded listing [000.png], [001.png] the sampler returns the
    names [0.png] and [1.png], which are not names of the listing. *)
Lemma sampler_padded_names_not_members :
  let listing := ["000.png"; "001.png"] in
  let sampling := {| Sampler.num_groups := 1; Sampler.group_size := 2 |} in
  Sampler.get_frame_names sampling listing = Ok [["0.png"; "1.png"]]
  ∧ ¬ (∀ frame_names group name,
         Sampler.get_frame_names sampling listing = Ok frame_names →
         group ∈ frame_names → name ∈ group → name ∈ listing).
Proof.
  split; [vm_compute; reflexivity|].
  intros Hmem.
  specialize (Hmem [["0.png"; "1.png"]] ["0.png"; "1.png"] "0.png").
  assert ("0.png" ∈ ["000.png"; "001.png"]) as Hin.
  { apply Hmem; [vm_compute; reflexivity | by left | by left]. }
  apply elem_of_cons in Hin as [?|Hin]; [done|].
  apply elem_of_cons in Hin as [?|Hin]; [done|].
  by apply elem_of_nil in Hin.
Qed.

(** ** The frame sampler with no group to pick *)

(** Claim C4, as the code has it.  With [num_groups = 0] the sampler
    divides by zero before its loops: once the names are sorted it raises
    ZeroDivisionError (a name without an integer stem raises from
    [sort_files] first), and so it never returns the empty sequence. *)
Theorem sampler_zero_groups_raises (listing : list string) (size : Z) :
  let sampling := {| Sampler.num_groups := 0; Sampler.group_size := size |} in
  Sampler.get_frame_names sampling listing
    = (Sampler.sort_files listing ≫= λ _, Raise ZeroDivisionError)
  ∧ Sampler.get_frame_names sampling listing ≠ Ok [].
Proof.
  intros sampling.
  assert (Sampler.get_frame_names sampling listing
          = (Sampler.sort_files listing ≫= λ _, Raise ZeroDivisionError))
    as Heq.
  { unfold Sampler.get_frame_names.
    destruct (Sampler.sort_files listing) as [file_names|e]; done. }
  split; [done|]. rewrite Heq.
  destruct (Sampler.sort_files listing); done.
Qed.

(** Claim C4 as it is worded fails: two frames, no group. *)
Lemma sampler_zero_groups_division_error :
  Sampler.get_frame_names
    {| Sampler.num_groups := 0; Sampler.group_size := 2 |}
    ["0.png"; "1.png"]
  = Raise ZeroDivisionError.
Proof. vm_compute. reflexivity. Qed.

(** ** Facts about splitting a string *)

Section split_facts.

Lemma split_nonempty sep s : Py.split sep s ≠ [].
Proof.
  destruct s as [|ch s]; [done|]. cbn [Py.split].
  destruct (Ascii.eqb ch sep); [done|]. by destruct (Py.split sep s).
Qed.

(** Splitting around one separator: the pieces before it, then the
    pieces after it. *)
Lemma split_app_sep sep s1 s2 :
  Py.split sep (s1 +:+ String sep s2) = Py.split sep s1 ++ Py.split sep s2.
Proof.
  induction s1 as [|ch s1 IH].
  - change (EmptyString +:+ String sep s2) with (String sep s2).
    cbn [Py.split]. by rewrite Ascii.eqb_refl.
  - change (String ch s1 +:+ String sep s2)
      with (String ch (s1 +:+ String sep s2)).
    cbn [Py.split]. rewrite IH. destruct (Ascii.eqb ch sep); [done|].
    pose proof (split_nonempty sep s1).
    by destruct (Py.split sep s1).
Qed.

(** A string without the separator is its only piece. *)
Lemma split_no_sep sep s : count_char sep s = 0%nat → Py.split sep s = [s].
Proof.
  induction s as [|ch s IH]; [done|]. cbn [count_char Py.split].
  destruct (Ascii.eqb ch sep); [done|]. cbn [Nat.add].
  intros Hs. by rewrite IH.
Qed.

End split_facts.

(** ** Facts about the label resolver *)

Section label_facts.

Import Dataset.

Lemma add_records_cons labels record file_data :
  add_records labels (record :: file_data)
  = add_records (<[record_key record.1 := float_of_int (is_fake record.2)]>
                   labels) file_data.
Proof. done. Qed.

Lemma add_records_app labels records1 records2 :
  add_records labels (records1 ++ records2)
  = add_records (add_records labels records1) records2.
Proof. apply foldl_app. Qed.

(** Records with other keys leave an entry alone. *)
Lemma add_records_other labels file_data id :
  (∀ record, record ∈ file_data → record_key record.1 ≠ id) →
  add_records labels file_data !! id = labels !! id.
Proof.
  revert labels. induction file_data as [|record file_data IH];
    intros labels Hother; [done|].
  rewrite add_records_cons, IH.
  - apply lookup_insert_ne, Hother. by left.
  - intros record' Hin. apply Hother. by right.
Qed.

(** An entry is either an old one or written by a record of the file. *)
Lemma add_records_origin labels file_data id v :
  add_records labels file_data !! id = Some v →
  labels !! id = Some v
  ∨ ∃ record, record ∈ file_data ∧ id = record_key record.1
              ∧ v = float_of_int (is_fake record.2).
Proof.
  revert labels. induction file_data as [|record file_data IH];
    intros labels Hv; [by left|].
  rewrite add_records_cons in Hv. apply IH in Hv as [Hv|(r & Hr & ? & ?)].
  - destruct (decide (record_key record.1 = id)) as [<-|Hne].
    + rewrite lookup_insert_eq in Hv. injection Hv as <-.
      right. exists record. split; [by left|done].
    + rewrite lookup_insert_ne in Hv by done. by left.
  - right. exists r. split; [by right|done].
Qed.

(** All the files, as one fold. *)
Lemma get_labels_fold (fs : filesystem) labels_path json_files files :
  listdir fs labels_path = Ok json_files →
  Forall2 (λ json_file file_data,
             json_load fs (path_join labels_path [json_file]) = Ok file_data)
          json_files files →
  get_labels fs labels_path = Ok (foldl add_records ∅ files).
Proof.
  intros Hdir Hload. unfold get_labels. rewrite Hdir. clear Hdir.
  run. generalize (∅ : gmap string Q).
  induction Hload as [|json_file file_data json_files files Hfile _ IH];
    intros labels; [done|].
  cbn [foldM foldl]. rewrite Hfile. run.
  apply IH.
Qed.

Lemma fold_records_other labels files id :
  (∀ file_data record,
     file_data ∈ files → record ∈ file_data → record_key record.1 ≠ id) →
  foldl add_records labels files !! id = labels !! id.
Proof.
  revert labels. induction files as [|file_data files IH];
    intros labels Hother; [done|].
  cbn [foldl]. rewrite IH.
  - apply add_records_other. intros record Hin. eapply Hother; [by left|done].
  - intros f record Hf Hin. eapply Hother; [by right|done].
Qed.

Lemma fold_records_origin labels files id v :
  foldl add_records labels files !! id = Some v →
  labels !! id = Some v
  ∨ ∃ file_data record, file_data ∈ files ∧ record ∈ file_data
      ∧ id = record_key record.1 ∧ v = float_of_int (is_fake record.2).
Proof.
  revert labels. induction files as [|file_data files IH];
    intros labels Hv; [by left|].
  cbn [foldl] in Hv. apply IH in Hv as [Hv|(f & r & Hf & ?)].
  - apply add_records_origin in Hv as [Hv|(r & Hr & ?)]; [by left|].
    right. exists file_data, r. split; [by left|done].
  - right. exists f, r. split; [by right|done].
Qed.

(** A key that a file writes holds, after the file, the value of one of
    its records. *)
Lemma add_records_written labels file_data id :
  Exists (λ record, record_key record.1 = id) file_data →
  ∃ record, record ∈ file_data ∧ record_key record.1 = id
    ∧ add_records labels file_data !! id
      = Some (float_of_int (is_fake record.2)).
Proof.
  revert labels. induction file_data as [|record file_data IH];
    intros labels Hex; [by apply Exists_nil in Hex|].
  rewrite add_records_cons.
  destruct (decide (Exists (λ record, record_key record.1 = id) file_data))
    as [Hlater|Hlast].
  - destruct (IH (<[record_key record.1:=float_of_int (is_fake record.2)]>
                    labels) Hlater) as (r & Hr & Hkey & Hv).
    exists r. split; [by right|done].
  - apply Exists_cons in Hex as [Hkey|?]; [|done].
    exists record. split; [by left|]. split; [done|].
    rewrite add_records_other.
    + by rewrite <- Hkey, lookup_insert_eq.
    + intros r Hr Hr'. apply Hlast, Exists_exists. eauto.
Qed.

Lemma fold_records_written labels files id :
  written files id →
  ∃ file_data record, file_data ∈ files ∧ record ∈ file_data
    ∧ record_key record.1 = id
    ∧ foldl add_records labels files !! id
      = Some (float_of_int (is_fake record.2)).
Proof.
  revert labels. induction files as [|file_data files IH];
    intros labels (f & r & Hf & Hr & Hkey); [by apply elem_of_nil in Hf|].
  cbn [foldl].
  destruct (decide (Exists (λ file_data,
              Exists (λ record, record_key record.1 = id) file_data) files))
    as [Hlater|Hlast].
  - apply Exists_exists in Hlater as (f' & Hf' & (r' & Hr' & Hkey')%Exists_exists).
    destruct (IH (add_records labels file_data)) as (f2 & r2 & Hf2 & Hrest).
    { by exists f', r'. }
    exists f2, r2. split; [by right|done].
  - apply elem_of_cons in Hf as [->|Hf].
    + destruct (add_records_written labels file_data id)
        as (r1 & Hr1 & Hkey1 & Hv1).
      { apply Exists_exists. eauto. }
      exists file_data, r1. split; [by left|]. split; [done|]. split; [done|].
      rewrite fold_records_other; [done|].
      intros f' r' Hf' Hr' Hkey'. apply Hlast, Exists_exists.
      exists f'. split; [done|]. apply Exists_exists. eauto.
    + exfalso. apply Hlast, Exists_exists.
      exists f. split; [done|]. apply Exists_exists. eauto.
Qed.

(** The key of a record name is its part before the first dot, and
    nothing else is. *)
Lemma record_key_before_first_dot name :
  before_first_dot name (record_key name).
Proof.
  unfold record_key, before_first_dot.
  induction name as [|ch name IH]; [by split; [|left]|].
  cbn [Py.split]. destruct (Ascii.eqb ch ".") eqn:Hch.
  - apply Ascii.eqb_eq in Hch as ->. split; [done|]. right. by exists name.
  - pose proof (split_nonempty "." name) as Hne.
    destruct (Py.split "." name) as [|piece pieces]; [done|].
    cbn [hd] in *. destruct IH as [Hcount Hname].
    split; [cbn [count_char]; by rewrite Hch|].
    destruct Hname as [->|[rest ->]]; [by left|]. right. by exists rest.
Qed.

Lemma before_first_dot_record_key name id :
  before_first_dot name id → record_key name = id.
Proof.
  intros [Hcount [->|[rest ->]]]; unfold record_key.
  - by rewrite split_no_sep.
  - by rewrite split_app_sep, split_no_sep.
Qed.

End label_facts.

(** ** The label resolver *)

(** Claim C9.  When the directory lists [json_files] and each of them
    parses to its records, [get_labels] returns a mapping in which
    - every entry maps the part before the first dot of some record name
      to the number [is_fake] of that record, as a float;
    - the part before the first dot of every record name is a key;
    - among the records whose names have one part before the first dot,
      the one that comes last in iteration order (later file first, then
      later record in the file) decides the entry;
    - every value is 0.0 or 1.0 when every [is_fake] is 0 or 1. *)
Theorem label_resolver_last_write_wins (fs : Dataset.filesystem)
    (labels_path : string) (json_files : list string)
    (files : list (list (string * Dataset.details))) :
  Dataset.listdir fs labels_path = Ok json_files →
  Forall2 (λ json_file file_data,
             Dataset.json_load fs (Dataset.path_join labels_path [json_file])
             = Ok file_data)
          json_files files →
  ∃ labels,
    Dataset.get_labels fs labels_path = Ok labels
    ∧ (∀ id v, labels !! id = Some v →
         ∃ file_data record,
           file_data ∈ files ∧ record ∈ file_data
           ∧ before_first_dot record.1 id
           ∧ v = (Dataset.is_fake record.2 # 1)%Q)
    ∧ (∀ file_data record id,
         file_data ∈ files → record ∈ file_data →
         before_first_dot record.1 id → is_Some (labels !! id))
    ∧ (∀ earlier before name d after later id,
         files = earlier ++ (before ++ (name, d) :: after) :: later →
         before_first_dot name id →
         (∀ record, record ∈ after → ¬ before_first_dot record.1 id) →
         (∀ file_data record, file_data ∈ later → record ∈ file_data →
            ¬ before_first_dot record.1 id) →
         labels !! id = Some (Dataset.is_fake d # 1)%Q)
    ∧ ((∀ file_data record, file_data ∈ files → record ∈ file_data →
          Dataset.is_fake record.2 = 0 ∨ Dataset.is_fake record.2 = 1) →
       ∀ id v, labels !! id = Some v → v = 0%Q ∨ v = 1%Q).
Proof.
  intros Hdir Hload. eexists. split; [by eapply get_labels_fold|].
  assert (∀ id v, foldl Dataset.add_records ∅ files !! id = Some v →
    ∃ file_data record,
      file_data ∈ files ∧ record ∈ file_data
      ∧ before_first_dot record.1 id
      ∧ v = (Dataset.is_fake record.2 # 1)%Q) as Horigin.
  { intros id v Hv. apply fold_records_origin in Hv as [Hv|Hv].
    - by rewrite lookup_empty in Hv.
    - destruct Hv as (file_data & record & Hfile & Hrecord & -> & ->).
      exists file_data, record. do 2 (split; [done|]).
      split; [apply record_key_before_first_dot | done]. }
  assert (∀ name id, ¬ before_first_dot name id →
            Dataset.record_key name ≠ id) as Hother.
  { intros name id Hnot <-. apply Hnot, record_key_before_first_dot. }
  split; [done|]. split; [|split].
  - intros file_data record id Hfile Hrecord Hkey%before_first_dot_record_key.
    destruct (fold_records_written ∅ files id)
      as (file_data' & record' & _ & _ & _ & ->); [|done].
    by exists file_data, record.
  - intros earlier before name d after later id -> Hkey Hafter Hlater.
    apply before_first_dot_record_key in Hkey as <-.
    rewrite foldl_app. cbn [foldl].
    rewrite fold_records_other by (intros ????; by eapply Hother, Hlater).
    rewrite add_records_app, add_records_cons.
    rewrite add_records_other by (intros ??; by eapply Hother, Hafter).
    cbn [fst snd]. apply lookup_insert_eq.
  - intros Hbits id v Hv.
    destruct (Horigin id v Hv) as (file_data & record & Hf & Hr & _ & ->).
    destruct (Hbits file_data record Hf Hr) as [-> | ->]; [by left|by right].
Qed.

(** The scenario of the specification: with the one file
    [{"abc.mp4": {"is_fake": 1}}], the key ["abc"] resolves to 1.0. *)
Example label_store_scenario :
  (Dataset.get_labels label_store_example "metadata"
     ≫= λ labels, Py.getitem labels "abc") = Ok 1%Q.
Proof. vm_compute. reflexivity. Qed.

(** A collision: [abc.mp4] is genuine in the first file and [abc.avi] is
    manipulated in the second; the second file decides, and [abc]
    resolves to 1.0. *)
Lemma label_resolver_last_write_wins_witness :
  ∃ labels,
    Dataset.get_labels colliding_store "metadata" = Ok labels
    ∧ labels !! "abc" = Some 1%Q.
Proof.
  destruct (label_resolver_last_write_wins colliding_store "metadata"
              ["part0.json"; "part1.json"]
              [[("abc.mp4", {| Dataset.is_fake := 0 |});
                ("xyz.mp4", {| Dataset.is_fake := 1 |})];
               [("abc.avi", {| Dataset.is_fake := 1 |});
                ("def", {| Dataset.is_fake := 0 |})]])
    as (labels & Hrun & _ & _ & Hlast & _).
  - reflexivity.
  - repeat (constructor; [reflexivity|]). constructor.
  - exists labels. split; [exact Hrun|].
    apply (Hlast [[("abc.mp4", {| Dataset.is_fake := 0 |});
                   ("xyz.mp4", {| Dataset.is_fake := 1 |})]]
                 [] "abc.avi" {| Dataset.is_fake := 1 |}
                 [("def", {| Dataset.is_fake := 0 |})] [] "abc").
    + reflexivity.
    + split; [reflexivity|]. right. by exists "avi".
    + intros record Hin Hkey.
      apply elem_of_cons in Hin as [->|Hin]; [|by apply elem_of_nil in Hin].
      apply before_first_dot_record_key in Hkey. discriminate Hkey.
    + intros file_data record Hin. by apply elem_of_nil in Hin.
Defined.

(** ** Facts about the pair augmentor *)

Section augmentor_facts.

Import Albu Dataset.

Variable resample : nat → image → nat → nat → list nat → Z.

Lemma round_half_even_bounds a b c :
  0 ≤ a ≤ b → 0 < b → 0 ≤ c → 0 ≤ round_half_even (a * c) b ≤ c.
Proof.
  intros Ha Hb Hc. unfold round_half_even.
  pose proof (Z.div_mod (a * c) b ltac:(lia)) as Hdm.
  pose proof (Z.mod_pos_bound (a * c) b Hb) as Hmod.
  assert (0 ≤ (a * c) `div` b) by (apply Z.div_pos; nia).
  assert ((a * c) `div` b ≤ c).
  { apply Z.div_le_upper_bound; nia. }
  destruct (decide (2 * ((a * c) `mod` b) < b)); [lia|].
  assert ((a * c) `div` b < c) by nia.
  destruct (decide (b < 2 * ((a * c) `mod` b))); [lia|].
  destruct (Z.even ((a * c) `div` b)); lia.
Qed.

(** The fitted size is inside the square, for a non-empty image. *)
Lemma fitted_size_le (size h w : nat) :
  (1 ≤ h)%nat → (1 ≤ w)%nat → (1 ≤ size)%nat →
  ((fitted_size size h w).1 ≤ size)%nat ∧ ((fitted_size size h w).2 ≤ size)%nat.
Proof.
  intros Hh Hw Hs. unfold fitted_size.
  destruct (decide (h `max` w = size)%nat) as [<-|_]; cbn [fst snd]; [lia|].
  split.
  - pose proof (round_half_even_bounds (Z.of_nat h)
      (Z.of_nat (h `max` w)) (Z.of_nat size)). lia.
  - pose proof (round_half_even_bounds (Z.of_nat w)
      (Z.of_nat (h `max` w)) (Z.of_nat size)). lia.
Qed.

(** The three stages of the inference profile, spelled out: nothing is
    drawn, and the padding computed on ['image'] is used for both. *)
Lemma inference_aug_outputs size r img img0 :
  (Compose (inference_aug resample size) r (img, img0)).2
  = let lms := LongestMaxSize resample size 1 true in
    let pad := PadIfNeeded size size BORDER_CONSTANT [0; 0; 0] true in
    let rsz := Resize resample size size 1 true in
    let ps := (get_params pad r (apply lms () img)).1 in
    (apply rsz () (apply pad ps (apply lms () img)),
     apply rsz () (apply pad ps (apply lms () img0))).
Proof. reflexivity. Qed.

Lemma shape_resize (img : image) h w c h' w' interpolation :
  shape img = [h; w; c] →
  shape (resize resample img h' w' interpolation) = [h'; w'; c].
Proof.
  intros Himg. unfold resize, height, width. rewrite Himg. cbn [nth].
  destruct (decide (h = h' ∧ w = w')) as [[-> ->]|_]; [done|].
  done.
Qed.

Lemma resize_same (img : image) h w c interpolation :
  shape img = [h; w; c] → resize resample img h w interpolation = img.
Proof.
  intros Himg. unfold resize, height, width. rewrite Himg. cbn [nth].
  destruct (decide (h = h ∧ w = w)) as [_|[]]; done.
Qed.

Lemma shape_fitted size (img : image) h w c :
  shape img = [h; w; c] →
  shape (apply (LongestMaxSize resample size 1 true) () img)
  = [(fitted_size size h w).1; (fitted_size size h w).2; c].
Proof.
  intros Himg. cbn [apply LongestMaxSize].
  rewrite (shape_resize _ h w c) by done.
  unfold height, width. by rewrite Himg.
Qed.

End augmentor_facts.

Section padding_facts.

Import Albu Dataset.

Lemma shape_padded size (x : image) fh fw c top bottom lpad rpad always :
  shape x = [fh; fw; c] →
  shape (apply (PadIfNeeded size size BORDER_CONSTANT [0; 0; 0] always)
               (top, bottom, lpad, rpad) x)
  = [(top + fh + bottom)%nat; (lpad + fw + rpad)%nat; c].
Proof.
  intros Hx. cbn [apply PadIfNeeded shape]. unfold height, width.
  by rewrite Hx.
Qed.

(** Outside the window of the content the padded image is black. *)
Lemma item_padded_border size (x : image) fh fw c top bottom lpad rpad always
    row col k :
  shape x = [fh; fw; c] →
  ¬ ((top ≤ row < top + fh)%nat ∧ (lpad ≤ col < lpad + fw)%nat) →
  item (apply (PadIfNeeded size size BORDER_CONSTANT [0; 0; 0] always)
              (top, bottom, lpad, rpad) x) [row; col; k] = 0.
Proof.
  intros Hx Hout. cbn [apply PadIfNeeded item]. unfold height, width.
  rewrite Hx. cbn [nth].
  case_decide; [done|].
  by destruct k as [|[|[|[|k]]]].
Qed.

(** Inside the window the padded image holds the content. *)
Lemma item_padded_content size (x : image) fh fw c top bottom lpad rpad always
    row col k :
  shape x = [fh; fw; c] →
  (top ≤ row < top + fh)%nat ∧ (lpad ≤ col < lpad + fw)%nat →
  item (apply (PadIfNeeded size size BORDER_CONSTANT [0; 0; 0] always)
              (top, bottom, lpad, rpad) x) [row; col; k]
  = item x [(row - top)%nat; (col - lpad)%nat; k].
Proof.
  intros Hx Hin. cbn [apply PadIfNeeded item]. unfold height, width.
  rewrite Hx. cbn [nth]. by case_decide.
Qed.

(** The padding that [PadIfNeeded] computes on an image inside the
    square fills the square exactly. *)
Lemma pad_params_fill size (x : image) fh fw c always r :
  shape x = [fh; fw; c] → (fh ≤ size)%nat → (fw ≤ size)%nat →
  ∃ bottom rpad,
    (get_params (PadIfNeeded size size BORDER_CONSTANT [0; 0; 0] always) r x).1
    = (((size - fh) / 2)%nat, bottom, ((size - fw) / 2)%nat, rpad)
    ∧ ((size - fh) / 2 + fh + bottom = size)%nat
    ∧ ((size - fw) / 2 + fw + rpad = size)%nat.
Proof.
  intros Hx Hfh Hfw. cbn [get_params PadIfNeeded fst].
  unfold height, width. rewrite Hx. cbn [nth].
  eexists _, _. split; [reflexivity|].
  pose proof (Nat.div_mod_eq (size - fh) 2).
  pose proof (Nat.div_mod_eq (size - fw) 2).
  lia.
Qed.

End padding_facts.

(** ** The inference profile of the pair augmentor *)

(** Claim C7.  For every pair of non-empty images and every positive
    [img_size], whatever the aspect ratios, both outputs of the inference
    profile have shape [(img_size, img_size, channels)], and every sample
    that padding adds is zero, in both images.  The margins are computed
    once, on the fitted first image, and used for both.  The first output
    is its fitted content in the centred window and zero outside.  The
    second image, fitted to its own size, gets the same margins: padded,
    it is its fitted content in its window and zero outside, and the
    second output is the final resize of that padded image, which is the
    padded image itself when both were fitted to one size. *)
Theorem inference_augmentor_shape
    (resample : nat → image → nat → nat → list nat → Z)
    (size : nat) (r : Albu.rng) (img img0 : image)
    (h w c h0 w0 c0 : nat) :
  shape img = [h; w; c] → shape img0 = [h0; w0; c0] →
  (1 ≤ h)%nat → (1 ≤ w)%nat → (1 ≤ h0)%nat → (1 ≤ w0)%nat →
  (1 ≤ size)%nat →
  let out := (Albu.Compose (Dataset.inference_aug resample size) r
                (img, img0)).2 in
  let fit := Albu.fitted_size size h w in
  let fit0 := Albu.fitted_size size h0 w0 in
  let top := ((size - fit.1) / 2)%nat in
  let lpad := ((size - fit.2) / 2)%nat in
  let window (fh fw row col : nat) : Prop :=
    (top ≤ row < top + fh)%nat ∧ (lpad ≤ col < lpad + fw)%nat in
  shape out.1 = [size; size; c]
  ∧ shape out.2 = [size; size; c0]
  ∧ (∀ row col k,
       (¬ window fit.1 fit.2 row col → item out.1 [row; col; k] = 0)
       ∧ (window fit.1 fit.2 row col →
            item out.1 [row; col; k]
            = item (Albu.resize resample img fit.1 fit.2 1)
                   [(row - top)%nat; (col - lpad)%nat; k]))
  ∧ ∃ (bottom rpad : nat) (padded0 : image),
      (top + fit.1 + bottom = size)%nat
      ∧ (lpad + fit.2 + rpad = size)%nat
      ∧ shape padded0
        = [(top + fit0.1 + bottom)%nat; (lpad + fit0.2 + rpad)%nat; c0]
      ∧ (∀ row col k,
           (¬ window fit0.1 fit0.2 row col → item padded0 [row; col; k] = 0)
           ∧ (window fit0.1 fit0.2 row col →
                item padded0 [row; col; k]
                = item (Albu.resize resample img0 fit0.1 fit0.2 1)
                       [(row - top)%nat; (col - lpad)%nat; k]))
      ∧ out.2 = Albu.resize resample padded0 size size 1
      ∧ (fit0 = fit → out.2 = padded0).
Proof.
  intros Himg Himg0 Hh Hw Hh0 Hw0 Hsize out fit fit0 top lpad window.
  subst out. rewrite inference_aug_outputs. cbv zeta. cbn [fst snd].
  pose proof (shape_fitted resample size img h w c Himg) as Hfit.
  pose proof (shape_fitted resample size img0 h0 w0 c0 Himg0) as Hfit0.
  destruct (fitted_size_le size h w Hh Hw Hsize) as [Hfh Hfw].
  fold fit in Hfit, Hfh, Hfw. fold fit0 in Hfit0.
  destruct (pad_params_fill size _ _ _ _ true r Hfit Hfh Hfw)
    as (bottom & rpad & -> & Hrows & Hcols).
  fold top in Hrows. fold lpad in Hcols. fold top lpad.
  set (lms := Albu.LongestMaxSize resample size 1 true) in *.
  set (pad := Albu.PadIfNeeded size size Albu.BORDER_CONSTANT [0; 0; 0] true).
  assert (Albu.apply lms () img = Albu.resize resample img fit.1 fit.2 1)
    as Hlms.
  { cbn [Albu.apply lms Albu.LongestMaxSize]. unfold Albu.height, Albu.width.
    by rewrite Himg. }
  assert (Albu.apply lms () img0 = Albu.resize resample img0 fit0.1 fit0.2 1)
    as Hlms0.
  { cbn [Albu.apply lms Albu.LongestMaxSize]. unfold Albu.height, Albu.width.
    by rewrite Himg0. }
  assert (shape (Albu.apply pad (top, bottom, lpad, rpad)
                   (Albu.apply lms () img)) = [size; size; c]) as Hpadded.
  { unfold pad. rewrite (shape_padded _ _ _ _ _ _ _ _ _ _ Hfit).
    by rewrite Hrows, Hcols. }
  assert (Albu.apply (Albu.Resize resample size size 1 true) ()
            (Albu.apply pad (top, bottom, lpad, rpad) (Albu.apply lms () img))
          = Albu.apply pad (top, bottom, lpad, rpad) (Albu.apply lms () img))
    as Hsame.
  { cbn [Albu.apply Albu.Resize]. by eapply resize_same. }
  assert (shape (Albu.apply pad (top, bottom, lpad, rpad)
                   (Albu.apply lms () img0))
          = [(top + fit0.1 + bottom)%nat; (lpad + fit0.2 + rpad)%nat; c0])
    as Hpadded0.
  { unfold pad. by rewrite (shape_padded _ _ _ _ _ _ _ _ _ _ Hfit0). }
  split; [by rewrite Hsame|]. split.
  { cbn [Albu.apply Albu.Resize]. by eapply shape_resize. }
  split.
  { intros row col k. rewrite Hsame. split.
    - intros Hout. unfold pad. by eapply item_padded_border.
    - intros Hin. unfold pad.
      rewrite (item_padded_content _ _ _ _ _ _ _ _ _ _ _ _ _ Hfit Hin).
      by rewrite Hlms. }
  exists bottom, rpad,
    (Albu.apply pad (top, bottom, lpad, rpad) (Albu.apply lms () img0)).
  do 3 (split; [done|]). split.
  { intros row col k. split.
    - intros Hout. unfold pad. by eapply item_padded_border.
    - intros Hin. unfold pad.
      rewrite (item_padded_content _ _ _ _ _ _ _ _ _ _ _ _ _ Hfit0 Hin).
      by rewrite Hlms0. }
  split; [done|].
  intros Hequal. cbn [Albu.apply Albu.Resize].
  eapply resize_same. rewrite Hpadded0, Hequal. by rewrite Hrows, Hcols.
Qed.

(** Claim C8.  The outputs of the inference profile do not depend on the
    state of the random source: two applications to one pair, from any
    two states, give the same pair of images. *)
Theorem inference_augmentor_deterministic
    (resample : nat → image → nat → nat → list nat → Z)
    (size : nat) (r1 r2 : Albu.rng) (pair : image * image) :
  (Albu.Compose (Dataset.inference_aug resample size) r1 pair).2
  = (Albu.Compose (Dataset.inference_aug resample size) r2 pair).2.
Proof.
  destruct pair as [img img0].
  rewrite (inference_aug_outputs resample size r1 img img0).
  rewrite (inference_aug_outputs resample size r2 img img0).
  (* no stage draws: the padding is computed from the fitted image alone *)
  cbv zeta. cbn [Albu.get_params Albu.PadIfNeeded fst].
  reflexivity.
Qed.

(** A 4000 by 100 frame paired with a 50 by 50 frame, image size 224:
    the first is fitted to 224 by 6 and gets margins of 109 columns; the
    second, fitted to 224 by 224, gets the same margins, which hold
    zeros, and is resized from 224 by 442. *)
Lemma inference_augmentor_shape_witness :
  let out := (Albu.Compose (Dataset.inference_aug nearest 224) quiet
                (wide_frame, small_frame)).2 in
  shape out.1 = [224; 224; 3]%nat ∧ shape out.2 = [224; 224; 3]%nat
  ∧ item out.1 [0; 108; 0]%nat = 0
  ∧ ∃ padded0 : image,
      shape padded0 = [224; 442; 3]%nat
      ∧ item padded0 [0; 108; 0]%nat = 0
      ∧ out.2 = Albu.resize nearest padded0 224 224 1.
Proof.
  destruct (inference_augmentor_shape nearest 224 quiet wide_frame small_frame
              4000 100 3 50 50 3)
    as (H1 & H2 & Hfirst & bottom & rpad & padded0 & Hrows & Hcols & Hshape
        & Hsecond & Hout & _).
  - reflexivity.
  - reflexivity.
  - lia.
  - lia.
  - lia.
  - lia.
  - lia.
  - split; [exact H1|]. split; [exact H2|]. split.
    + apply (Hfirst 0 108 0)%nat. vm_compute. lia.
    + exists padded0. split; [|split; [|exact Hout]].
      * rewrite Hshape. vm_compute in Hrows, Hcols |- *.
        repeat f_equal; lia.
      * apply (Hsecond 0 108 0)%nat. vm_compute. lia.
Defined.

(** The training profile, by contrast, does depend on the draws: with
    draws that let every stage run the frame is mirrored, with draws
    that let none run it is not. *)
Example training_augmentor_depends_on_draws :
  let kernels (name : string) (u : Q) (img : image) idx := item img idx in
  let run r := (Albu.Compose (Dataset.training_aug nearest kernels 2) r
                  (ramp, ramp)).2.1 in
  item (run quiet) [0; 0; 0]%nat = 1 ∧ item (run loud) [0; 0; 0]%nat = 0.
Proof. split; vm_compute; reflexivity. Qed.

(** ** Facts about arrays *)

Section array_facts.

Context {A : Type}.

(** A loop whose calls all return something good returns a list of good
    things, one per call. *)
Lemma mapM_Forall_Ok {B C} (fn : B → result C) (P : C → Prop) l :
  Forall (λ x, ∃ y, fn x = Ok y ∧ P y) l →
  ∃ k, mapM fn l = Ok k ∧ Forall P k ∧ length k = length l.
Proof.
  induction 1 as [|x l (y & Hy & HP) _ (k & Hk & HPk & Hlen)].
  - exists []. by split; [|split; [constructor|]].
  - exists (y :: k). cbn [mapM]. rewrite Hy. run.
    rewrite Hk. run. split; [done|].
    split; [by constructor | by cbn [length]; rewrite Hlen].
Qed.

Lemma stack_shape (arrays : list (ndarray A)) s :
  arrays ≠ [] → Forall (λ a, shape a = s) arrays →
  ∃ t, stack arrays = Ok t ∧ shape t = length arrays :: s.
Proof.
  destruct arrays as [|first others]; [done|]. intros _ Hall.
  apply Forall_cons in Hall as [Hfirst Hothers]. unfold stack.
  assert (forallb (λ a, same_shape (shape a) (shape first)) others = true)
    as ->.
  { induction Hothers as [|a others Ha _ IH]; [done|].
    cbn [forallb]. rewrite IH. unfold same_shape.
    rewrite bool_decide_true by congruence. done. }
  eexists. split; [done|]. cbn [shape]. by rewrite Hfirst.
Qed.

Lemma torch_stack_Ok (tensors : list (ndarray A)) t :
  stack tensors = Ok t → torch_stack tensors = Ok t.
Proof. intros Ht. unfold torch_stack. by rewrite Ht. Qed.

Lemma torch_stack_inv (tensors : list (ndarray A)) t :
  torch_stack tensors = Ok t → stack tensors = Ok t.
Proof. unfold torch_stack. by destruct (stack tensors). Qed.

Lemma torch_stack_shape (tensors : list (ndarray A)) s :
  tensors ≠ [] → Forall (λ a, shape a = s) tensors →
  ∃ t, torch_stack tensors = Ok t ∧ stack tensors = Ok t
       ∧ shape t = length tensors :: s.
Proof.
  intros Hne Hall. destruct (stack_shape tensors s Hne Hall) as (t & Ht & Hs).
  exists t. split; [by apply torch_stack_Ok | done].
Qed.

Lemma iter_shape (a : ndarray A) len rest :
  shape a = len :: rest →
  length (iter a) = len ∧ Forall (λ x, shape x = rest) (iter a).
Proof.
  intros Ha. unfold iter. rewrite Ha.
  split; [by rewrite length_fmap, length_seq|].
  apply Forall_fmap, Forall_forall. done.
Qed.

End array_facts.

Section slices.

Lemma iter_lookup {A} (a : ndarray A) len rest (i : nat) :
  shape a = len :: rest → (i < len)%nat →
  iter a !! i = Some (mk_ndarray rest (λ idx, item a (i :: idx))).
Proof.
  intros Ha Hi. unfold iter. rewrite Ha.
  by rewrite list_lookup_fmap, lookup_seq_lt.
Qed.

Lemma stack_item {A} (arrays : list (ndarray A)) t (i : nat) a idx :
  stack arrays = Ok t → arrays !! i = Some a →
  item t (i :: idx) = item a idx.
Proof.
  unfold stack. destruct arrays as [|first others]; [done|].
  destruct (forallb _ others); [|done].
  intros [= <-] Ha. cbn [item].
  destruct i as [|i]; cbn in Ha |- *.
  - by injection Ha as <-.
  - by rewrite (nth_lookup_Some _ _ first _ Ha).
Qed.

End slices.

(** ** Facts about the augmentation profiles *)

Section profile_facts.

Import Albu Dataset.

Variable resample : nat → image → nat → nat → list nat → Z.
Variable kernels : string → Q → image → list nat → Z.

Lemma Compose_app ts1 ts2 r pair :
  Compose (ts1 ++ ts2) r pair
  = Compose ts2 (Compose ts1 r pair).1 (Compose ts1 r pair).2.
Proof.
  unfold Compose. rewrite foldl_app.
  by destruct (foldl _ (r, pair) ts1).
Qed.

Lemma Compose_cons t ts r pair :
  Compose (t :: ts) r pair
  = Compose ts (call t r pair).1 (call t r pair).2.
Proof.
  unfold Compose. cbn [foldl fst snd]. by destruct (call t r pair).
Qed.

(** Stages that keep the shape, composed, keep the shape. *)
Lemma Compose_keeps_shape ts r a b :
  Forall (λ t, ∀ ps x, shape (apply t ps x) = shape x) ts →
  shape (Compose ts r (a, b)).2.1 = shape a
  ∧ shape (Compose ts r (a, b)).2.2 = shape b.
Proof.
  intros Hall. revert r a b.
  induction Hall as [|t ts Ht _ IH]; intros r a b; [done|].
  rewrite Compose_cons. unfold call. cbn [random fst snd].
  destruct (always_apply t || negb (Qle_bool (p t) (draws r (cursor r)))).
  - destruct (get_params t _ a) as [ps r'] eqn:Hps. cbn [fst snd].
    destruct (IH r' (apply t ps a) (apply t ps b)) as [-> ->].
    by rewrite !Ht.
  - apply IH.
Qed.

Lemma inference_aug_shapes size r a b :
  (1 ≤ size)%nat → decoded a → decoded b →
  shape (Compose (inference_aug resample size) r (a, b)).2.1
    = [size; size; 3%nat]
  ∧ shape (Compose (inference_aug resample size) r (a, b)).2.2
    = [size; size; 3%nat].
Proof.
  intros Hsize (ha & wa & Ha & Hha & Hwa) (hb & wb & Hb & Hhb & Hwb).
  rewrite inference_aug_outputs. cbv zeta. cbn [fst snd].
  pose proof (shape_fitted resample size a ha wa 3 Ha) as Hfit.
  pose proof (shape_fitted resample size b hb wb 3 Hb) as Hfit0.
  destruct (fitted_size_le size ha wa Hha Hwa Hsize) as [Hfh Hfw].
  destruct (pad_params_fill size _ _ _ _ true r Hfit Hfh Hfw)
    as (bottom & rpad & -> & Hrows & Hcols).
  split; cbn [apply Resize]; eapply shape_resize.
  - rewrite (shape_padded _ _ _ _ _ _ _ _ _ _ Hfit). by rewrite Hrows, Hcols.
  - by rewrite (shape_padded _ _ _ _ _ _ _ _ _ _ Hfit0).
Qed.

Lemma inference_aug_contract size :
  (1 ≤ size)%nat → pair_contract (inference_aug resample size) size.
Proof. intros Hsize r a b Ha Hb. by apply inference_aug_shapes. Qed.

Lemma training_aug_contract size :
  (1 ≤ size)%nat → pair_contract (training_aug resample kernels size) size.
Proof.
  intros Hsize r a b Ha Hb out. subst out.
  change (training_aug resample kernels size)
    with ([stochastic_stage (1 # 2) (kernels "ImageCompression")]
          ++ inference_aug resample size
          ++ [stochastic_stage (1 # 10) (kernels "GaussNoise");
              stochastic_stage (1 # 20) (kernels "GaussianBlur");
              stochastic_stage (7 # 10) (kernels "RandomBrightnessContrast");
              stochastic_stage (1 # 5) (kernels "ToGray");
              HorizontalFlip;
              stochastic_stage (1 # 2) (kernels "ShiftScaleRotate")]).
  rewrite !Compose_app.
  set (first := Compose [_] r (a, b)).
  assert (shape first.2.1 = shape a ∧ shape first.2.2 = shape b) as [Ha' Hb'].
  { subst first. apply Compose_keeps_shape. by repeat constructor. }
  destruct first as [r1 [a1 b1]]. cbn [fst snd] in *.
  set (mid := Compose (inference_aug resample size) r1 (a1, b1)).
  assert (shape mid.2.1 = [size; size; 3%nat]
          ∧ shape mid.2.2 = [size; size; 3%nat]) as [Hma Hmb].
  { subst mid. apply inference_aug_shapes; [done|..].
    - destruct Ha as (ha & wa & ? & ?). exists ha, wa. by rewrite Ha'.
    - destruct Hb as (hb & wb & ? & ?). exists hb, wb. by rewrite Hb'. }
  destruct mid as [r2 [a2 b2]]. cbn [fst snd] in *.
  rewrite <- Hma at 1. rewrite <- Hmb at 1.
  apply Compose_keeps_shape. by repeat constructor.
Qed.

End profile_facts.

(** ** Facts about the dataset assembler *)

Section assembler_facts.

Import Sampler Albu Dataset.

Context {scalar : Type}.
Variable to_float : Z → scalar.

Lemma read_frame_decoded fs folder_path name :
  readable fs folder_path name →
  ∃ rgb, read_frame fs folder_path name = Ok rgb ∧ decoded rgb.
Proof.
  intros (frame & Hread & hz & wz & Hshape & Hhz & Hwz).
  unfold read_frame, Cv2.cvtColor_BGR2RGB. rewrite Hread, Hshape.
  eexists. split; [done|]. by exists hz, wz.
Qed.

Lemma read_frames_decoded fs folder_path group :
  Forall (readable fs folder_path) group →
  ∃ volume, mapM (read_frame fs folder_path) group = Ok volume
            ∧ Forall decoded volume ∧ length volume = length group.
Proof.
  intros Hall. apply mapM_Forall_Ok.
  apply (Forall_impl _ _ _ Hall). intros name. apply read_frame_decoded.
Qed.

Lemma index_Forall {A} (P : A → Prop) (l : list A) (i : nat) :
  Forall P l → (i < length l)%nat →
  ∃ x, Py.index l (Z.of_nat i) = Ok x ∧ l !! i = Some x ∧ P x.
Proof.
  intros Hall Hi.
  destruct (index_in_range l (Z.of_nat i)) as (x & Hx & Hlook); [lia|].
  rewrite Nat2Z.id in Hlook. exists x. split; [done|]. split; [done|].
  by eapply Forall_lookup_1.
Qed.

(** With an augmentor that keeps its shape contract, every group of two
    or more readable frames becomes one array of exactly two images. *)
Lemma load_groups_shapes fs aug folder_path size frame_names :
  pair_contract aug size →
  Forall (λ group, (2 ≤ length group)%nat
                   ∧ Forall (readable fs folder_path) group) frame_names →
  ∀ r, ∃ r' item,
    load_groups fs aug folder_path r frame_names = Ok (r', item)
    ∧ length item = length frame_names
    ∧ Forall (λ a, shape a = [2; size; size; 3]%nat) item.
Proof.
  intros Haug Hall.
  induction Hall as [|group rest [Hlen Hgroup] _ IH]; intros r.
  - exists r, []. by split; [|split; [|constructor]].
  - cbn [load_groups].
    destruct (read_frames_decoded fs folder_path group Hgroup)
      as (volume & -> & Hvolume & Hvlen).
    run.
    destruct (index_Forall decoded volume 0 Hvolume)
      as (image & Hi0 & _ & Himage); [lia|].
    destruct (index_Forall decoded volume 1 Hvolume)
      as (image0 & Hi1 & _ & Himage0); [lia|].
    change (Z.of_nat 0) with 0 in Hi0. change (Z.of_nat 1) with 1 in Hi1.
    rewrite Hi0, Hi1. run.
    destruct (Haug r image image0 Himage Himage0) as [Hout Hout0].
    set (transformed := Compose aug r (image, image0)) in *.
    destruct (stack_shape [transformed.2.1; transformed.2.2]
                [size; size; 3]%nat) as (stacked & -> & Hstacked);
      [done | by repeat constructor |].
    run.
    destruct (IH transformed.1) as (r' & item & -> & Hitem & Hshapes).
    cbn [mbind result_bind mret result_ret fst snd].
    exists r', (stacked :: item). split; [done|].
    split; [by cbn [length]; rewrite Hitem | by constructor].
Qed.

(** A group of a single readable frame stops the loop: there is no
    second image to hand to the augmentor. *)
Lemma load_groups_single fs aug folder_path r name rest :
  readable fs folder_path name →
  load_groups fs aug folder_path r ([name] :: rest) = Raise IndexError.
Proof.
  intros (rgb & Hrgb & _)%read_frame_decoded.
  cbn [load_groups mapM]. rewrite Hrgb. done.
Qed.

(** Every frame of a group is read, whatever its position: one that
    does not decode stops the loop, also when it is the third or later. *)
Lemma load_groups_unreadable_frame fs aug folder_path r names name more rest :
  Forall (readable fs folder_path) names →
  imread fs (path_join folder_path [name]) = None →
  load_groups fs aug folder_path r ((names ++ name :: more) :: rest)
  = Raise Cv2Error.
Proof.
  intros Hnames Hname. cbn [load_groups].
  destruct (read_frames_decoded fs folder_path names Hnames)
    as (volume & Hvolume & _ & _).
  rewrite (mapM_Raise _ _ _ _ volume Cv2Error Hvolume); [done|].
  unfold read_frame. by rewrite Hname.
Qed.

(** Frames after the second of a group do not reach the result. *)
Lemma load_groups_take_two fs aug folder_path frame_names :
  Forall (λ group, Forall (readable fs folder_path) group) frame_names →
  ∀ r, load_groups fs aug folder_path r frame_names
       = load_groups fs aug folder_path r (take 2 <$> frame_names).
Proof.
  intros Hall. induction Hall as [|group rest Hgroup _ IH]; intros r; [done|].
  cbn [load_groups fmap list_fmap].
  destruct (read_frames_decoded fs folder_path group Hgroup)
    as (volume & Hvolume & _ & _).
  destruct (read_frames_decoded fs folder_path (take 2 group))
    as (volume2 & Hvolume2 & _ & _); [by apply Forall_take|].
  rewrite Hvolume, Hvolume2. run.
  apply mapM_Ok in Hvolume, Hvolume2.
  assert (volume2 = take 2 volume) as ->.
  { apply (Forall2_take _ _ _ 2) in Hvolume.
    revert Hvolume Hvolume2. generalize (take 2 group) (take 2 volume).
    intros names. revert volume2.
    induction names as [|name names IHn]; intros v2 v;
      inversion 1; inversion 1; subst; [done|].
    f_equal; [congruence | by apply IHn]. }
  assert (∀ i : Z, 0 ≤ i < 2 →
            Py.index (take 2 volume) i = Py.index volume i) as Hindex.
  { intros i Hi. unfold Py.index. rewrite length_take.
    destruct (decide (i < 0)) as [?|_]; [lia|].
    assert (Z.to_nat i < 2)%nat by lia.
    rewrite lookup_take_lt by done.
    destruct (decide (0 ≤ i < Z.of_nat (2 `min` length volume)));
      destruct (decide (0 ≤ i < Z.of_nat (length volume))); try done; lia. }
  rewrite !Hindex by lia.
  destruct (Py.index volume 0) as [image|]; [|done].
  destruct (Py.index volume 1) as [image0|]; [|done].
  run.
  destruct (stack _); [|done]. run.
  by rewrite IH.
Qed.

End assembler_facts.

Section tensor_facts.

Import Dataset.

Context {scalar : Type}.
Variable to_float : Z → scalar.

Lemma ToTensor_shape (frame : ndarray Z) hh ww cc :
  shape frame = [hh; ww; cc] →
  ∃ t, ToTensor to_float frame = Ok t ∧ shape t = [cc; hh; ww].
Proof. intros Hframe. unfold ToTensor. rewrite Hframe. eauto. Qed.

(** [to_tensor] moves the channel axis in front of the two image axes. *)
Lemma to_tensor_shape (sample : ndarray Z) ng nf hh ww cc :
  shape sample = [ng; nf; hh; ww; cc] → (1 ≤ ng)%nat → (1 ≤ nf)%nat →
  ∃ x, to_tensor to_float sample = Ok x ∧ shape x = [ng; nf; cc; hh; ww].
Proof.
  intros Hsample Hng Hnf. unfold to_tensor.
  destruct (iter_shape sample _ _ Hsample) as [Hglen Hgroups].
  destruct (mapM_Forall_Ok
    (λ group, mapM (λ frame, ToTensor to_float frame) (iter group)
              ≫= λ group_tensor, torch_stack group_tensor)
    (λ t, shape t = [nf; cc; hh; ww]) (iter sample))
    as (video_tensor & -> & Hvideo & Hvlen).
  { apply (Forall_impl _ _ _ Hgroups). intros group Hgroup.
    destruct (iter_shape group _ _ Hgroup) as [Hflen Hframes].
    destruct (mapM_Forall_Ok (λ frame, ToTensor to_float frame)
                (λ t, shape t = [cc; hh; ww]) (iter group))
      as (group_tensor & -> & Htensors & Htlen).
    { apply (Forall_impl _ _ _ Hframes). intros frame.
      apply ToTensor_shape. }
    run.
    destruct (torch_stack_shape group_tensor [cc; hh; ww])
      as (t & -> & _ & Ht);
      [by destruct group_tensor; [simpl in *; lia|] | done |].
    exists t. split; [done|]. by rewrite Ht, Htlen, Hflen. }
  run.
  destruct (torch_stack_shape video_tensor [nf; cc; hh; ww])
    as (x & -> & _ & Hx);
    [by destruct video_tensor; [simpl in *; lia|] | done |].
  exists x. split; [done|]. by rewrite Hx, Hvlen, Hglen.
Qed.

End tensor_facts.

(** ** The sampler on a track that is too short *)

Section short_track.

Import Sampler.

Lemma range_split (k : nat) n :
  Z.of_nat k < n → ∃ rest, Py.range n = Py.range (Z.of_nat k) ++ Z.of_nat k :: rest.
Proof.
  intros Hk. unfold Py.range.
  replace (Z.to_nat n) with (k + S (Z.to_nat n - S k))%nat by lia.
  rewrite seq_app, fmap_app, Nat2Z.id. cbn [seq fmap list_fmap]. eauto.
Qed.

(** With fewer frames than the group size and at least one group, the
    first group already indexes past the end of the sorted names. *)
Lemma sampler_short_track listing stems groups size :
  mapM stem listing = Ok stems →
  1 ≤ groups → Z.of_nat (length stems) < size →
  get_frame_names {| num_groups := groups; group_size := size |} listing
  = Raise IndexError.
Proof.
  intros Hstems Hg Hshort. unfold get_frame_names, sort_files.
  rewrite Hstems. cbn [mbind result_bind mret result_ret num_groups group_size].
  assert (length (merge_sort Z.le stems) = length stems) as Hlen.
  { apply Permutation_length, merge_sort_Permutation. }
  rewrite length_fmap, Hlen.
  unfold Py.floordiv. destruct (decide (groups = 0)) as [?|_]; [lia|].
  run.
  destruct (range_pos groups) as [more ->]; [lia|].
  cbn [mapM]. rewrite Z.mul_0_l.
  destruct (range_split (length stems) size Hshort) as [rest ->].
  set (file_names := png_name <$> merge_sort Z.le stems).
  assert (length file_names = length stems) as Hnames.
  { unfold file_names. by rewrite length_fmap. }
  destruct (mapM_Forall_Ok (λ j, Py.index file_names (0 + j)) (λ _, True)
              (Py.range (Z.of_nat (length stems)))) as (names & Hok & _).
  { apply Forall_forall. intros j Hj%elem_of_range.
    destruct (index_in_range file_names (0 + j)) as (name & -> & _); [lia|].
    eauto. }
  rewrite (mapM_Raise _ _ _ _ names IndexError Hok); [done|].
  apply index_beyond. lia.
Qed.

End short_track.

Section getitem_facts.

Import Sampler Albu Dataset.

Context {scalar : Type}.
Variable to_float : Z → scalar.
Variable resample : nat → image → nat → nat → list nat → Z.
Variable kernels : string → Q → image → list nat → Z.

(** What [__init__] stores. *)
Lemma init_fields fs ids frames_path labels_path augmentation sampling
    img_size self :
  init resample kernels fs ids frames_path labels_path augmentation sampling
       img_size = Ok self →
  Dataset.ids self = ids ∧ Dataset.frames_path self = frames_path
  ∧ Dataset.sampling self = sampling ∧ Dataset.img_size self = img_size
  ∧ get_labels fs labels_path = Ok (labels self)
  ∧ aug self = (if augmentation then training_aug resample kernels img_size
                else inference_aug resample img_size).
Proof.
  unfold init. destruct (get_labels fs labels_path) as [labels|]; [|done].
  intros [= <-]. done.
Qed.

(** Both profiles keep the shape contract. *)
Lemma init_pair_contract fs ids frames_path labels_path augmentation sampling
    img_size self :
  init resample kernels fs ids frames_path labels_path augmentation sampling
       img_size = Ok self →
  (1 ≤ img_size)%nat → pair_contract (aug self) img_size.
Proof.
  intros (_ & _ & _ & _ & _ & ->)%init_fields Hsize.
  destruct augmentation;
    [by apply training_aug_contract | by apply inference_aug_contract].
Qed.

(** [__getitem__] once the track folder is found and listed. *)
Lemma getitem_listed fs (self : CustomDataset) r (index : nat) id video face
    listing :
  ids self !! index = Some id →
  Py.split "_" id = [video; face] →
  listdir fs (path_join (frames_path self) [video; face]) = Ok listing →
  getitem to_float fs self r (Z.of_nat index)
  = (frame_names ← get_frame_names (sampling self) listing;
     item ← load_groups fs (aug self)
              (path_join (frames_path self) [video; face]) r frame_names;
     sample ← stack item.2;
     x ← to_tensor to_float sample;
     y ← Py.getitem (labels self) video;
     mret (item.1, (x, y, id))).
Proof.
  intros Hid Hsplit Hdir. unfold getitem.
  destruct (index_in_range (ids self) (Z.of_nat index)) as (id' & -> & Hid').
  { apply lookup_lt_Some in Hid. lia. }
  rewrite Nat2Z.id, Hid in Hid'. injection Hid' as <-.
  run. rewrite Hsplit. cbn [unpack2 mbind result_bind fst snd].
  by rewrite Hdir.
Qed.

(** The names that the sampler returns are names of stems of the track. *)
Lemma sampled_names_of_track stems groups size :
  1 ≤ groups → 0 ≤ size ≤ Z.of_nat (length stems) →
  ∃ frame_names,
    get_frame_names {| num_groups := groups; group_size := size |}
                    (png_name <$> stems) = Ok frame_names
    ∧ length frame_names = Z.to_nat groups
    ∧ Forall (λ group, length group = Z.to_nat size
                       ∧ Forall (λ name, ∃ z, z ∈ stems ∧ name = png_name z)
                                group) frame_names.
Proof.
  intros Hg Hs. eexists. split; [by apply get_frame_names_png_names|].
  split; [by rewrite length_fmap, length_range|].
  apply Forall_fmap, Forall_forall. intros i Hi%elem_of_range. cbn.
  split; [by rewrite length_fmap, length_range|].
  apply Forall_fmap, Forall_forall. intros j Hj%elem_of_range. cbn.
  pose proof (sampler_index_bound _ _ _ _ _ Hg Hs Hi Hj) as Hidx.
  assert (length (merge_sort Z.le stems) = length stems) as Hlen.
  { apply Permutation_length, merge_sort_Permutation. }
  destruct (lookup_lt_is_Some_2 (merge_sort Z.le stems)
    (Z.to_nat (i * ((Z.of_nat (length stems) - size) `div` groups) + j)))
    as [z Hz]; [lia|].
  exists z. split.
  - rewrite <- (merge_sort_Permutation Z.le stems).
    by eapply list_elem_of_lookup_2.
  - by rewrite (nth_lookup_Some _ _ 0 _ Hz).
Qed.

End getitem_facts.

(** ** The dataset assembler keeps two frames per group *)

Section volume_facts.

Import Sampler Albu Dataset.

Context {scalar : Type}.
Variable to_float : Z → scalar.

(** The loop over the groups, with what it makes of each group: the
    augmented pair of the first two frames, stacked. *)
Lemma load_groups_pairs fs aug folder_path size frame_names :
  pair_contract aug size →
  Forall (λ group, (2 ≤ length group)%nat
                   ∧ Forall (readable fs folder_path) group) frame_names →
  ∀ r, ∃ r' volumes pairs,
    load_groups fs aug folder_path r frame_names = Ok (r', volumes)
    ∧ augmented_pairs fs aug folder_path r frame_names pairs r'
    ∧ Forall2 (λ (a : image) (pair : image * image),
                 shape a = [2; size; size; 3]%nat
                 ∧ ∀ idx, item a (0%nat :: idx) = item pair.1 idx
                          ∧ item a (1%nat :: idx) = item pair.2 idx)
              volumes pairs.
Proof.
  intros Haug Hall.
  induction Hall as [|group rest [Hlen Hgroup] _ IH]; intros r.
  - exists r, [], []. by split; [|split; [|constructor]].
  - cbn [load_groups].
    destruct (read_frames_decoded fs folder_path group Hgroup)
      as (volume & Hvolume & Hdecoded & Hvlen).
    rewrite Hvolume. run.
    destruct (index_Forall decoded volume 0 Hdecoded)
      as (image & Hi0 & Hl0 & Himage); [lia|].
    destruct (index_Forall decoded volume 1 Hdecoded)
      as (image0 & Hi1 & Hl1 & Himage0); [lia|].
    change (Z.of_nat 0) with 0 in Hi0. change (Z.of_nat 1) with 1 in Hi1.
    rewrite Hi0, Hi1. run.
    apply mapM_Ok in Hvolume.
    destruct (Forall2_lookup_r _ _ _ _ _ Hvolume Hl0)
      as (name & Hname & Hread).
    destruct (Forall2_lookup_r _ _ _ _ _ Hvolume Hl1)
      as (name0 & Hname0 & Hread0).
    destruct (Haug r image image0 Himage Himage0) as [Hout Hout0].
    set (transformed := Compose aug r (image, image0)) in *.
    destruct (stack_shape [transformed.2.1; transformed.2.2]
                [size; size; 3]%nat) as (stacked & Hstacked & Hsshape);
      [done | by repeat constructor |].
    rewrite Hstacked. run.
    destruct (IH transformed.1) as (r' & volumes & pairs & -> & Hpairs & Hitems).
    cbn [mbind result_bind mret result_ret fst snd].
    exists r', (stacked :: volumes), (transformed.2 :: pairs).
    split; [done|]. split.
    + cbn [augmented_pairs]. by exists name, name0, image, image0.
    + constructor; [|done]. split; [done|]. intros idx.
      split; by eapply stack_item.
Qed.

(** [to_tensor] only moves the channel axis. *)
Lemma to_tensor_content (sample : ndarray Z) ng nf hh ww cc :
  shape sample = [ng; nf; hh; ww; cc] → (1 ≤ ng)%nat → (1 ≤ nf)%nat →
  ∃ x, to_tensor to_float sample = Ok x
    ∧ shape x = [ng; nf; cc; hh; ww]
    ∧ ∀ g f k row col, (g < ng)%nat → (f < nf)%nat →
        item x [g; f; k; row; col]
        = to_float (item sample [g; f; row; col; k]).
Proof.
  intros Hsample Hng Hnf.
  destruct (to_tensor_shape to_float sample _ _ _ _ _ Hsample Hng Hnf)
    as (x & Hx & Hshape).
  exists x. split; [done|]. split; [done|].
  intros g f k row col Hg Hf.
  unfold to_tensor in Hx.
  destruct (mapM _ (iter sample)) as [video_tensor|] eqn:Hvideo; [|done].
  cbn [mbind result_bind] in Hx.
  apply mapM_Ok in Hvideo.
  pose proof (iter_lookup sample _ _ g Hsample Hg) as Hslice.
  destruct (Forall2_lookup_l _ _ _ _ _ Hvideo Hslice) as (tg & Htg & Hgroup).
  apply torch_stack_inv in Hx.
  rewrite (stack_item _ _ _ _ _ Hx Htg).
  set (group := mk_ndarray [nf; hh; ww; cc]
                  (λ idx, item sample (g :: idx))) in *.
  destruct (mapM _ (iter group)) as [group_tensor|] eqn:Hframes; [|done].
  cbn [mbind result_bind] in Hgroup.
  apply mapM_Ok in Hframes.
  pose proof (iter_lookup group nf [hh; ww; cc] f eq_refl Hf) as Hframe.
  destruct (Forall2_lookup_l _ _ _ _ _ Hframes Hframe) as (tf & Htf & Hconv).
  apply torch_stack_inv in Hgroup.
  rewrite (stack_item _ _ _ _ _ Hgroup Htf).
  cbn in Hconv. injection Hconv as <-. reflexivity.
Qed.

(** From the groups to the sample: the tensor holds, for every group,
    the augmented pair of its first two frames. *)
Lemma assemble_volume fs aug folder_path (labels : gmap string Q) key
    (id : string) r size frame_names :
  pair_contract aug size →
  frame_names ≠ [] →
  Forall (λ group, (2 ≤ length group)%nat
                   ∧ Forall (readable fs folder_path) group) frame_names →
  ∃ r' x pairs,
    shape x = [length frame_names; 2; 3; size; size]%nat
    ∧ augmented_pairs fs aug folder_path r frame_names pairs r'
    ∧ (∀ (g : nat) pair k row col, pairs !! g = Some pair →
         item x [g; 0; k; row; col]%nat = to_float (item pair.1 [row; col; k])
         ∧ item x [g; 1; k; row; col]%nat
           = to_float (item pair.2 [row; col; k]))
    ∧ (item ← load_groups fs aug folder_path r frame_names;
       sample ← stack item.2;
       x ← to_tensor to_float sample;
       y ← Py.getitem labels key;
       mret (item.1, (x, y, id)))
      = (y ← Py.getitem labels key; mret (r', (x, y, id))).
Proof.
  intros Haug Hnonempty Hgroups.
  destruct (load_groups_pairs fs aug folder_path size frame_names Haug
              Hgroups r) as (r' & volumes & pairs & Hrun & Hpairs & Hitems).
  assert (length volumes = length frame_names) as Hvlen.
  { pose proof (load_groups_shapes fs aug folder_path size frame_names Haug
                  Hgroups r) as (r2 & item2 & Hrun2 & Hlen2 & _).
    rewrite Hrun in Hrun2. by injection Hrun2 as _ <-. }
  destruct (stack_shape volumes [2; size; size; 3]%nat)
    as (sample & Hsample & Hsshape).
  { destruct volumes; [|done]. by destruct frame_names. }
  { clear -Hitems. induction Hitems as [|???? [? _]]; by constructor. }
  destruct (to_tensor_content sample _ _ _ _ _ Hsshape)
    as (x & Hx & Hxshape & Hcontent); [|lia|].
  { rewrite Hvlen. destruct frame_names; [done|]. cbn [length]. lia. }
  exists r', x, pairs. split; [by rewrite Hxshape, Hvlen|].
  split; [done|]. split.
  - intros g pair k row col Hpair.
    destruct (Forall2_lookup_r _ _ _ _ _ Hitems Hpair)
      as (a & Ha & _ & Hslices).
    assert (g < length volumes)%nat as Hg by (by eapply lookup_lt_Some).
    rewrite !Hcontent by lia.
    rewrite !(stack_item _ _ _ _ _ Hsample Ha).
    destruct (Hslices [row; col; k]) as [-> ->]. done.
  - rewrite Hrun. run. cbn [fst snd]. rewrite Hsample. run. by rewrite Hx.
Qed.

(** Every sampled frame is read, in order: the first one that does not
    decode ends [__getitem__], whatever its position in the group and
    whatever the label mapping holds. *)
Lemma getitem_unreadable_frame fs (self : CustomDataset) r (index : nat) id
    video face stems ascending (j : nat) unread :
  let folder_path := path_join (frames_path self) [video; face] in
  ids self !! index = Some id →
  Py.split "_" id = [video; face] →
  listdir fs folder_path = Ok (png_name <$> stems) →
  1 ≤ num_groups (sampling self) →
  group_size (sampling self) ≤ Z.of_nat (length stems) →
  Sorted Z.le ascending → ascending ≡ₚ stems →
  Z.of_nat j < group_size (sampling self) →
  ascending !! j = Some unread →
  (∀ (j' : nat) z, (j' < j)%nat → ascending !! j' = Some z →
     readable fs folder_path (png_name z)) →
  imread fs (path_join folder_path [png_name unread]) = None →
  getitem to_float fs self r (Z.of_nat index) = Raise Cv2Error.
Proof.
  intros folder_path Hid Hsplit Hdir Hg Hs Hsorted Hperm Hj Hunread Hread
    Hnone.
  rewrite (getitem_listed to_float fs self r index id video face _
             Hid Hsplit Hdir).
  destruct (sampling self) as [groups size].
  cbn [num_groups group_size] in *.
  rewrite get_frame_names_png_names by lia.
  assert (merge_sort Z.le stems = ascending) as ->.
  { apply (Sorted_unique Z.le); [|done|].
    - apply (Sorted_merge_sort Z.le).
    - by rewrite merge_sort_Permutation. }
  run.
  destruct (range_pos groups) as [more_groups ->]; [lia|].
  destruct (range_split j size Hj) as [more ->].
  cbn [fmap list_fmap]. rewrite Z.mul_0_l, fmap_app. cbn [fmap list_fmap].
  fold folder_path.
  rewrite load_groups_unreadable_frame; [done| |].
  - apply Forall_fmap, Forall_forall. intros j' Hj'%elem_of_range. cbn.
    destruct (lookup_lt_is_Some_2 ascending (Z.to_nat j')) as [z Hz].
    { apply lookup_lt_Some in Hunread. lia. }
    replace (Z.to_nat (0 + j')) with (Z.to_nat j') by lia.
    rewrite (nth_lookup_Some _ _ 0 _ Hz). apply (Hread (Z.to_nat j')); [lia|done].
  - replace (Z.to_nat (0 + Z.of_nat j)) with j by lia.
    by rewrite (nth_lookup_Some _ _ 0 _ Hunread).
Qed.

End volume_facts.

(** Claim C10.  Take a dataset built by [__init__] (either profile), a
    track whose folder lists frames in the form [str(n) + '.png'], at
    least one group and a positive image size.
    - With [group_size > 2], enough frames that all decode and a label,
      [__getitem__] returns a volume of shape
      [(num_groups, 2, 3, img_size, img_size)] although every sampled
      group has [group_size] names: frame 0 and frame 1 of group [g] of
      the volume are the two images of the augmented pair made of the
      first two names of group [g]; no later name reaches the volume.
    - The later frames are read all the same: with [group_size > 2],
      when the third or a later frame of the first group is the first
      one that does not decode, [__getitem__] raises the error of
      OpenCV.
    - With [group_size = 1] and frames that decode, [__getitem__] raises
      IndexError. *)
Theorem getitem_stacks_two_frames {scalar : Type} (to_float : Z → scalar)
    (resample : nat → image → nat → nat → list nat → Z)
    (kernels : string → Q → image → list nat → Z)
    (fs : Dataset.filesystem) (ids : list string)
    (frames_path labels_path : string) (augmentation : bool)
    (groups size : Z) (img_size : nat) (self : Dataset.CustomDataset)
    (r : Albu.rng) (index : nat) (id video face : string)
    (stems : list Z) :
  let folder_path := Dataset.path_join frames_path [video; face] in
  let sampling :=
    {| Sampler.num_groups := groups; Sampler.group_size := size |} in
  Dataset.init resample kernels fs ids frames_path labels_path augmentation
    sampling img_size = Ok self →
  ids !! index = Some id →
  Py.split "_" id = [video; face] →
  Dataset.listdir fs folder_path = Ok (Sampler.png_name <$> stems) →
  1 ≤ groups →
  (1 ≤ img_size)%nat →
  (2 < size ≤ Z.of_nat (length stems) →
   (∀ z, z ∈ stems → readable fs folder_path (Sampler.png_name z)) →
   is_Some (Dataset.labels self !! video) →
   ∃ frame_names r' x y pairs,
     Sampler.get_frame_names sampling (Sampler.png_name <$> stems)
       = Ok frame_names
     ∧ Forall (λ group, length group = Z.to_nat size) frame_names
     ∧ Dataset.getitem to_float fs self r (Z.of_nat index)
       = Ok (r', (x, y, id))
     ∧ shape x = [Z.to_nat groups; 2; 3; img_size; img_size]%nat
     ∧ Dataset.labels self !! video = Some y
     ∧ augmented_pairs fs (Dataset.aug self) folder_path r frame_names
         pairs r'
     ∧ length pairs = Z.to_nat groups
     ∧ ∀ (g : nat) pair k row col, pairs !! g = Some pair →
         item x [g; 0; k; row; col]%nat
         = to_float (item pair.1 [row; col; k])
         ∧ item x [g; 1; k; row; col]%nat
           = to_float (item pair.2 [row; col; k]))
  ∧ (2 < size ≤ Z.of_nat (length stems) →
     ∀ ascending (j : nat) unread,
       Sorted Z.le ascending → ascending ≡ₚ stems →
       (2 ≤ j)%nat → Z.of_nat j < size →
       ascending !! j = Some unread →
       (∀ (j' : nat) z, (j' < j)%nat → ascending !! j' = Some z →
          readable fs folder_path (Sampler.png_name z)) →
       Dataset.imread fs
         (Dataset.path_join folder_path [Sampler.png_name unread]) = None →
       Dataset.getitem to_float fs self r (Z.of_nat index)
       = Raise Cv2Error)
  ∧ (size = 1 →
     (∀ z, z ∈ stems → readable fs folder_path (Sampler.png_name z)) →
     Dataset.getitem to_float fs self r (Z.of_nat index) = Raise IndexError).
Proof.
  intros folder_path sampling Hinit Hid Hsplit Hdir Hg Hsize.
  pose proof (init_pair_contract _ _ _ _ _ _ _ _ _ _ Hinit Hsize) as Haug.
  destruct (init_fields _ _ _ _ _ _ _ _ _ _ Hinit)
    as (Hids & Hpath & Hsampling & _ & _ & _).
  split; [|split].
  - intros Hs Hread [y Hy].
    assert (Dataset.getitem to_float fs self r (Z.of_nat index)
      = (frame_names ← Sampler.get_frame_names sampling
                          (Sampler.png_name <$> stems);
         item ← Dataset.load_groups fs (Dataset.aug self) folder_path r
                  frame_names;
         sample ← stack item.2;
         x ← Dataset.to_tensor to_float sample;
         y ← Py.getitem (Dataset.labels self) video;
         mret (item.1, (x, y, id)))) as ->.
    { rewrite <- Hsampling. unfold folder_path. rewrite <- Hpath.
      apply getitem_listed; [by rewrite Hids | done | by rewrite Hpath]. }
    destruct (sampled_names_of_track stems groups size)
      as (frame_names & Hnames & Hlen & Hgroups); [lia..|].
    destruct (assemble_volume to_float fs (Dataset.aug self) folder_path
                (Dataset.labels self) video id r img_size frame_names Haug)
      as (r' & x & pairs & Hshape & Hpairs & Hcontent & Hrun).
    { destruct frame_names; [cbn in Hlen; lia | done]. }
    { apply (Forall_impl _ _ _ Hgroups). intros group [Hglen Hnamed].
      split; [lia|]. apply (Forall_impl _ _ _ Hnamed).
      intros name (z & Hz & ->). auto. }
    exists frame_names, r', x, y, pairs. split; [done|]. split.
    { apply (Forall_impl _ _ _ Hgroups). by intros group [? _]. }
    split.
    { unfold sampling. rewrite Hnames. run. rewrite Hrun.
      unfold Py.getitem. by rewrite Hy. }
    split; [by rewrite Hshape, Hlen|]. split; [done|]. split; [done|].
    split; [|done].
    rewrite <- Hlen. clear -Hpairs. revert r pairs Hpairs.
    induction frame_names as [|group rest IH]; intros r [|pair more];
      cbn [augmented_pairs]; try done.
    intros (name & name0 & rgb & rgb0 & _ & _ & _ & _ & _ & Hrest).
    cbn [length]. f_equal. by eapply IH.
  - intros Hs ascending j unread Hsorted Hperm Hj2 Hj Hunread Hread Hnone.
    apply (getitem_unreadable_frame to_float fs self r index id video face
             stems ascending j unread).
    + by rewrite Hids.
    + done.
    + by rewrite Hpath.
    + rewrite Hsampling. cbn. lia.
    + rewrite Hsampling. cbn. lia.
    + done.
    + done.
    + by rewrite Hsampling.
    + done.
    + by rewrite Hpath.
    + by rewrite Hpath.
  - intros -> Hread.
    assert (Dataset.getitem to_float fs self r (Z.of_nat index)
      = (frame_names ← Sampler.get_frame_names sampling
                          (Sampler.png_name <$> stems);
         item ← Dataset.load_groups fs (Dataset.aug self) folder_path r
                  frame_names;
         sample ← stack item.2;
         x ← Dataset.to_tensor to_float sample;
         y ← Py.getitem (Dataset.labels self) video;
         mret (item.1, (x, y, id)))) as ->.
    { rewrite <- Hsampling. unfold folder_path. rewrite <- Hpath.
      apply getitem_listed; [by rewrite Hids | done | by rewrite Hpath]. }
    unfold sampling.
    destruct (decide (1 ≤ Z.of_nat (length stems))) as [Hlong|Hshort].
    + rewrite get_frame_names_png_names by lia.
      destruct (range_pos groups) as [more ->]; [lia|].
      change (Py.range 1) with [0].
      cbn [mbind result_bind fmap list_fmap].
      rewrite load_groups_single; [done|].
      destruct (lookup_lt_is_Some_2 (merge_sort Z.le stems) 0) as [z Hz].
      { rewrite (Permutation_length (merge_sort_Permutation Z.le stems)). lia. }
      replace (Z.to_nat _) with 0%nat by lia.
      rewrite (nth_lookup_Some _ _ 0 _ Hz). apply Hread.
      rewrite <- (merge_sort_Permutation Z.le stems).
      by eapply list_elem_of_lookup_2.
    + rewrite (sampler_short_track _ stems); [done| |lia..].
      apply mapM_stem_png_name.
Qed.

(** ** A short track stops the inference run *)

Section driver_facts.

Import Dataset.

Lemma foldM_app {A B} (fn : B → A → result B) b l1 l2 :
  foldM fn b (l1 ++ l2) = (b' ← foldM fn b l1; foldM fn b' l2).
Proof.
  revert b. induction l1 as [|x l1 IH]; intros b; [done|].
  cbn [foldM app]. destruct (fn b x) as [b'|]; [|done].
  run. apply IH.
Qed.

End driver_facts.

(** Claim C3, as the code has it.  Take a track whose frame names all
    have integer stems, fewer of them than [group_size], and at least one
    group.  The sampler raises IndexError instead of returning frames.
    Nothing catches it: [__getitem__] raises it for that track, and
    [infer], having processed the tracks before it, stops with it, so
    no later track is scored and no result table is returned. *)
Theorem short_track_aborts_inference {scalar : Type} (to_float : Z → scalar)
    (resample : nat → image → nat → nat → list nat → Z)
    (kernels : string → Q → image → list nat → Z)
    (fs : Dataset.filesystem)
    (model : ndarray scalar → result (ndarray scalar))
    (get_ids : string → result (list string))
    (opt : Inference.options) (cfg : Inference.config) (r : Albu.rng)
    (test_dataset : Dataset.CustomDataset)
    (before after : list string) (id video face : string)
    (listing : list string) (stems : list Z)
    (st : Albu.rng * gmap string (Inference.outcome (scalar := scalar))) :
  let sampling := Inference.cfg_sampling cfg in
  get_ids (Inference.data_path opt) = Ok (before ++ id :: after) →
  Dataset.init resample kernels fs (before ++ id :: after)
    (Inference.data_path opt) (Inference.metadata_path opt) false
    sampling (Inference.input_size cfg) = Ok test_dataset →
  Py.split "_" id = [video; face] →
  Dataset.listdir fs
    (Dataset.path_join (Inference.data_path opt) [video; face]) = Ok listing →
  mapM Sampler.stem listing = Ok stems →
  Z.of_nat (length stems) < Sampler.group_size sampling →
  1 ≤ Sampler.num_groups sampling →
  Dataset.foldM (Inference.infer_step to_float fs model test_dataset) (r, ∅)
    (Py.range (Z.of_nat (length before))) = Ok st →
  Sampler.get_frame_names sampling listing = Raise IndexError
  ∧ Dataset.getitem to_float fs test_dataset st.1 (Z.of_nat (length before))
    = Raise IndexError
  ∧ Inference.infer to_float resample kernels fs model get_ids opt cfg r
    = Raise IndexError.
Proof.
  intros sampling Hids Hinit Hsplit Hdir Hstems Hshort Hg Hbefore.
  assert (Sampler.get_frame_names sampling listing = Raise IndexError)
    as Hsampler.
  { clearbody sampling. destruct sampling as [groups size].
    by eapply sampler_short_track. }
  unfold sampling in *. clear sampling.
  destruct (init_fields _ _ _ _ _ _ _ _ _ _ Hinit)
    as (Hdsids & Hpath & Hsampling & _ & _ & _).
  assert (∀ r0, Dataset.getitem to_float fs test_dataset r0
                  (Z.of_nat (length before)) = Raise IndexError) as Hitem.
  { intros r0.
    rewrite (getitem_listed to_float fs test_dataset r0 (length before)
               id video face listing).
    - by rewrite Hsampling, Hsampler.
    - rewrite Hdsids. by apply list_lookup_middle.
    - done.
    - by rewrite Hpath. }
  split; [done|]. split; [done|].
  unfold Inference.infer. rewrite Hids. run.
  rewrite Hinit. run.
  unfold Dataset.len. rewrite Hdsids.
  destruct (range_split (length before)
              (Z.of_nat (length (before ++ id :: after)))) as [rest ->].
  { rewrite length_app. cbn [length]. lia. }
  rewrite foldM_app, Hbefore. cbn [mbind result_bind Dataset.foldM].
  assert (Inference.infer_step to_float fs model test_dataset st
            (Z.of_nat (length before)) = Raise IndexError) as ->.
  { unfold Inference.infer_step. by rewrite Hitem. }
  done.
Qed.

(** ** Runs on the example disk *)

Lemma demo_dataset_init sampling :
  Dataset.init nearest demo_kernels demo_fs ["long_0"; "short_0"] "data"
    "metadata" false sampling 2 = Ok (demo_dataset sampling).
Proof. reflexivity. Qed.

(** The run over [long_0] and then [short_0], groups of two frames:
    [long_0] is scored, [short_0] ends the run. *)
Lemma short_track_aborts_inference_witness :
  Inference.infer demo_to_float nearest demo_kernels demo_fs demo_model
    (λ _, Ok ["long_0"; "short_0"]) demo_options demo_config quiet
  = Raise IndexError.
Proof.
  refine (proj2 (proj2 (short_track_aborts_inference demo_to_float nearest
    demo_kernels demo_fs demo_model (λ _, Ok ["long_0"; "short_0"])
    demo_options demo_config quiet
    (demo_dataset (Inference.cfg_sampling demo_config))
    ["long_0"] [] "short_0" "short" "0" ["0.png"] [0]
    (Albu.mk_rng (λ _, 0%Q) 3,
     {["long_0" := {| Inference.pred := 1 # 2; Inference.tar := 1%Q |}]})
    _ _ _ _ _ _ _ _))).
  - reflexivity.
  - reflexivity.
  - reflexivity.
  - reflexivity.
  - reflexivity.
  - reflexivity.
  - discriminate.
  - vm_compute. reflexivity.
Defined.

(** Claim C3 as it is worded fails: with the one-frame track first and
    [group_size = 2], the run does not skip it and go on to [long_0]; it
    ends with the IndexError and returns no table. *)
Lemma short_track_is_not_skipped :
  let run := Inference.infer demo_to_float nearest demo_kernels demo_fs
               demo_model (λ _, Ok ["short_0"; "long_0"]) demo_options
               demo_config quiet in
  run = Raise IndexError
  ∧ ¬ (∃ res, run = Ok res ∧ is_Some (res !! "long_0")).
Proof.
  assert (Inference.infer demo_to_float nearest demo_kernels demo_fs
            demo_model (λ _, Ok ["short_0"; "long_0"]) demo_options
            demo_config quiet = Raise IndexError) as Hrun
    by (vm_compute; reflexivity).
  split; [exact Hrun|]. intros (res & Hres & _).
  rewrite Hrun in Hres. discriminate.
Qed.

Lemma damaged_dataset_init sampling :
  Dataset.init nearest demo_kernels damaged_fs ["long_0"; "short_0"] "data"
    "metadata" false sampling 2 = Ok (demo_dataset sampling).
Proof. reflexivity. Qed.

Lemma long_track_readable z :
  z ∈ [3; 0; 5; 1; 4; 2] →
  readable demo_fs (Dataset.path_join "data" ["long"; "0"])
           (Sampler.png_name z).
Proof.
  intros Hz. exists demo_frame. split.
  - repeat (apply elem_of_cons in Hz as [->|Hz]; [reflexivity|]).
    by apply elem_of_nil in Hz.
  - exists 2%nat, 2%nat. split; [reflexivity|lia].
Qed.

(** The track [long_0] sampled in two groups of three frames: the first
    sample of the volume is the red sample of the frame [0.png], which
    the augmentor leaves as it is at this size.  The same track sampled
    in one group of three frames on the disk whose frame [2.png] does
    not decode, and in groups of one frame. *)
Lemma getitem_stacks_two_frames_witness :
  (∃ r' x y,
     Dataset.getitem demo_to_float demo_fs
       (demo_dataset {| Sampler.num_groups := 2; Sampler.group_size := 3 |})
       quiet 0 = Ok (r', (x, y, "long_0"))
     ∧ shape x = [2; 2; 3; 2; 2]%nat
     ∧ item x [0; 0; 0; 0; 0]%nat
       = demo_to_float (item demo_frame [0; 0; 2]%nat))
  ∧ Dataset.getitem demo_to_float damaged_fs
      (demo_dataset {| Sampler.num_groups := 1; Sampler.group_size := 3 |})
      quiet 0 = Raise Cv2Error
  ∧ Dataset.getitem demo_to_float demo_fs
      (demo_dataset {| Sampler.num_groups := 2; Sampler.group_size := 1 |})
      quiet 0 = Raise IndexError.
Proof.
  split; [|split].
  - destruct (getitem_stacks_two_frames demo_to_float nearest demo_kernels
                demo_fs ["long_0"; "short_0"] "data" "metadata" false 2 3 2
                (demo_dataset
                   {| Sampler.num_groups := 2; Sampler.group_size := 3 |})
                quiet 0 "long_0" "long" "0" [3; 0; 5; 1; 4; 2])
      as [Hpairs _].
    + apply demo_dataset_init.
    + reflexivity.
    + reflexivity.
    + reflexivity.
    + lia.
    + lia.
    + destruct Hpairs
        as (frame_names & r' & x & y & pairs & Hnames & _ & Hrun & Hshape & _
            & Hchain & Hlen & Hcontent).
      * simpl. lia.
      * exact long_track_readable.
      * by exists 1%Q.
      * exists r', x, y. split; [exact Hrun|]. split; [exact Hshape|].
        vm_compute in Hnames. injection Hnames as <-.
        destruct pairs as [|first more]; [discriminate Hlen|].
        destruct Hchain as (name & name0 & rgb & rgb0 & Hname & Hname0 & Hrgb
                            & Hrgb0 & Hfirst & _).
        injection Hname as <-. injection Hname0 as <-.
        destruct (Hcontent 0%nat first 0%nat 0%nat 0%nat eq_refl) as [-> _].
        rewrite Hfirst.
        change (Cv2.cvtColor_BGR2RGB (Some demo_frame) = Ok rgb) in Hrgb.
        change (Cv2.cvtColor_BGR2RGB (Some demo_frame) = Ok rgb0) in Hrgb0.
        cbn in Hrgb, Hrgb0. injection Hrgb as <-. injection Hrgb0 as <-.
        reflexivity.
  - refine (proj1 (proj2 (getitem_stacks_two_frames demo_to_float nearest
              demo_kernels damaged_fs ["long_0"; "short_0"] "data" "metadata"
              false 1 3 2
              (demo_dataset
                 {| Sampler.num_groups := 1; Sampler.group_size := 3 |})
              quiet 0 "long_0" "long" "0" [3; 0; 5; 1; 4; 2]
              _ _ _ _ _ _)) _ [0; 1; 2; 3; 4; 5] 2%nat 2 _ _ _ _ _ _ _).
    + apply damaged_dataset_init.
    + reflexivity.
    + reflexivity.
    + reflexivity.
    + lia.
    + lia.
    + simpl. lia.
    + apply (bool_decide_unpack _). vm_compute. reflexivity.
    + apply (bool_decide_unpack _). vm_compute. reflexivity.
    + lia.
    + lia.
    + reflexivity.
    + intros j' z Hj' Hz. exists demo_frame. split.
      * destruct j' as [|[|j']]; [| |lia]; injection Hz as <-; reflexivity.
      * exists 2%nat, 2%nat. split; [reflexivity|lia].
    + reflexivity.
  - refine (proj2 (proj2 (getitem_stacks_two_frames demo_to_float nearest
              demo_kernels demo_fs ["long_0"; "short_0"] "data" "metadata"
              false 2 1 2
              (demo_dataset
                 {| Sampler.num_groups := 2; Sampler.group_size := 1 |})
              quiet 0 "long_0" "long" "0" [3; 0; 5; 1; 4; 2]
              _ _ _ _ _ _)) eq_refl long_track_readable).
    + apply demo_dataset_init.
    + reflexivity.
    + reflexivity.
    + reflexivity.
    + lia.
    + lia.
Defined.

(** ** Facts about the model *)

Section model_facts.

Import Model.

Context {scalar : Type}.

Lemma EfficientNetBlock_forward_eq (self : EfficientNetBlock (scalar := scalar))
    x :
  EfficientNetBlock_forward self x = efficient_net self x.
Proof.
  unfold EfficientNetBlock_forward. by destruct (efficient_net self x).
Qed.

Lemma Spatial_forward_eq (self : Spatial (scalar := scalar)) x :
  Spatial_forward self x = (efficient_net (spa_eff self) x ≫= λ _, Ok x).
Proof.
  unfold Spatial_forward. rewrite EfficientNetBlock_forward_eq.
  by destruct (efficient_net (spa_eff self) x).
Qed.

(** [view] with sizes that are all given. *)
Lemma view_given (x : ndarray scalar) (dims : list nat) :
  view x (Z.of_nat <$> dims)
  = if decide (numel dims = numel (shape x)) then Ok (reshape x dims)
    else Raise RuntimeError.
Proof.
  unfold view.
  assert (¬ Exists (λ d, d < -1) (Z.of_nat <$> dims)) as Hpos.
  { rewrite Exists_fmap, Exists_exists. intros (d & _ & Hd). cbn in Hd. lia. }
  destruct (decide (Exists _ _)) as [?|_]; [done|].
  assert (filter (λ d, d = -1) (Z.of_nat <$> dims) = []) as ->.
  { clear Hpos. induction dims as [|d dims IH]; [done|].
    rewrite fmap_cons, filter_cons_False by lia. exact IH. }
  cbn [length].
  assert (foldr (λ d acc, if decide (d = -1) then acc else acc * d) 1
                (Z.of_nat <$> dims) = Z.of_nat (numel dims)) as ->.
  { clear Hpos. induction dims as [|d dims IH]; [done|].
    change (numel (d :: dims)) with (d * numel dims)%nat.
    cbn [fmap list_fmap foldr]. cbn [fmap] in IH. rewrite IH.
    destruct (decide (Z.of_nat d = -1)); lia. }
  assert (Z.to_nat <$> (Z.of_nat <$> dims) = dims) as ->.
  { rewrite <- list_fmap_compose. rewrite <- (list_fmap_id dims) at 2.
    apply list_fmap_ext. intros ? d _. apply Nat2Z.id. }
  destruct (decide (Z.of_nat (numel dims) = Z.of_nat (numel (shape x))));
    destruct (decide (numel dims = numel (shape x))); try done; lia.
Qed.

End model_facts.

(** ** The spatial branch *)

(** Claim C1 does not hold of the code: [Spatial.forward] runs the feature
    extractor and then returns its own input.  Whenever the extractor
    returns, the branch returns [x], not the extractor's scores. *)
Theorem Spatial_forward_returns_input {scalar : Type}
    (self : Model.Spatial (scalar := scalar)) (x : ndarray scalar) :
  Model.Spatial_forward self x
  = (Model.efficient_net (Model.spa_eff self) x ≫= λ _, Ok x).
Proof.
  unfold Model.Spatial_forward, Model.EfficientNetBlock_forward.
  destruct (Model.efficient_net (Model.spa_eff self) x) as [scores|e].
  - reflexivity.
  - reflexivity.
Qed.

(** On a batch of four frames and an extractor that gives one score per
    frame, the branch hands back the frames. *)
Example Spatial_forward_four_frames :
  shape <$> Model.Spatial_forward {| Model.spa_eff := one_score_each |}
              four_frames = Ok [4; 3; 8; 8]%nat
  ∧ shape <$> Model.EfficientNetBlock_forward one_score_each four_frames
    = Ok [4; 1]%nat.
Proof. split; reflexivity. Qed.

(** What follows in [TheModel.forward]: the frames that come back from
    the spatial branch cannot be viewed as one score per frame, so the
    forward pass raises as soon as a frame has more than one sample. *)
Lemma TheModel_forward_rejects_frames {scalar : Type}
    (self : Model.TheModel (scalar := scalar)) (x : ndarray scalar)
    (scores : ndarray scalar) :
  let s := Model.model_shape self in
  shape x = [Model.n s; Model.g s; Model.f s; Model.c s; Model.h s;
             Model.w s] →
  (1 ≤ Model.n s * Model.g s * Model.f s)%nat →
  (2 ≤ Model.c s * Model.h s * Model.w s)%nat →
  Model.efficient_net (Model.spa_eff (Model.spa self))
    (Model.reshape x [Model.n s * Model.g s * Model.f s; Model.c s;
                      Model.h s; Model.w s]%nat) = Ok scores →
  Model.TheModel_forward self x = Raise RuntimeError.
Proof.
  intros s Hx Hframes Hsamples Heff. unfold Model.TheModel_forward.
  fold s. cbv zeta.
  rewrite (view_given x [Model.n s * Model.g s * Model.f s; Model.c s;
                         Model.h s; Model.w s]%nat), Hx.
  destruct (decide _) as [_|Hne].
  2:{ exfalso. apply Hne. cbn [numel foldr]. lia. }
  run.
  rewrite Spatial_forward_eq, Heff. run.
  rewrite (view_given _ [Model.n s; Model.g s * Model.f s]%nat).
  cbn [Model.reshape shape].
  destruct (decide _) as [Heq|_]; [|done].
  exfalso. cbn [numel foldr] in Heq. nia.
Qed.

(** ** The spatiotemporal branch *)

Section spatiotemporal_facts.

Import Model.

Context {scalar : Type}.

Lemma permute_frames_to_depth (x : ndarray scalar) n0 d c0 h0 w0 :
  shape x = [n0; d; c0; h0; w0] →
  ∃ x', permute x [0; 2; 1; 3; 4]%nat = Ok x'
        ∧ shape x' = [n0; c0; d; h0; w0].
Proof.
  intros Hx. unfold permute. rewrite Hx.
  destruct (decide _) as [_|Hne]; [|by destruct Hne].
  eexists. split; [done|]. done.
Qed.

(** A kernel as deep as the input leaves a depth of one; the 3 by 3
    window with a border of one keeps height and width. *)
Lemma conv3d_1_shape d features conv_map eff (x : ndarray scalar) n0 h0 w0 :
  shape x = [n0; 3%nat; d; h0; w0] → (1 ≤ h0)%nat → (1 ≤ w0)%nat →
  ∃ x', Conv3d_forward (conv3d_1 (Spatiotemporal_init d features conv_map eff))
                       x = Ok x'
        ∧ shape x' = [n0; features; 1%nat; h0; w0].
Proof.
  intros Hx Hh Hw. unfold Conv3d_forward.
  cbn [Spatiotemporal_init conv3d_1 kernel_size padding in_channels
       out_channels stride]. rewrite Hx.
  destruct (decide _) as [_|Hne]; [|exfalso; apply Hne; lia].
  eexists. split; [done|]. cbn [shape]. unfold conv_out.
  rewrite !Nat.div_1_r. repeat f_equal; lia.
Qed.

End spatiotemporal_facts.

(** Claim C5 does not hold of the code.  On a batch [(n, d, 3, h, w)] of
    non-empty frames the branch does permute the frame axis to the depth
    axis and the convolution does leave a depth of one; but [squeeze()]
    then removes every axis of size one, not the depth axis alone: the
    extractor receives the shape [(n, features, h, w)] with all its ones
    deleted.  With a batch of one that is [(features, h, w)]: the batch
    axis is gone. *)
Theorem Spatiotemporal_squeeze_drops_unit_axes {scalar : Type}
    (d features : nat) (conv_map : ndarray scalar → list nat → scalar)
    (eff : Model.EfficientNetBlock (scalar := scalar))
    (x : ndarray scalar) (batch height width : nat) :
  shape x = [batch; d; 3%nat; height; width] →
  (1 ≤ height)%nat → (1 ≤ width)%nat →
  ∃ motion,
    shape motion = filter (λ k, k ≠ 1%nat) [batch; features; height; width]
    ∧ Model.Spatiotemporal_forward
        (Model.Spatiotemporal_init d features conv_map eff) x
      = Model.efficient_net eff motion.
Proof.
  intros Hx Hh Hw. unfold Model.Spatiotemporal_forward.
  destruct (permute_frames_to_depth x _ _ _ _ _ Hx) as (x1 & -> & Hx1).
  run.
  destruct (conv3d_1_shape d features conv_map eff x1 _ _ _ Hx1 Hh Hw)
    as (x2 & -> & Hx2).
  run. exists (Model.squeeze x2). split.
  - cbn [Model.squeeze shape]. rewrite Hx2.
    rewrite (filter_cons _ batch), (filter_cons _ features).
    rewrite (filter_cons_False _ 1%nat) by (intros ?; done).
    rewrite (filter_cons _ batch), (filter_cons _ features). done.
  - cbn [Model.Spatiotemporal_init Model.spt_eff].
    rewrite EfficientNetBlock_forward_eq.
    by destruct (Model.efficient_net eff (Model.squeeze x2)).
Qed.

(** The failing input: one group of two 224 by 224 frames, three motion
    features.  The extractor is called on a tensor of rank three. *)
Lemma Spatiotemporal_squeeze_drops_unit_axes_witness :
  ∃ motion,
    shape motion = [3; 224; 224]%nat
    ∧ Model.Spatiotemporal_forward
        (Model.Spatiotemporal_init 2 3 (λ _ _, 0%Q) one_score_each) one_group
      = Model.efficient_net one_score_each motion.
Proof.
  destruct (Spatiotemporal_squeeze_drops_unit_axes 2 3 (λ _ _, 0%Q)
              one_score_each one_group 1 224 224) as (motion & Hshape & Hrun).
  - reflexivity.
  - lia.
  - lia.
  - exists motion. split; [exact Hshape | exact Hrun].
Defined.

(* ===================================================================== *)
(** * Part III: further properties of the code                            *)
(* ===================================================================== *)

(** ** Sorting the frame names *)

Section sort_files_facts.

Import Sampler.

Lemma int_digits_raises body e :
  Py.int_digits body = Raise e → e = ValueError.
Proof.
  unfold Py.int_digits. destruct (Py.underscores_ok false body); [|congruence].
  destruct (NilZero.uint_of_string _); congruence.
Qed.

(** [int()] raises nothing but ValueError. *)
Lemma int_raises s e : Py.int s = Raise e → e = ValueError.
Proof.
  unfold Py.int. destruct (Py.strip s) as [|ch body].
  - apply int_digits_raises.
  - destruct ch as [[|] [|] [|] [|] [|] [|] [|] [|]];
      try apply int_digits_raises.
    destruct (Py.int_digits body) eqn:Hbody; cbn; [congruence|].
    intros [= <-]. by eapply int_digits_raises.
Qed.

Lemma stem_raises name e : stem name = Raise e → e = ValueError.
Proof. apply int_raises. Qed.

(** A loop whose calls can raise only one exception raises it as soon as
    one call does not return. *)
Lemma mapM_raises_uniform {A B} (fn : A → result B) (E : exn) l :
  (∀ x e, fn x = Raise e → e = E) →
  Exists (λ x, ∀ y, fn x ≠ Ok y) l →
  mapM fn l = Raise E.
Proof.
  intros Huniform Hbad. induction Hbad as [x l Hx|x l _ IH]; cbn [mapM].
  - destruct (fn x) as [y|e] eqn:Hfx; [by destruct (Hx y)|].
    by rewrite (Huniform _ _ Hfx).
  - destruct (fn x) as [y|e] eqn:Hfx.
    + run. by rewrite IH.
    + by rewrite (Huniform _ _ Hfx).
Qed.

(** The stem of an indexed name is its index, whatever the extension. *)
Lemma stem_indexed_name entry : stem (indexed_name entry) = Ok entry.1.
Proof.
  destruct entry as [n ext]. unfold stem, indexed_name. cbn [fst snd].
  destruct (str_cases n) as (s & Hs & [Hn|Hn]).
  - rewrite Hn at 1.
    change (s +:+ "." +:+ ext) with (s +:+ String "." ext).
    rewrite split_digits by done. cbn [hd].
    rewrite <- Hn. apply int_str.
  - rewrite Hn at 1.
    change (String "-" s +:+ "." +:+ ext)
      with (String "-" (s +:+ String "." ext)).
    cbn [Py.split]. replace (Ascii.eqb "-" ".") with false by done.
    rewrite split_digits by done. cbn [hd].
    rewrite <- Hn. apply int_str.
Qed.

End sort_files_facts.

(** Property X1.  On a listing whose names all have integer stems,
    [sort_files] returns as many names as it was given; their stems are
    the given stems in ascending order; and sorting the result again
    changes nothing. *)
Theorem sort_files_sorts_and_normalises (listing : list string)
    (stems : list Z) :
  mapM Sampler.stem listing = Ok stems →
  ∃ out sorted,
    Sampler.sort_files listing = Ok out
    ∧ length out = length listing
    ∧ mapM Sampler.stem out = Ok sorted
    ∧ Sorted Z.le sorted
    ∧ sorted ≡ₚ stems
    ∧ Sampler.sort_files out = Ok out.
Proof.
  intros Hstems.
  exists (Sampler.png_name <$> merge_sort Z.le stems), (merge_sort Z.le stems).
  split; [unfold Sampler.sort_files; by rewrite Hstems|].
  split.
  { rewrite length_fmap.
    rewrite (Permutation_length (merge_sort_Permutation Z.le stems)).
    symmetry. apply mapM_Ok in Hstems. by eapply Forall2_length. }
  split; [apply mapM_stem_png_name|].
  split; [apply (Sorted_merge_sort Z.le)|].
  split; [apply merge_sort_Permutation|].
  rewrite sort_files_png_names. do 2 f_equal.
  apply merge_sort_sorted, (Sorted_merge_sort Z.le).
Qed.

Lemma sort_files_sorts_and_normalises_witness :
  ∃ out, Sampler.sort_files ["10.png"; "9.png"; "007.jpg"; "8.png"] = Ok out
         ∧ Sampler.sort_files out = Ok out.
Proof.
  destruct (sort_files_sorts_and_normalises
              ["10.png"; "9.png"; "007.jpg"; "8.png"] [10; 9; 7; 8])
    as (out & sorted & Hout & _ & _ & _ & _ & Hagain).
  - reflexivity.
  - exists out. split; [exact Hout | exact Hagain].
Defined.

(** Property X2.  If [int()] rejects the stem of one listed name,
    [sort_files] raises ValueError, and so does [get_frame_names] for
    every sampling configuration, a zero [num_groups] included: the
    names are parsed before anything is divided or indexed. *)
Theorem non_integer_stem_raises (listing : list string) (name : string)
    (sampling : Sampler.sampling_config) :
  name ∈ listing →
  (∀ n, Sampler.stem name ≠ Ok n) →
  Sampler.sort_files listing = Raise ValueError
  ∧ Sampler.get_frame_names sampling listing = Raise ValueError.
Proof.
  intros Hin Hname.
  assert (mapM Sampler.stem listing = Raise ValueError) as Hparse.
  { apply mapM_raises_uniform; [apply stem_raises|].
    apply Exists_exists. by exists name. }
  assert (Sampler.sort_files listing = Raise ValueError) as Hsort.
  { unfold Sampler.sort_files. by rewrite Hparse. }
  split; [done|]. unfold Sampler.get_frame_names. by rewrite Hsort.
Qed.

Lemma non_integer_stem_raises_witness :
  Sampler.get_frame_names
    {| Sampler.num_groups := 0; Sampler.group_size := 2 |}
    ["0.png"; "Thumbs.db"; "1.png"] = Raise ValueError.
Proof.
  refine (proj2 (non_integer_stem_raises ["0.png"; "Thumbs.db"; "1.png"]
                   "Thumbs.db" _ _ _)).
  - right. left.
  - intros n. vm_compute. discriminate.
Defined.

(** Property X3.  [sort_files] looks at nothing after the first dot: a
    listing of names [str(n) + '.' + ext], with any extensions, comes
    back as the names [str(n) + '.png'] in ascending order of [n]. *)
Theorem sort_files_ignores_extensions (entries : list (Z * string)) :
  Sampler.sort_files (indexed_name <$> entries)
  = Ok (Sampler.png_name <$> merge_sort Z.le (fst <$> entries)).
Proof.
  unfold Sampler.sort_files.
  assert (mapM Sampler.stem (indexed_name <$> entries) = Ok (fst <$> entries))
    as ->.
  { apply mapM_Ok. induction entries as [|entry entries IH]; cbn.
    - constructor.
    - constructor; [apply stem_indexed_name | exact IH]. }
  reflexivity.
Qed.

(** ** Where the sampled groups lie *)

Section group_positions.

Import Sampler.

(** An entry of the nested list that the sampler builds, by position. *)
Lemma sampled_lookup (sorted : list Z) (interval groups size : Z)
    (i j : nat) group name :
  ((λ i, (λ j, png_name (nth (Z.to_nat (i * interval + j)) sorted 0))
           <$> Py.range size) <$> Py.range groups) !! i = Some group →
  group !! j = Some name →
  (i < Z.to_nat groups)%nat ∧ (j < Z.to_nat size)%nat
  ∧ name = png_name
             (nth (Z.to_nat (Z.of_nat i * interval + Z.of_nat j)) sorted 0).
Proof.
  intros Hgroup Hname. rewrite list_lookup_fmap in Hgroup.
  destruct (Py.range groups !! i) as [i'|] eqn:Hi; [|done].
  injection Hgroup as <-.
  assert (i < Z.to_nat groups)%nat as Hilt.
  { apply lookup_lt_Some in Hi. by rewrite length_range in Hi. }
  rewrite lookup_range in Hi by done. injection Hi as <-.
  rewrite list_lookup_fmap in Hname.
  destruct (Py.range size !! j) as [j'|] eqn:Hj; [|done].
  injection Hname as <-.
  assert (j < Z.to_nat size)%nat as Hjlt.
  { apply lookup_lt_Some in Hj. by rewrite length_range in Hj. }
  rewrite lookup_range in Hj by done. by injection Hj as <-.
Qed.

Lemma fmap_const_replicate {A B} (b : B) (l : list A) :
  (λ _, b) <$> l = replicate (length l) b.
Proof. induction l as [|a l IH]; [done|]. cbn. by rewrite IH. Qed.

(** The first [size] names, read one position after the other. *)
Lemma fmap_range_take (sorted : list Z) size :
  0 ≤ size ≤ Z.of_nat (length sorted) →
  (λ j, png_name (nth (Z.to_nat j) sorted 0)) <$> Py.range size
  = take (Z.to_nat size) (png_name <$> sorted).
Proof.
  intros Hsize. apply list_eq. intros j.
  destruct (decide (j < Z.to_nat size)%nat) as [Hj|Hj].
  - rewrite list_lookup_fmap, lookup_range by done.
    rewrite lookup_take_lt by done. rewrite list_lookup_fmap.
    destruct (lookup_lt_is_Some_2 sorted j) as [z Hz]; [lia|].
    rewrite Hz. cbn. rewrite Nat2Z.id. by rewrite (nth_lookup_Some _ _ 0 _ Hz).
  - rewrite lookup_ge_None_2 by (rewrite length_fmap, length_range; lia).
    symmetry. apply lookup_ge_None_2. rewrite length_take. lia.
Qed.

End group_positions.

(** Property X4.  On a track in the storage layout (names
    [str(n) + '.png'], distinct, ascending) with at least one group and
    enough frames, if the interval between group starts is at least the
    group size, no frame is sampled twice: two positions of the result
    that hold the same name are the same position. *)
Theorem sampled_groups_are_disjoint (stems : list Z) (groups size : Z) :
  Sorted Z.le stems →
  NoDup (Sampler.png_name <$> stems) →
  1 ≤ groups →
  0 ≤ size ≤ Z.of_nat (length stems) →
  size ≤ (Z.of_nat (length stems) - size) `div` groups →
  ∃ frame_names,
    Sampler.get_frame_names
      {| Sampler.num_groups := groups; Sampler.group_size := size |}
      (Sampler.png_name <$> stems) = Ok frame_names
    ∧ ∀ (i1 i2 j1 j2 : nat) group1 group2 name,
        frame_names !! i1 = Some group1 → group1 !! j1 = Some name →
        frame_names !! i2 = Some group2 → group2 !! j2 = Some name →
        i1 = i2 ∧ j1 = j2.
Proof.
  intros Hsorted Hnodup Hg Hs Hinterval.
  eexists. split; [by apply get_frame_names_sorted|].
  set (interval := (Z.of_nat (length stems) - size) `div` groups) in *.
  intros i1 i2 j1 j2 group1 group2 name Hg1 Hn1 Hg2 Hn2.
  destruct (sampled_lookup _ _ _ _ _ _ _ _ Hg1 Hn1) as (Hi1 & Hj1 & Hname1).
  destruct (sampled_lookup _ _ _ _ _ _ _ _ Hg2 Hn2) as (Hi2 & Hj2 & Hname2).
  assert (0 ≤ Z.of_nat i1 * interval + Z.of_nat j1 < Z.of_nat (length stems))
    as Hp1 by (apply sampler_index_bound; lia).
  assert (0 ≤ Z.of_nat i2 * interval + Z.of_nat j2 < Z.of_nat (length stems))
    as Hp2 by (apply sampler_index_bound; lia).
  destruct (lookup_lt_is_Some_2 stems
              (Z.to_nat (Z.of_nat i1 * interval + Z.of_nat j1)))
    as [z1 Hz1]; [lia|].
  destruct (lookup_lt_is_Some_2 stems
              (Z.to_nat (Z.of_nat i2 * interval + Z.of_nat j2)))
    as [z2 Hz2]; [lia|].
  rewrite (nth_lookup_Some _ _ 0 _ Hz1) in Hname1.
  rewrite (nth_lookup_Some _ _ 0 _ Hz2) in Hname2.
  assert (Z.to_nat (Z.of_nat i1 * interval + Z.of_nat j1)
          = Z.to_nat (Z.of_nat i2 * interval + Z.of_nat j2)) as Heq.
  { eapply (NoDup_lookup _ _ _ name Hnodup).
    - by rewrite list_lookup_fmap, Hz1, Hname1.
    - by rewrite list_lookup_fmap, Hz2, Hname2. }
  assert (Z.of_nat i1 = Z.of_nat i2) by nia.
  lia.
Qed.

Lemma sampled_groups_are_disjoint_witness :
  ∃ frame_names,
    Sampler.get_frame_names
      {| Sampler.num_groups := 2; Sampler.group_size := 2 |}
      (Sampler.png_name <$> Py.range 30) = Ok frame_names
    ∧ ∀ (j1 j2 : nat) group1 group2 name,
        frame_names !! 0%nat = Some group1 → group1 !! j1 = Some name →
        frame_names !! 1%nat = Some group2 → group2 !! j2 = Some name →
        False.
Proof.
  destruct (sampled_groups_are_disjoint (Py.range 30) 2 2)
    as (frame_names & Hrun & Hdisjoint).
  - apply (bool_decide_unpack _). vm_compute. reflexivity.
  - apply (bool_decide_unpack _). vm_compute. reflexivity.
  - lia.
  - vm_compute. split; discriminate.
  - vm_compute. discriminate.
  - exists frame_names. split; [exact Hrun|].
    intros j1 j2 group1 group2 name H1 H2 H3 H4.
    destruct (Hdisjoint 0%nat 1%nat j1 j2 group1 group2 name H1 H2 H3 H4)
      as [Hne _].
    discriminate Hne.
Defined.

(** Property X5.  On names [str(n) + '.png'] in any order, with at least
    one group and enough frames, if the frames left over after one group
    are fewer than the groups ([total_frames - group_size < num_groups])
    the interval is zero and every group is the same: the first
    [group_size] names in ascending order. *)
Theorem few_frames_repeat_first_group (stems : list Z) (groups size : Z) :
  1 ≤ groups →
  0 ≤ size ≤ Z.of_nat (length stems) →
  Z.of_nat (length stems) - size < groups →
  Sampler.get_frame_names
    {| Sampler.num_groups := groups; Sampler.group_size := size |}
    (Sampler.png_name <$> stems)
  = Ok (replicate (Z.to_nat groups)
          (take (Z.to_nat size)
                (Sampler.png_name <$> merge_sort Z.le stems))).
Proof.
  intros Hg Hs Hfew. rewrite get_frame_names_png_names by done.
  rewrite Z.div_small by lia.
  assert (length (merge_sort Z.le stems) = length stems) as Hlen.
  { apply Permutation_length, merge_sort_Permutation. }
  f_equal. rewrite <- (length_range groups), <- fmap_const_replicate.
  apply list_fmap_ext. intros _ i _. cbn beta.
  rewrite <- fmap_range_take by lia.
  apply list_fmap_ext. intros _ j _. cbn beta. do 3 f_equal. lia.
Qed.

Lemma few_frames_repeat_first_group_witness :
  Sampler.get_frame_names
    {| Sampler.num_groups := 4; Sampler.group_size := 2 |}
    ["2.png"; "0.png"; "1.png"; "4.png"; "3.png"]
  = Ok (replicate 4 ["0.png"; "1.png"]).
Proof.
  refine (few_frames_repeat_first_group [2; 0; 1; 4; 3] 4 2 _ _ _).
  - lia.
  - vm_compute. split; discriminate.
  - reflexivity.
Defined.

(** ** More on [CustomDataset.__getitem__] *)

Section getitem_more.

Import Sampler Albu Dataset.

Context {scalar : Type}.
Variable to_float : Z → scalar.
Variable resample : nat → image → nat → nat → list nat → Z.
Variable kernels : string → Q → image → list nat → Z.

Lemma length_split sep s : length (Py.split sep s) = S (count_char sep s).
Proof.
  induction s as [|ch s IH]; [done|]. cbn [Py.split count_char].
  destruct (Ascii.eqb ch sep).
  - cbn [length]. by rewrite IH.
  - destruct (Py.split sep s) as [|piece pieces]; [done|].
    cbn [length] in *. lia.
Qed.

Lemma unpack2_raises pieces :
  length pieces ≠ 2%nat → unpack2 pieces = Raise ValueError.
Proof. by destruct pieces as [|? [|? [|? ?]]]. Qed.

(** From the groups to the sample: with groups of two or more readable
    frames and an augmentor that keeps its contract, only the label can
    still be missing. *)
Lemma assemble_groups fs aug folder_path (labels : gmap string Q) key
    (id : string) r size frame_names :
  pair_contract aug size →
  frame_names ≠ [] →
  Forall (λ group, (2 ≤ length group)%nat
                   ∧ Forall (readable fs folder_path) group) frame_names →
  ∃ r' x,
    shape x = [length frame_names; 2; 3; size; size]%nat
    ∧ (item ← load_groups fs aug folder_path r frame_names;
       sample ← stack item.2;
       x ← to_tensor to_float sample;
       y ← Py.getitem labels key;
       mret (item.1, (x, y, id)))
      = (y ← Py.getitem labels key; mret (r', (x, y, id))).
Proof.
  intros Haug Hnonempty Hgroups.
  destruct (load_groups_shapes fs aug folder_path size frame_names Haug
              Hgroups r) as (r' & item & Hitem & Hilen & Hshapes).
  destruct (stack_shape item [2; size; size; 3]%nat)
    as (sample & Hsample & Hsshape); [|done|].
  { destruct item; [|done]. by destruct frame_names. }
  destruct (to_tensor_shape to_float sample _ _ _ _ _ Hsshape)
    as (x & Hx & Hxshape); [|lia|].
  { rewrite Hilen. destruct frame_names; [done|]. cbn [length]. lia. }
  exists r', x. split; [by rewrite Hxshape, Hilen|].
  rewrite Hitem. run. cbn [fst snd]. rewrite Hsample. run. by rewrite Hx.
Qed.

(** [__getitem__] on a track in the storage layout whose frames decode:
    everything succeeds up to the label lookup. *)
Lemma getitem_assembled fs (self : CustomDataset) r (index : nat) id video face
    stems :
  ids self !! index = Some id →
  Py.split "_" id = [video; face] →
  listdir fs (path_join (frames_path self) [video; face])
    = Ok (png_name <$> stems) →
  (∀ z, z ∈ stems →
     readable fs (path_join (frames_path self) [video; face]) (png_name z)) →
  pair_contract (aug self) (img_size self) →
  1 ≤ num_groups (sampling self) →
  2 ≤ group_size (sampling self) ≤ Z.of_nat (length stems) →
  ∃ r' x,
    shape x = [Z.to_nat (num_groups (sampling self)); 2; 3;
               img_size self; img_size self]%nat
    ∧ getitem to_float fs self r (Z.of_nat index)
      = (y ← Py.getitem (labels self) video; mret (r', (x, y, id))).
Proof.
  intros Hid Hsplit Hdir Hread Haug Hg Hs.
  rewrite (getitem_listed to_float fs self r index id video face _
             Hid Hsplit Hdir).
  destruct (sampling self) as [groups size] eqn:Hsampling.
  cbn [num_groups group_size] in *.
  destruct (sampled_names_of_track stems groups size)
    as (frame_names & -> & Hlen & Hgroups); [lia..|].
  run.
  destruct (assemble_groups fs (aug self)
              (path_join (frames_path self) [video; face]) (labels self)
              video id r (img_size self) frame_names Haug)
    as (r' & x & Hshape & ->).
  - destruct frame_names; [cbn in Hlen; lia | done].
  - apply (Forall_impl _ _ _ Hgroups). intros group [Hglen Hnames].
    split; [lia|]. apply (Forall_impl _ _ _ Hnames).
    intros name (z & Hz & ->). auto.
  - exists r', x. split; [by rewrite Hshape, Hlen | done].
Qed.

End getitem_more.

(** Property X6.  [__getitem__] unpacks [id.split('_')] into exactly two
    names: an id that does not hold exactly one underscore (none, or a
    video name with an underscore of its own) raises ValueError, whatever
    is on the disk. *)
Theorem getitem_rejects_malformed_id {scalar : Type} (to_float : Z → scalar)
    (fs : Dataset.filesystem) (self : Dataset.CustomDataset) (r : Albu.rng)
    (index : nat) (id : string) :
  Dataset.ids self !! index = Some id →
  count_char "_" id ≠ 1%nat →
  Dataset.getitem to_float fs self r (Z.of_nat index) = Raise ValueError.
Proof.
  intros Hid Hcount. unfold Dataset.getitem.
  destruct (index_in_range (Dataset.ids self) (Z.of_nat index))
    as (id' & -> & Hid').
  { apply lookup_lt_Some in Hid. lia. }
  rewrite Nat2Z.id, Hid in Hid'. injection Hid' as <-. run.
  rewrite unpack2_raises; [done|]. rewrite length_split. lia.
Qed.

(** Property X7.  On a track in the storage layout, with at least one
    group of at least two frames, a video without an entry in the label
    mapping makes [__getitem__] raise KeyError when every frame decodes.
    The label is looked up last, after the frames were read: when a
    sampled frame of the first group does not decode, the error is the
    one of OpenCV and not KeyError, although the label is missing. *)
Theorem getitem_missing_label {scalar : Type} (to_float : Z → scalar)
    (fs : Dataset.filesystem) (self : Dataset.CustomDataset) (r : Albu.rng)
    (index : nat) (id video face : string) (stems : list Z) :
  let folder_path :=
    Dataset.path_join (Dataset.frames_path self) [video; face] in
  Dataset.ids self !! index = Some id →
  Py.split "_" id = [video; face] →
  Dataset.listdir fs folder_path = Ok (Sampler.png_name <$> stems) →
  pair_contract (Dataset.aug self) (Dataset.img_size self) →
  1 ≤ Sampler.num_groups (Dataset.sampling self) →
  2 ≤ Sampler.group_size (Dataset.sampling self) ≤ Z.of_nat (length stems) →
  Dataset.labels self !! video = None →
  ((∀ z, z ∈ stems → readable fs folder_path (Sampler.png_name z)) →
   Dataset.getitem to_float fs self r (Z.of_nat index) = Raise KeyError)
  ∧ (∀ ascending (j : nat) unread,
       Sorted Z.le ascending → ascending ≡ₚ stems →
       Z.of_nat j < Sampler.group_size (Dataset.sampling self) →
       ascending !! j = Some unread →
       (∀ (j' : nat) z, (j' < j)%nat → ascending !! j' = Some z →
          readable fs folder_path (Sampler.png_name z)) →
       Dataset.imread fs
         (Dataset.path_join folder_path [Sampler.png_name unread]) = None →
       Dataset.getitem to_float fs self r (Z.of_nat index)
       = Raise Cv2Error).
Proof.
  intros folder_path Hid Hsplit Hdir Haug Hg Hs Hlabel. split.
  - intros Hread.
    destruct (getitem_assembled to_float fs self r index id video face stems
                Hid Hsplit Hdir Hread Haug Hg Hs) as (r' & x & _ & ->).
    unfold Py.getitem. by rewrite Hlabel.
  - intros ascending j unread Hsorted Hperm Hj Hunread Hread Hnone.
    apply (getitem_unreadable_frame to_float fs self r index id video face
             stems ascending j unread); try done. lia.
Qed.

(** Property X8.  A negative [num_groups] is not refused by the sampler:
    on names with integer stems it returns no group at all, and
    [__getitem__] then raises ValueError when it stacks the empty list of
    groups. *)
Theorem getitem_without_groups {scalar : Type} (to_float : Z → scalar)
    (fs : Dataset.filesystem) (self : Dataset.CustomDataset) (r : Albu.rng)
    (index : nat) (id video face : string) (listing : list string)
    (stems : list Z) :
  Dataset.ids self !! index = Some id →
  Py.split "_" id = [video; face] →
  Dataset.listdir fs
    (Dataset.path_join (Dataset.frames_path self) [video; face])
    = Ok listing →
  mapM Sampler.stem listing = Ok stems →
  Sampler.num_groups (Dataset.sampling self) < 0 →
  Sampler.get_frame_names (Dataset.sampling self) listing = Ok []
  ∧ Dataset.getitem to_float fs self r (Z.of_nat index) = Raise ValueError.
Proof.
  intros Hid Hsplit Hdir Hstems Hneg.
  assert (Sampler.get_frame_names (Dataset.sampling self) listing = Ok [])
    as Hnone.
  { unfold Sampler.get_frame_names, Sampler.sort_files. rewrite Hstems. run.
    unfold Py.floordiv.
    destruct (decide (Sampler.num_groups (Dataset.sampling self) = 0));
      [lia|].
    run. unfold Py.range.
    by replace (Z.to_nat (Sampler.num_groups (Dataset.sampling self)))
      with 0%nat by lia. }
  split; [done|].
  rewrite (getitem_listed to_float fs self r index id video face listing
             Hid Hsplit Hdir).
  by rewrite Hnone.
Qed.

Lemma getitem_rejects_malformed_id_witness :
  Dataset.getitem demo_to_float unlabelled_fs
    (unlabelled_dataset {| Sampler.num_groups := 1; Sampler.group_size := 2 |})
    quiet 2 = Raise ValueError.
Proof.
  refine (getitem_rejects_malformed_id demo_to_float unlabelled_fs
            (unlabelled_dataset _) quiet 2 "my_video_0" _ _).
  - reflexivity.
  - vm_compute. discriminate.
Defined.

Lemma unlabelled_track_readable :
  ∀ z, z ∈ [1; 0] →
    readable unlabelled_fs (Dataset.path_join "data" ["other"; "0"])
             (Sampler.png_name z).
Proof.
  intros z Hz. exists demo_frame. split.
  - repeat (apply elem_of_cons in Hz as [->|Hz]; [reflexivity|]).
    by apply elem_of_nil in Hz.
  - exists 2%nat, 2%nat. split; [reflexivity|lia].
Qed.

Lemma getitem_missing_label_witness :
  Dataset.getitem demo_to_float unlabelled_fs
    (unlabelled_dataset {| Sampler.num_groups := 1; Sampler.group_size := 2 |})
    quiet 1 = Raise KeyError
  ∧ Dataset.getitem demo_to_float damaged_fs
      (unlabelled_dataset
         {| Sampler.num_groups := 1; Sampler.group_size := 2 |})
      quiet 1 = Raise Cv2Error.
Proof.
  split.
  - refine (proj1 (getitem_missing_label demo_to_float unlabelled_fs
              (unlabelled_dataset _) quiet 1 "other_0" "other" "0" [1; 0]
              _ _ _ _ _ _ _) unlabelled_track_readable).
    + reflexivity.
    + reflexivity.
    + reflexivity.
    + apply (inference_aug_contract nearest 2). lia.
    + cbn. lia.
    + cbn. lia.
    + reflexivity.
  - refine (proj2 (getitem_missing_label demo_to_float damaged_fs
              (unlabelled_dataset _) quiet 1 "other_0" "other" "0" [1; 0]
              _ _ _ _ _ _ _) [0; 1] 1%nat 1 _ _ _ _ _ _).
    + reflexivity.
    + reflexivity.
    + reflexivity.
    + apply (inference_aug_contract nearest 2). lia.
    + cbn. lia.
    + cbn. lia.
    + reflexivity.
    + apply (bool_decide_unpack _). vm_compute. reflexivity.
    + apply (bool_decide_unpack _). vm_compute. reflexivity.
    + cbn. lia.
    + reflexivity.
    + intros j' z Hj' Hz. exists demo_frame. split.
      * destruct j' as [|j']; [|lia]. injection Hz as <-. reflexivity.
      * exists 2%nat, 2%nat. split; [reflexivity|lia].
    + reflexivity.
Defined.

Lemma getitem_without_groups_witness :
  Dataset.getitem demo_to_float unlabelled_fs
    (unlabelled_dataset
       {| Sampler.num_groups := -1; Sampler.group_size := 2 |})
    quiet 0 = Raise ValueError.
Proof.
  refine (proj2 (getitem_without_groups demo_to_float unlabelled_fs
            (unlabelled_dataset _) quiet 0 "long_0" "long" "0"
            ["3.png"; "0.png"; "5.png"; "1.png"; "4.png"; "2.png"]
            [3; 0; 5; 1; 4; 2] _ _ _ _ _)).
  - reflexivity.
  - reflexivity.
  - reflexivity.
  - reflexivity.
  - reflexivity.
Defined.

(** ** From the stacked sample to the tensor *)

(** Property X9.  On a sample of shape [(groups, frames, height, width,
    channels)] with at least one group and one frame per group,
    [to_tensor] returns a tensor of shape [(groups, frames, channels,
    height, width)] whose element at [(g, f, k, row, col)] is the scaled
    sample at [(g, f, row, col, k)]: nothing moves but the channel axis. *)
Theorem to_tensor_moves_channels {scalar : Type} (to_float : Z → scalar)
    (sample : ndarray Z) (ng nf hh ww cc : nat) :
  shape sample = [ng; nf; hh; ww; cc] →
  (1 ≤ ng)%nat → (1 ≤ nf)%nat →
  ∃ x,
    Dataset.to_tensor to_float sample = Ok x
    ∧ shape x = [ng; nf; cc; hh; ww]
    ∧ ∀ g f k row col,
        (g < ng)%nat → (f < nf)%nat →
        item x [g; f; k; row; col]
        = to_float (item sample [g; f; row; col; k]).
Proof.
  intros Hsample Hng Hnf.
  destruct (to_tensor_shape to_float sample _ _ _ _ _ Hsample Hng Hnf)
    as (x & Hx & Hshape).
  exists x. split; [done|]. split; [done|].
  intros g f k row col Hg Hf.
  unfold Dataset.to_tensor in Hx.
  destruct (mapM _ (iter sample)) as [video_tensor|] eqn:Hvideo; [|done].
  cbn [mbind result_bind] in Hx.
  apply mapM_Ok in Hvideo.
  pose proof (iter_lookup sample _ _ g Hsample Hg) as Hslice.
  destruct (Forall2_lookup_l _ _ _ _ _ Hvideo Hslice) as (tg & Htg & Hgroup).
  apply torch_stack_inv in Hx.
  rewrite (stack_item _ _ _ _ _ Hx Htg).
  set (group := mk_ndarray [nf; hh; ww; cc]
                  (λ idx, item sample (g :: idx))) in *.
  destruct (mapM _ (iter group)) as [group_tensor|] eqn:Hframes; [|done].
  cbn [mbind result_bind] in Hgroup.
  apply mapM_Ok in Hframes.
  pose proof (iter_lookup group nf [hh; ww; cc] f eq_refl Hf) as Hframe.
  destruct (Forall2_lookup_l _ _ _ _ _ Hframes Hframe) as (tf & Htf & Hconv).
  apply torch_stack_inv in Hgroup.
  rewrite (stack_item _ _ _ _ _ Hgroup Htf).
  cbn in Hconv. injection Hconv as <-. reflexivity.
Qed.

Lemma to_tensor_moves_channels_witness :
  ∃ x, Dataset.to_tensor demo_to_float small_sample = Ok x
       ∧ item x [1; 0; 2; 1; 0]%nat
         = demo_to_float (item small_sample [1; 0; 1; 0; 2]%nat).
Proof.
  destruct (to_tensor_moves_channels demo_to_float small_sample 2 2 2 2 3)
    as (x & Hx & _ & Hitem).
  - reflexivity.
  - lia.
  - lia.
  - exists x. split; [exact Hx|]. apply Hitem; lia.
Defined.

(** ** A label file that cannot be read *)

Section label_errors.

Import Dataset.

Lemma foldM_raises {A B} (fn : B → A → result B) b l1 x l2 b1 e :
  foldM fn b l1 = Ok b1 → fn b1 x = Raise e →
  foldM fn b (l1 ++ x :: l2) = Raise e.
Proof.
  intros Hl1 Hx. rewrite foldM_app, Hl1. run. cbn [foldM]. by rewrite Hx.
Qed.

(** The files that load, as a fold from any mapping. *)
Lemma load_files_fold (fs : filesystem) labels_path labels json_files files :
  Forall2 (λ json_file file_data,
             json_load fs (path_join labels_path [json_file]) = Ok file_data)
          json_files files →
  foldM (λ labels json_file,
           file_data ← json_load fs (path_join labels_path [json_file]);
           mret (add_records labels file_data)) labels json_files
  = Ok (foldl add_records labels files).
Proof.
  intros Hload. revert labels.
  induction Hload as [|json_file file_data json_files files Hfile _ IH];
    intros labels; [done|].
  cbn [foldM foldl]. rewrite Hfile. run. apply IH.
Qed.

End label_errors.

(** Property X10.  [get_labels] keeps nothing of a label store that it
    cannot read to the end: when the files listed before one load and
    that one raises, [get_labels] raises the same exception, and so does
    the construction of the dataset, whatever its other arguments. *)
Theorem unreadable_label_file_fails_construction
    (resample : nat → image → nat → nat → list nat → Z)
    (kernels : string → Q → image → list nat → Z)
    (fs : Dataset.filesystem) (labels_path : string)
    (before after : list string) (bad : string)
    (files : list (list (string * Dataset.details))) (e : exn)
    (ids : list string) (frames_path : string) (augmentation : bool)
    (sampling : Sampler.sampling_config) (img_size : nat) :
  Dataset.listdir fs labels_path = Ok (before ++ bad :: after) →
  Forall2 (λ json_file file_data,
             Dataset.json_load fs (Dataset.path_join labels_path [json_file])
             = Ok file_data)
          before files →
  Dataset.json_load fs (Dataset.path_join labels_path [bad]) = Raise e →
  Dataset.get_labels fs labels_path = Raise e
  ∧ Dataset.init resample kernels fs ids frames_path labels_path augmentation
      sampling img_size = Raise e.
Proof.
  intros Hdir Hbefore Hbad.
  assert (Dataset.get_labels fs labels_path = Raise e) as Hlabels.
  { unfold Dataset.get_labels. rewrite Hdir. run.
    eapply foldM_raises; [by apply load_files_fold|]. by rewrite Hbad. }
  split; [done|]. unfold Dataset.init. by rewrite Hlabels.
Qed.

Lemma unreadable_label_file_fails_construction_witness :
  Dataset.init nearest demo_kernels broken_store_fs ["abc_0"] "data"
    "metadata" false {| Sampler.num_groups := 1; Sampler.group_size := 2 |}
    224 = Raise ValueError.
Proof.
  refine (proj2 (unreadable_label_file_fails_construction nearest
            demo_kernels broken_store_fs "metadata" ["part0.json"]
            ["part2.json"] "part1.json"
            [[("abc.mp4", {| Dataset.is_fake := 1 |})]] ValueError
            ["abc_0"] "data" false _ 224 _ _ _)).
  - reflexivity.
  - constructor; [reflexivity | constructor].
  - reflexivity.
Defined.

(** ** More on the inference run *)

Section run_facts.

Import Sampler Albu Dataset Inference.

Context {scalar : Type}.
Variable to_float : Z → scalar.
Variable resample : nat → image → nat → nat → list nat → Z.
Variable kernels : string → Q → image → list nat → Z.

Lemma range_snoc (k : nat) :
  Py.range (Z.of_nat (S k)) = Py.range (Z.of_nat k) ++ [Z.of_nat k].
Proof.
  unfold Py.range. rewrite !Nat2Z.id, seq_S, fmap_app. done.
Qed.

(** The run is the loop, once the ids and the dataset are there. *)
Lemma infer_loop fs model get_ids opt cfg r ids test_dataset :
  get_ids (data_path opt) = Ok ids →
  init resample kernels fs ids (data_path opt) (metadata_path opt) false
       (cfg_sampling cfg) (input_size cfg) = Ok test_dataset →
  infer to_float resample kernels fs model get_ids opt cfg r
  = (st ← foldM (infer_step to_float fs model test_dataset) (r, ∅)
             (Py.range (Z.of_nat (length ids)));
     mret st.2).
Proof.
  intros Hids Hinit. unfold infer. rewrite Hids. run. rewrite Hinit. run.
  unfold len. by destruct (init_fields _ _ _ _ _ _ _ _ _ _ Hinit) as (-> & _).
Qed.

(** One turn of the loop on a track that can be assembled and scored. *)
Lemma infer_step_scores fs model (test_dataset : CustomDataset)
    (st : rng * gmap string (outcome (scalar := scalar))) (index : nat)
    id video face stems y :
  ids test_dataset !! index = Some id →
  Py.split "_" id = [video; face] →
  listdir fs (path_join (frames_path test_dataset) [video; face])
    = Ok (png_name <$> stems) →
  (∀ z, z ∈ stems →
     readable fs (path_join (frames_path test_dataset) [video; face])
              (png_name z)) →
  pair_contract (aug test_dataset) (img_size test_dataset) →
  1 ≤ num_groups (sampling test_dataset) →
  2 ≤ group_size (sampling test_dataset) ≤ Z.of_nat (length stems) →
  labels test_dataset !! video = Some y →
  (∀ x, shape x = [1; Z.to_nat (num_groups (sampling test_dataset)); 2; 3;
                   img_size test_dataset; img_size test_dataset]%nat →
        ∃ t, model x = Ok t ∧ numel (shape t) = 1%nat) →
  ∃ r' p,
    infer_step to_float fs model test_dataset st (Z.of_nat index)
    = Ok (r', <[id := {| pred := p; tar := y |}]> st.2).
Proof.
  intros Hid Hsplit Hdir Hread Haug Hg Hs Hy Hmodel.
  destruct (getitem_assembled to_float fs test_dataset st.1 index id video
              face stems Hid Hsplit Hdir Hread Haug Hg Hs)
    as (r' & x & Hshape & Hitem).
  unfold infer_step. rewrite Hitem. unfold Py.getitem. rewrite Hy. run.
  cbn [fst snd].
  destruct (Hmodel (batch_of_one x)) as (t & -> & Hone).
  { cbn [batch_of_one shape]. by rewrite Hshape. }
  run. unfold tensor_item.
  destruct (decide (numel (shape t) = 1%nat)) as [_|?]; [|done].
  run. eauto.
Qed.

End run_facts.

(** Property X11.  [infer] has no handler around its loop body: when
    the tracks before position [k] were processed and the body raises at
    track [k] (from the dataset, from the model or from [pred.item()]),
    [infer] raises the same exception and the rows gathered so far are
    not returned. *)
Theorem infer_stops_at_first_failure {scalar : Type} (to_float : Z → scalar)
    (resample : nat → image → nat → nat → list nat → Z)
    (kernels : string → Q → image → list nat → Z)
    (fs : Dataset.filesystem)
    (model : ndarray scalar → result (ndarray scalar))
    (get_ids : string → result (list string))
    (opt : Inference.options) (cfg : Inference.config) (r : Albu.rng)
    (ids : list string) (test_dataset : Dataset.CustomDataset) (k : nat)
    (st : Albu.rng * gmap string (Inference.outcome (scalar := scalar)))
    (e : exn) :
  get_ids (Inference.data_path opt) = Ok ids →
  Dataset.init resample kernels fs ids (Inference.data_path opt)
    (Inference.metadata_path opt) false (Inference.cfg_sampling cfg)
    (Inference.input_size cfg) = Ok test_dataset →
  (k < length ids)%nat →
  Dataset.foldM (Inference.infer_step to_float fs model test_dataset) (r, ∅)
    (Py.range (Z.of_nat k)) = Ok st →
  Inference.infer_step to_float fs model test_dataset st (Z.of_nat k)
    = Raise e →
  Inference.infer to_float resample kernels fs model get_ids opt cfg r
  = Raise e.
Proof.
  intros Hids Hinit Hk Hbefore Hstep.
  rewrite (infer_loop to_float resample kernels fs model get_ids opt cfg r
             ids test_dataset Hids Hinit).
  destruct (range_split k (Z.of_nat (length ids))) as [rest ->]; [lia|].
  by rewrite (foldM_raises _ _ _ _ _ st e Hbefore Hstep).
Qed.

Lemma infer_stops_at_first_failure_witness :
  Inference.infer demo_to_float nearest demo_kernels unlabelled_fs demo_model
    (λ _, Ok ["long_0"; "other_0"; "my_video_0"]) demo_options demo_config
    quiet
  = Raise KeyError.
Proof.
  refine (infer_stops_at_first_failure demo_to_float nearest demo_kernels
    unlabelled_fs demo_model (λ _, Ok ["long_0"; "other_0"; "my_video_0"])
    demo_options demo_config quiet ["long_0"; "other_0"; "my_video_0"]
    (unlabelled_dataset (Inference.cfg_sampling demo_config)) 1
    (Albu.mk_rng (λ _, 0%Q) 3,
     {["long_0" := {| Inference.pred := 1 # 2; Inference.tar := 1%Q |}]})
    KeyError _ _ _ _ _).
  - reflexivity.
  - reflexivity.
  - cbn. lia.
  - vm_compute. reflexivity.
  - vm_compute. reflexivity.
Defined.

(** Property X12.  When every listed track is in the storage layout, its
    frames decode, it has at least [group_size >= 2] frames and its video
    has a label, and the model returns one element for every batch of
    the configured shape, [infer] returns a table whose keys are exactly
    the track ids (an id listed twice has one row), and each row holds
    as target the label of the video named in its id. *)
Theorem infer_scores_every_track {scalar : Type} (to_float : Z → scalar)
    (resample : nat → image → nat → nat → list nat → Z)
    (kernels : string → Q → image → list nat → Z)
    (fs : Dataset.filesystem)
    (model : ndarray scalar → result (ndarray scalar))
    (get_ids : string → result (list string))
    (opt : Inference.options) (cfg : Inference.config) (r : Albu.rng)
    (ids : list string) (test_dataset : Dataset.CustomDataset) :
  let sampling := Inference.cfg_sampling cfg in
  let size := Inference.input_size cfg in
  get_ids (Inference.data_path opt) = Ok ids →
  Dataset.init resample kernels fs ids (Inference.data_path opt)
    (Inference.metadata_path opt) false sampling size = Ok test_dataset →
  1 ≤ Sampler.num_groups sampling →
  2 ≤ Sampler.group_size sampling →
  (1 ≤ size)%nat →
  Forall (λ id, ∃ video face stems,
            Py.split "_" id = [video; face]
            ∧ Dataset.listdir fs
                (Dataset.path_join (Inference.data_path opt) [video; face])
              = Ok (Sampler.png_name <$> stems)
            ∧ (∀ z, z ∈ stems →
                 readable fs
                   (Dataset.path_join (Inference.data_path opt) [video; face])
                   (Sampler.png_name z))
            ∧ Sampler.group_size sampling ≤ Z.of_nat (length stems)
            ∧ is_Some (Dataset.labels test_dataset !! video)) ids →
  (∀ x, shape x = [1; Z.to_nat (Sampler.num_groups sampling); 2; 3;
                   size; size]%nat →
        ∃ t, model x = Ok t ∧ numel (shape t) = 1%nat) →
  ∃ res,
    Inference.infer to_float resample kernels fs model get_ids opt cfg r
      = Ok res
    ∧ (∀ id, is_Some (res !! id) ↔ id ∈ ids)
    ∧ (∀ id row, res !! id = Some row →
         ∃ video face,
           Py.split "_" id = [video; face]
           ∧ Dataset.labels test_dataset !! video
             = Some (Inference.tar row)).
Proof.
  intros sampling size Hids Hinit Hg Hs Hsize Htracks Hmodel.
  rewrite (infer_loop to_float resample kernels fs model get_ids opt cfg r
             ids test_dataset Hids Hinit).
  pose proof (init_pair_contract _ _ _ _ _ _ _ _ _ _ Hinit Hsize) as Haug.
  destruct (init_fields _ _ _ _ _ _ _ _ _ _ Hinit)
    as (Hdsids & Hpath & Hsampling & Hdssize & _ & _).
  fold sampling in Hsampling. fold size in Hdssize.
  assert (∀ k, (k ≤ length ids)%nat →
    ∃ st,
      Dataset.foldM (Inference.infer_step to_float fs model test_dataset)
        (r, ∅) (Py.range (Z.of_nat k)) = Ok st
      ∧ (∀ id, is_Some (st.2 !! id) ↔ id ∈ take k ids)
      ∧ (∀ id row, st.2 !! id = Some row →
           ∃ video face,
             Py.split "_" id = [video; face]
             ∧ Dataset.labels test_dataset !! video
               = Some (Inference.tar row))) as Hloop.
  { induction k as [|k IH]; intros Hk.
    - exists (r, ∅). split; [done|]. cbn [snd]. split.
      + intros id. rewrite take_0, lookup_empty. split.
        * by intros [? ?].
        * by intros ?%elem_of_nil.
      + intros id row. by rewrite lookup_empty.
    - destruct IH as (st & Hst & Hkeys & Htars); [lia|].
      destruct (lookup_lt_is_Some_2 ids k) as [id Hid]; [lia|].
      rewrite Forall_forall in Htracks.
      destruct (Htracks id) as (video & face & stems & Hsplit & Hdir & Hread
                                & Hlen & [y Hy]).
      { by eapply list_elem_of_lookup_2. }
      destruct (infer_step_scores to_float fs model test_dataset st k id
                  video face stems y) as (r' & p & Hstep).
      { by rewrite Hdsids. }
      { done. }
      { by rewrite Hpath. }
      { by rewrite Hpath. }
      { by rewrite Hdssize. }
      { by rewrite Hsampling. }
      { rewrite Hsampling. lia. }
      { done. }
      { by rewrite Hsampling, Hdssize. }
      eexists. split.
      { rewrite range_snoc, foldM_app, Hst. run. cbn [Dataset.foldM].
        rewrite Hstep. run. reflexivity. }
      cbn [snd]. split.
      + intros id'. rewrite (take_S_r _ _ _ Hid), elem_of_app, list_elem_of_singleton.
        rewrite <- Hkeys. destruct (decide (id = id')) as [->|Hne].
        * rewrite lookup_insert_eq. split; [by right | by eauto].
        * rewrite lookup_insert_ne by done. split; [by left|].
          by intros [?|?].
      + intros id' row. destruct (decide (id = id')) as [<-|Hne].
        * rewrite lookup_insert_eq. intros [= <-]. by exists video, face.
        * rewrite lookup_insert_ne by done. apply Htars. }
  destruct (Hloop (length ids)) as (st & -> & Hkeys & Htars); [lia|].
  run. exists st.2. split; [done|]. split; [|done].
  intros id. by rewrite Hkeys, firstn_all.
Qed.

Lemma infer_scores_every_track_witness :
  ∃ res,
    Inference.infer demo_to_float nearest demo_kernels demo_fs demo_model
      (λ _, Ok ["long_0"; "long_0"]) demo_options demo_config quiet = Ok res
    ∧ is_Some (res !! "long_0").
Proof.
  destruct (infer_scores_every_track demo_to_float nearest demo_kernels
    demo_fs demo_model (λ _, Ok ["long_0"; "long_0"]) demo_options
    demo_config quiet ["long_0"; "long_0"]
    (Dataset.mk_CustomDataset ["long_0"; "long_0"] "data" "metadata"
       (Inference.cfg_sampling demo_config) 2 demo_labels
       (Dataset.inference_aug nearest 2)))
    as (res & Hrun & Hkeys & _).
  - reflexivity.
  - reflexivity.
  - cbn. lia.
  - cbn. lia.
  - cbn. lia.
  - apply Forall_forall. intros id Hid.
    assert (id = "long_0") as ->.
    { repeat (apply elem_of_cons in Hid as [->|Hid]; [reflexivity|]).
      by apply elem_of_nil in Hid. }
    exists "long", "0", [3; 0; 5; 1; 4; 2].
    split; [reflexivity|]. split; [reflexivity|]. split.
    + intros z Hz. exists demo_frame. split.
      * repeat (apply elem_of_cons in Hz as [->|Hz]; [reflexivity|]).
        by apply elem_of_nil in Hz.
      * exists 2%nat, 2%nat. split; [reflexivity|lia].
    + split; [cbn; lia|]. by exists 1%Q.
  - intros x _. eexists. split; [reflexivity|reflexivity].
  - exists res. split; [exact Hrun|]. apply Hkeys. by left.
Defined.

(** ** More on the model *)

(** Property X13.  As written, [TheModel.forward] returns for no input
    whose frames have more than one sample: either the input does not
    have the configured number of elements, or the feature extractor of
    the spatial branch raises, or the frames that the spatial branch
    hands back cannot be viewed as one score per frame. *)
Theorem TheModel_forward_never_returns {scalar : Type}
    (self : Model.TheModel (scalar := scalar)) (x : ndarray scalar) :
  let s := Model.model_shape self in
  (1 ≤ Model.n s * Model.g s * Model.f s)%nat →
  (2 ≤ Model.c s * Model.h s * Model.w s)%nat →
  ∃ e, Model.TheModel_forward self x = Raise e.
Proof.
  intros s Hframes Hsamples. unfold Model.TheModel_forward.
  fold s. cbv zeta.
  rewrite (view_given x [Model.n s * Model.g s * Model.f s; Model.c s;
                         Model.h s; Model.w s]%nat).
  destruct (decide _) as [Hnumel|_]; [|by eexists].
  run. rewrite Spatial_forward_eq.
  destruct (Model.efficient_net _ _) as [scores|e]; [|by eexists].
  run. rewrite (view_given _ [Model.n s; Model.g s * Model.f s]%nat).
  cbn [Model.reshape shape].
  destruct (decide _) as [Heq|_]; [|by eexists].
  exfalso. cbn [numel foldr] in Heq. nia.
Qed.

Lemma TheModel_forward_never_returns_witness :
  ∃ e, Model.TheModel_forward tiny_model tiny_batch = Raise e.
Proof.
  refine (TheModel_forward_never_returns tiny_model tiny_batch _ _).
  - cbn. lia.
  - cbn. lia.
Defined.

(** Property X14.  On a batch [(batch, d, 3, height, width)] whose batch,
    feature count, height and width are all at least two, the
    spatiotemporal branch calls its extractor on a tensor of shape
    [(batch, features, height, width)]: the depth axis alone is
    squeezed. *)
Theorem Spatiotemporal_forward_keeps_batch {scalar : Type}
    (d features : nat) (conv_map : ndarray scalar → list nat → scalar)
    (eff : Model.EfficientNetBlock (scalar := scalar))
    (x : ndarray scalar) (batch height width : nat) :
  shape x = [batch; d; 3%nat; height; width] →
  (2 ≤ batch)%nat → (2 ≤ features)%nat →
  (2 ≤ height)%nat → (2 ≤ width)%nat →
  ∃ motion,
    shape motion = [batch; features; height; width]
    ∧ Model.Spatiotemporal_forward
        (Model.Spatiotemporal_init d features conv_map eff) x
      = Model.efficient_net eff motion.
Proof.
  intros Hx Hb Hf Hh Hw. unfold Model.Spatiotemporal_forward.
  destruct (permute_frames_to_depth x _ _ _ _ _ Hx) as (x1 & -> & Hx1).
  run.
  destruct (conv3d_1_shape d features conv_map eff x1 _ _ _ Hx1)
    as (x2 & -> & Hx2); [lia..|].
  run. exists (Model.squeeze x2). split.
  - cbn [Model.squeeze shape]. rewrite Hx2.
    rewrite (filter_cons_True _ batch) by lia.
    rewrite (filter_cons_True _ features) by lia.
    rewrite (filter_cons_False _ 1%nat) by (intros ?; done).
    rewrite (filter_cons_True _ height) by lia.
    rewrite (filter_cons_True _ width) by lia.
    done.
  - cbn [Model.Spatiotemporal_init Model.spt_eff].
    rewrite EfficientNetBlock_forward_eq.
    by destruct (Model.efficient_net eff (Model.squeeze x2)).
Qed.

Lemma Spatiotemporal_forward_keeps_batch_witness :
  ∃ motion,
    shape motion = [4; 3; 8; 8]%nat
    ∧ Model.Spatiotemporal_forward
        (Model.Spatiotemporal_init 2 3 (λ _ _, 0%Q) one_score_each)
        four_groups
      = Model.efficient_net one_score_each motion.
Proof.
  refine (Spatiotemporal_forward_keeps_batch 2 3 (λ _ _, 0%Q) one_score_each
            four_groups 4 8 8 _ _ _ _ _).
  - reflexivity.
  - lia.
  - lia.
  - lia.
  - lia.
Defined.

(** Property X15.  The spatiotemporal branch raises RuntimeError, before
    its extractor is called, on an input that is not of rank five, that
    does not have three channels, or that has fewer frames per group
    than the depth of its kernel. *)
Theorem Spatiotemporal_forward_rejects {scalar : Type}
    (d features : nat) (conv_map : ndarray scalar → list nat → scalar)
    (eff : Model.EfficientNetBlock (scalar := scalar))
    (x : ndarray scalar) :
  length (shape x) ≠ 5%nat
  ∨ (∃ batch frames channels height width,
       shape x = [batch; frames; channels; height; width]
       ∧ (channels ≠ 3%nat ∨ (frames < d)%nat)) →
  Model.Spatiotemporal_forward
    (Model.Spatiotemporal_init d features conv_map eff) x
  = Raise RuntimeError.
Proof.
  intros [Hrank|(batch & frames & channels & height & width & Hx & Hbad)];
    unfold Model.Spatiotemporal_forward.
  - unfold Model.permute.
    destruct (decide _) as [Hperm|_]; [|done].
    exfalso. apply Hrank.
    apply (f_equal length) in Hperm. rewrite length_seq in Hperm.
    rewrite <- Hperm. reflexivity.
  - unfold Model.permute. rewrite Hx.
    destruct (decide _) as [_|Hne]; [|by destruct Hne].
    run. unfold Model.Conv3d_forward.
    cbn [Model.Spatiotemporal_init Model.conv3d_1 Model.kernel_size
         Model.padding Model.in_channels shape fmap list_fmap nth].
    destruct (decide _) as [(Hch & Hd & _)|_]; [|done].
    exfalso. destruct Hbad as [Hbad|Hbad]; [done|lia].
Qed.

Lemma Spatiotemporal_forward_rejects_witness :
  Model.Spatiotemporal_forward
    (Model.Spatiotemporal_init 2 3 (λ _ _, 0%Q) one_score_each) grey_groups
  = Raise RuntimeError.
Proof.
  refine (Spatiotemporal_forward_rejects 2 3 (λ _ _, 0%Q) one_score_each
            grey_groups _).
  right. exists 2%nat, 2%nat, 1%nat, 8%nat, 8%nat.
  split; [reflexivity|]. left. discriminate.
Defined.

(** ** The cross-validation dataset *)

Section cross_validation_facts.

Import Sampler Albu Dataset CrossValidation.

Lemma append_assoc_string (s1 s2 s3 : string) :
  (s1 +:+ s2) +:+ s3 = s1 +:+ (s2 +:+ s3).
Proof.
  induction s1 as [|ch s1 IH]; [done|].
  change (String ch s1 +:+ s2) with (String ch (s1 +:+ s2)).
  change (String ch (s1 +:+ s2) +:+ s3) with (String ch ((s1 +:+ s2) +:+ s3)).
  by rewrite IH.
Qed.

Lemma last_char_split (s : string) ch :
  String.get (String.length s - 1) s = Some ch →
  ∃ s', s = s' +:+ String ch EmptyString.
Proof.
  induction s as [|c s IH]; [done|]. cbn [String.length].
  destruct s as [|c' s].
  - cbn. intros [= <-]. by exists EmptyString.
  - replace (S (String.length (String c' s)) - 1)%nat
      with (S (String.length (String c' s) - 1)) by (cbn; lia).
    cbn [String.get]. intros (s' & Hs')%IH.
    exists (String c s'). by rewrite Hs'.
Qed.

Lemma basename_after_slash s name :
  Py.split "/" name = [name] →
  basename (s +:+ String "/" name) = name.
Proof.
  intros Hname. unfold basename. rewrite split_app_sep, Hname.
  by rewrite last_snoc.
Qed.

(** The folder of face ['0'] of any video has the base name ['0']. *)
Lemma basename_join_face folder :
  basename (path_join folder ["0"]) = "0".
Proof.
  unfold path_join. cbn [foldl].
  replace (String.prefix "/" "0") with false by done.
  destruct (bool_decide (folder = EmptyString)); [done|].
  destruct (bool_decide _) eqn:Hslash.
  - apply bool_decide_eq_true in Hslash.
    apply last_char_split in Hslash as [s' ->].
    rewrite append_assoc_string.
    by apply (basename_after_slash s' "0").
  - by apply (basename_after_slash folder "0").
Qed.

Lemma basename_face dir video :
  basename (path_join dir [video; "0"]) = "0".
Proof.
  change (path_join dir [video; "0"])
    with (path_join (path_join dir [video]) ["0"]).
  apply basename_join_face.
Qed.

(** A loop that returned kept what every turn keeps. *)
Lemma foldM_invariant {A B} (P : B → Prop) (fn : B → A → result B) l b b' :
  P b →
  (∀ b0 x b1, P b0 → x ∈ l → fn b0 x = Ok b1 → P b1) →
  foldM fn b l = Ok b' → P b'.
Proof.
  revert b. induction l as [|x l IH]; intros b Hb Hstep; cbn [foldM].
  - by intros [= <-].
  - destruct (fn b x) as [b1|] eqn:Hx; [|done]. run.
    apply IH.
    + eapply Hstep; [done | by left | done].
    + intros b0 y b2 Hb0 Hy. apply Hstep; [done | by right].
Qed.

(** A loop whose turns only add, one of which adds [target], returns a
    list that holds [target]. *)
Lemma foldM_reaches {A C} (fn : list C → A → result (list C)) l x0 target
    b b' :
  (∀ b0 x b1, fn b0 x = Ok b1 → b0 ⊆ b1) →
  x0 ∈ l →
  (∀ b0 b1, fn b0 x0 = Ok b1 → target ∈ b1) →
  foldM fn b l = Ok b' → target ∈ b'.
Proof.
  intros Hmono Hx0 Hhit. revert b.
  induction l as [|x l IH]; intros b; cbn [foldM]; [by apply elem_of_nil in Hx0|].
  destruct (fn b x) as [b1|] eqn:Hx; [|done]. run.
  apply elem_of_cons in Hx0 as [<-|Hx0].
  - intros Hrest.
    assert (b1 ⊆ b') as Hsub.
    { revert Hrest. apply (foldM_invariant (λ b2, b1 ⊆ b2)); [done|].
      intros b0 y b2 Hb0 _ Hy. etrans; [done|]. by eapply Hmono. }
    apply Hsub. by eapply Hhit.
  - by apply IH.
Qed.

End cross_validation_facts.

Section cross_validation_walk.

Import Sampler Albu Dataset CrossValidation.

(** Every id that the walk returns passed the test of the walk. *)
Lemma get_full_paths_sound fs root ids :
  get_full_paths fs root = Ok ids → Forall (eligible fs root) ids.
Proof.
  unfold get_full_paths.
  apply (foldM_invariant (Forall (eligible fs root))); [done|].
  intros ids0 dir ids1 Hids0 Hdir.
  destruct (listdir fs dir) as [videos|] eqn:Hvideos; [|done]. run.
  apply (foldM_invariant (Forall (eligible fs root))); [done|].
  clear ids0 ids1 Hids0. intros ids0 video ids1 Hids0 Hvideo.
  destruct (listdir fs (path_join dir [video])) as [faces|]; [|done]. run.
  apply (foldM_invariant (Forall (eligible fs root))); [done|].
  clear ids0 ids1 Hids0. intros ids0 face ids1 Hids0 _.
  case_bool_decide as Hface; [subst face|by intros [= <-]].
  destruct (listdir fs (path_join dir [video; "0"])) as [frames|] eqn:Hframes;
    [|done]. run.
  destruct (decide _) as [Hlong|_]; intros [= <-]; [|done].
  apply Forall_app. split; [done|]. apply Forall_singleton.
  by exists dir, videos, video, frames.
Qed.

(** The turns of the three loops only append. *)
Lemma faces_loop_grows fs dir video faces ids0 ids1 :
  foldM (λ ids face,
    if bool_decide (face = "0") then
      frames ← listdir fs (path_join dir [video; face]);
      if decide (24 ≤ length frames)%nat
      then mret (ids ++ [path_join dir [video; face]])
      else mret ids
    else mret ids) ids0 faces = Ok ids1 →
  ids0 ⊆ ids1.
Proof.
  apply (foldM_invariant (λ ids, ids0 ⊆ ids)); [done|].
  intros b0 face b1 Hb0 _.
  case_bool_decide; [|by intros [= <-]].
  destruct (listdir fs _); [|done]. run.
  destruct (decide _); intros [= <-]; [|done].
  etrans; [done|]. intros x Hx. apply elem_of_app. by left.
Qed.

Lemma videos_loop_grows fs dir videos ids0 ids1 :
  foldM (λ ids video,
    faces ← listdir fs (path_join dir [video]);
    foldM (λ ids face,
      if bool_decide (face = "0") then
        frames ← listdir fs (path_join dir [video; face]);
        if decide (24 ≤ length frames)%nat
        then mret (ids ++ [path_join dir [video; face]])
        else mret ids
      else mret ids) ids faces) ids0 videos = Ok ids1 →
  ids0 ⊆ ids1.
Proof.
  apply (foldM_invariant (λ ids, ids0 ⊆ ids)); [done|].
  intros b0 video b1 Hb0 _.
  destruct (listdir fs _) as [faces|]; [|done]. run.
  intros Hfaces%faces_loop_grows. by etrans.
Qed.

(** A track that passes the test is returned. *)
Lemma get_full_paths_complete fs root ids dir videos video faces frames :
  get_full_paths fs root = Ok ids →
  dir ∈ splits root →
  listdir fs dir = Ok videos → video ∈ videos →
  listdir fs (path_join dir [video]) = Ok faces → "0" ∈ faces →
  listdir fs (path_join dir [video; "0"]) = Ok frames →
  (24 ≤ length frames)%nat →
  path_join dir [video; "0"] ∈ ids.
Proof.
  intros Hids Hdir Hvideos Hvideo Hfaces Hface Hframes Hlong.
  revert Hids. unfold get_full_paths.
  apply (foldM_reaches _ _ dir); [|done|].
  { intros b0 d b1. destruct (listdir fs d); [|done]. run.
    apply videos_loop_grows. }
  intros b0 b1. rewrite Hvideos. run.
  apply (foldM_reaches _ _ video); [|done|].
  { intros b2 v b3. destruct (listdir fs (path_join dir [v])); [|done]. run.
    apply faces_loop_grows. }
  intros b2 b3. rewrite Hfaces. run.
  apply (foldM_reaches _ _ "0"); [|done|].
  { intros b4 face b5. case_bool_decide; [|by intros [= <-]].
    destruct (listdir fs (path_join dir [video; face])); [|done]. run.
    destruct (decide _); intros [= <-]; [|done].
    intros x Hx. apply elem_of_app. by left. }
  intros b4 b5. rewrite bool_decide_true by done. rewrite Hframes. run.
  destruct (decide _) as [_|?]; [|lia]. intros [= <-].
  apply elem_of_app. right. by left.
Qed.

(** The label store of the two directories, as two folds. *)
Lemma cv_get_labels_fold fs labels_path training_files training
    validation_files validation :
  listdir fs (path_join labels_path ["training"]) = Ok training_files →
  Forall2 (λ json_file file_data,
             json_load fs (path_join (path_join labels_path ["training"])
                                     [json_file]) = Ok file_data)
          training_files training →
  listdir fs (path_join labels_path ["validation"]) = Ok validation_files →
  Forall2 (λ json_file file_data,
             json_load fs (path_join (path_join labels_path ["validation"])
                                     [json_file]) = Ok file_data)
          validation_files validation →
  get_labels fs labels_path
  = Ok (foldl add_records (foldl add_records ∅ training) validation).
Proof.
  intros Htdir Htload Hvdir Hvload. unfold get_labels, splits.
  cbn [foldM]. rewrite Htdir. run.
  rewrite (load_files_fold fs _ ∅ training_files training Htload). run.
  rewrite Hvdir. run.
  rewrite (load_files_fold fs _ _ validation_files validation Hvload).
  by run.
Qed.

End cross_validation_walk.

(** Property X16.  [CrossValidationDataset.get_full_paths] returns
    exactly the tracks that pass its test.  Every id it returns is the
    folder of face ['0'] of a video listed in the training or the
    validation directory, lists at least 24 entries and has the base name
    ['0']; and every such folder of a listed video is among the ids. *)
Theorem get_full_paths_keeps_long_face_tracks (fs : Dataset.filesystem)
    (root : string) (ids : list string) :
  CrossValidation.get_full_paths fs root = Ok ids →
  (∀ id, id ∈ ids →
     eligible fs root id ∧ CrossValidation.basename id = "0")
  ∧ (∀ dir videos video faces frames,
       dir ∈ CrossValidation.splits root →
       Dataset.listdir fs dir = Ok videos → video ∈ videos →
       Dataset.listdir fs (Dataset.path_join dir [video]) = Ok faces →
       "0" ∈ faces →
       Dataset.listdir fs (Dataset.path_join dir [video; "0"]) = Ok frames →
       (24 ≤ length frames)%nat →
       Dataset.path_join dir [video; "0"] ∈ ids).
Proof.
  intros Hids. split.
  - intros id Hid.
    pose proof (get_full_paths_sound fs root ids Hids) as Hall.
    rewrite Forall_forall in Hall. specialize (Hall id Hid).
    split; [done|].
    destruct Hall as (dir & videos & video & frames & _ & _ & _ & -> & _).
    apply basename_face.
  - intros dir videos video faces frames.
    by apply get_full_paths_complete.
Qed.

Lemma get_full_paths_keeps_long_face_tracks_witness :
  CrossValidation.get_full_paths cv_fs "frames"
  = Ok ["frames/training/vidA/0"]
  ∧ eligible cv_fs "frames" "frames/training/vidA/0"
  ∧ CrossValidation.basename "frames/training/vidA/0" = "0".
Proof.
  split; [reflexivity|].
  apply (get_full_paths_keeps_long_face_tracks cv_fs "frames"
           ["frames/training/vidA/0"]).
  - reflexivity.
  - by left.
Defined.

(** Property X17.  [CrossValidationDataset.__getitem__] looks the label
    up under [os.path.basename(id)], and the ids that [__init__] collects
    all end in the face folder ['0'].  On a dataset built by [__init__],
    for a track with canonical frame names that all decode, at least one
    group and groups of 2 to 24 frames, every step before the lookup
    succeeds, and the result is the tensor with the entry of the store
    under ['0'] as the label, or KeyError when the store has no such
    entry; the name of the video is never looked up. *)
Theorem cross_validation_getitem_label_key {scalar : Type}
    (to_float : Z → scalar)
    (resample : nat → image → nat → nat → list nat → Z)
    (kernels : string → Q → image → list nat → Z)
    (fs : Dataset.filesystem) (frames_path labels_path : string)
    (augmentation : bool) (sampling : Sampler.sampling_config)
    (img_size : nat) (self : CrossValidation.CrossValidationDataset)
    (r : Albu.rng) (index : nat) (id : string) (stems : list Z) :
  CrossValidation.init resample kernels fs frames_path labels_path
    augmentation sampling img_size = Ok self →
  CrossValidation.ids self !! index = Some id →
  Dataset.listdir fs id = Ok (Sampler.png_name <$> stems) →
  (∀ z, z ∈ stems → readable fs id (Sampler.png_name z)) →
  1 ≤ Sampler.num_groups sampling →
  2 ≤ Sampler.group_size sampling ≤ 24 →
  (1 ≤ img_size)%nat →
  ∃ r' x,
    shape x = [Z.to_nat (Sampler.num_groups sampling); 2; 3;
               img_size; img_size]%nat
    ∧ CrossValidation.getitem to_float fs self r (Z.of_nat index)
      = match CrossValidation.labels self !! "0" with
        | Some y => Ok (r', (x, y, id))
        | None => Raise KeyError
        end.
Proof.
  intros Hinit Hid Hdir Hread Hg Hs Hsize.
  unfold CrossValidation.init in Hinit.
  destruct (CrossValidation.get_full_paths fs frames_path) as [ids|] eqn:Hids;
    [|done].
  destruct (CrossValidation.get_labels fs labels_path) as [labels|];
    [|done].
  injection Hinit as <-.
  cbn [CrossValidation.ids CrossValidation.labels] in *.
  pose proof (get_full_paths_sound fs frames_path ids Hids) as Hall.
  rewrite Forall_forall in Hall.
  destruct (Hall id) as (dir & videos & video & frames & _ & _ & _ & Hpath
                         & Hframes & Hlong).
  { by eapply list_elem_of_lookup_2. }
  assert (24 ≤ Z.of_nat (length stems)) as Hstems.
  { rewrite Hdir in Hframes. injection Hframes as <-.
    rewrite length_fmap in Hlong. lia. }
  assert (CrossValidation.basename id = "0") as Hbase.
  { rewrite Hpath. apply basename_face. }
  unfold CrossValidation.getitem.
  cbn [CrossValidation.ids CrossValidation.labels CrossValidation.sampling
       CrossValidation.aug].
  destruct (index_in_range ids (Z.of_nat index)) as (id' & -> & Hid').
  { apply lookup_lt_Some in Hid. lia. }
  rewrite Nat2Z.id, Hid in Hid'. injection Hid' as <-.
  run. rewrite Hdir. run. rewrite Hbase.
  destruct sampling as [groups size]. cbn [Sampler.num_groups
    Sampler.group_size] in *.
  destruct (sampled_names_of_track stems groups size)
    as (frame_names & -> & Hlen & Hgroups); [lia..|].
  run.
  destruct (assemble_groups to_float fs
      (if augmentation then Dataset.training_aug resample kernels img_size
       else Dataset.inference_aug resample img_size)
      id labels "0" id r img_size frame_names) as (r' & x & Hshape & ->).
  - destruct augmentation;
      [by apply training_aug_contract | by apply inference_aug_contract].
  - destruct frame_names; [cbn in Hlen; lia | done].
  - apply (Forall_impl _ _ _ Hgroups). intros group [Hglen Hnames].
    split; [lia|]. apply (Forall_impl _ _ _ Hnames).
    intros name (z & Hz & ->). auto.
  - exists r', x. split; [by rewrite Hshape, Hlen|].
    unfold Py.getitem. by destruct (labels !! "0").
Qed.

Lemma cv_dataset_init :
  CrossValidation.init nearest demo_kernels cv_fs "frames" "meta" false
    {| Sampler.num_groups := 2; Sampler.group_size := 2 |} 2
  = Ok cv_dataset.
Proof.
  unfold CrossValidation.init.
  replace (CrossValidation.get_full_paths cv_fs "frames")
    with (Ok ["frames/training/vidA/0"] : result (list string))
    by reflexivity.
  replace (CrossValidation.get_labels cv_fs "meta")
    with (Ok {["vidA" := 0%Q]} : result (gmap string Q))
    by (vm_compute; reflexivity).
  reflexivity.
Qed.

Lemma cv_track_readable z :
  z ∈ Py.range 24 →
  readable cv_fs "frames/training/vidA/0" (Sampler.png_name z).
Proof.
  intros Hz. exists demo_frame. split.
  - let l := eval vm_compute in (Py.range 24) in
    change (Py.range 24) with l in Hz.
    repeat (apply elem_of_cons in Hz as [->|Hz]; [reflexivity|]).
    by apply elem_of_nil in Hz.
  - exists 2%nat, 2%nat. split; [reflexivity|lia].
Qed.

Lemma cross_validation_getitem_label_key_witness :
  CrossValidation.getitem demo_to_float cv_fs cv_dataset quiet 0
  = Raise KeyError.
Proof.
  destruct (cross_validation_getitem_label_key demo_to_float nearest
              demo_kernels cv_fs "frames" "meta" false
              {| Sampler.num_groups := 2; Sampler.group_size := 2 |} 2
              cv_dataset quiet 0 "frames/training/vidA/0" (Py.range 24))
    as (r' & x & _ & Hrun).
  - exact cv_dataset_init.
  - reflexivity.
  - reflexivity.
  - exact cv_track_readable.
  - cbn. lia.
  - cbn. lia.
  - lia.
  - exact Hrun.
Defined.

(** Property X18.  [CrossValidationDataset.get_labels] reads the label
    files of the training directory first and those of the validation
    directory after them, into one mapping.  When both directories list
    and all their files parse, a key that some validation record writes
    holds the value of a validation record, whatever the training files
    say; every other key holds what [CustomDataset.get_labels] returns
    for the training directory alone. *)
Theorem cross_validation_labels_validation_wins (fs : Dataset.filesystem)
    (labels_path : string) (training_files validation_files : list string)
    (training validation : list (list (string * Dataset.details))) :
  Dataset.listdir fs (Dataset.path_join labels_path ["training"])
    = Ok training_files →
  Forall2 (λ json_file file_data,
             Dataset.json_load fs
               (Dataset.path_join (Dataset.path_join labels_path ["training"])
                                  [json_file]) = Ok file_data)
          training_files training →
  Dataset.listdir fs (Dataset.path_join labels_path ["validation"])
    = Ok validation_files →
  Forall2 (λ json_file file_data,
             Dataset.json_load fs
               (Dataset.path_join
                  (Dataset.path_join labels_path ["validation"])
                  [json_file]) = Ok file_data)
          validation_files validation →
  ∃ labels trained,
    CrossValidation.get_labels fs labels_path = Ok labels
    ∧ Dataset.get_labels fs (Dataset.path_join labels_path ["training"])
      = Ok trained
    ∧ (∀ key, written validation key →
         ∃ file_data record,
           file_data ∈ validation ∧ record ∈ file_data
           ∧ Dataset.record_key record.1 = key
           ∧ labels !! key
             = Some (Dataset.float_of_int (Dataset.is_fake record.2)))
    ∧ (∀ key, ¬ written validation key → labels !! key = trained !! key).
Proof.
  intros Htdir Htload Hvdir Hvload.
  exists (foldl Dataset.add_records
            (foldl Dataset.add_records ∅ training) validation),
         (foldl Dataset.add_records ∅ training).
  split; [by eapply cv_get_labels_fold|].
  split; [by eapply get_labels_fold|].
  split.
  - intros key Hkey. by apply fold_records_written.
  - intros key Hkey. apply fold_records_other.
    intros file_data record Hfile Hrecord Heq. apply Hkey.
    by exists file_data, record.
Qed.

Lemma cross_validation_labels_validation_wins_witness :
  ∃ labels,
    CrossValidation.get_labels cv_fs "meta" = Ok labels
    ∧ labels !! "vidA" = Some 0%Q.
Proof.
  destruct (cross_validation_labels_validation_wins cv_fs "meta"
              ["t.json"] ["v.json"]
              [[("vidA.mp4", {| Dataset.is_fake := 1 |})]]
              [[("vidA.mp4", {| Dataset.is_fake := 0 |})]])
    as (labels & trained & Hrun & _ & Hwins & _).
  - reflexivity.
  - constructor; [reflexivity | constructor].
  - reflexivity.
  - constructor; [reflexivity | constructor].
  - exists labels. split; [exact Hrun|].
    destruct (Hwins "vidA") as (file_data & record & Hfile & Hrecord & _ & Hv).
    + exists [("vidA.mp4", {| Dataset.is_fake := 0 |})],
             ("vidA.mp4", {| Dataset.is_fake := 0 |}).
      split; [by left|]. split; [by left | reflexivity].
    + apply elem_of_cons in Hfile as [->|Hfile];
        [|by apply elem_of_nil in Hfile].
      apply elem_of_cons in Hrecord as [->|Hrecord];
        [|by apply elem_of_nil in Hrecord].
      exact Hv.
Defined.
